(** * Profit calculator: the breakeven engine, embedded and verified

    The repository ships several editions of one React component,
    [ProfitCalculator].  The domain logic of each edition sits in a few
    memoised closures ([results], [marginScenarios], [bundleResults]) and a
    few state updaters.  Each closure is embedded below as a function of the
    component state it reads.

    Numbers.  The closures are embedded twice.  In [Calculator64],
    [CalculatorRefund64] and [BundleCalculator64] a [number] is an IEEE 754
    binary64 value and every operation rounds, overflows and signs its zeros
    as the language does; the statements about the figures the engine
    returns are proved there.  In [Calculator], [CalculatorRefund] and
    [BundleCalculator] a [number] is an exact rational extended with
    [Infinity], [-Infinity] and [NaN], and arithmetic on the finite part is
    exact: that reading leaves out rounding, overflow and the sign of zero,
    and carries the statements about guards, state updates, ordering and
    tints. *)

From Stdlib Require Import QArith Qround ZArith List Sorted Bool Lia Lqa.
From Stdlib Require Import SpecFloat.
Import ListNotations.

Open Scope Q_scope.

(** ** JavaScript numbers *)

Module Number.

Inductive number : Type :=
| Num (q : Q)
| PInf
| NInf
| NaN.

Definition Qltb (a b : Q) : bool := negb (Qle_bool b a).

(** Unary minus. *)
Definition neg (x : number) : number :=
  match x with
  | Num a => Num (- a)
  | PInf => NInf
  | NInf => PInf
  | NaN => NaN
  end.

(** [x + y]. *)
Definition add (x y : number) : number :=
  match x, y with
  | NaN, _ | _, NaN => NaN
  | Num a, Num b => Num (a + b)
  | PInf, NInf | NInf, PInf => NaN
  | PInf, _ | _, PInf => PInf
  | NInf, _ | _, NInf => NInf
  end.

(** [x - y]. *)
Definition sub (x y : number) : number := add x (neg y).

(** The infinity whose sign is the product of the signs of a non-zero
    rational and of an infinity ([pos] tells whether the latter is
    [+Infinity]). *)
Definition signed_inf (a : Q) (pos : bool) : number :=
  if Bool.eqb (Qltb 0 a) pos then PInf else NInf.

(** [x * y]. *)
Definition mul (x y : number) : number :=
  match x, y with
  | NaN, _ | _, NaN => NaN
  | Num a, Num b => Num (a * b)
  | Num a, PInf | PInf, Num a => if Qeq_bool a 0 then NaN else signed_inf a true
  | Num a, NInf | NInf, Num a => if Qeq_bool a 0 then NaN else signed_inf a false
  | PInf, PInf | NInf, NInf => PInf
  | PInf, NInf | NInf, PInf => NInf
  end.

(** [x / y].  The model has a single zero, read as [+0] when it divides. *)
Definition div (x y : number) : number :=
  match x, y with
  | NaN, _ | _, NaN => NaN
  | Num a, Num b =>
      if Qeq_bool b 0
      then (if Qeq_bool a 0 then NaN else if Qltb 0 a then PInf else NInf)
      else Num (a / b)
  | Num _, PInf | Num _, NInf => Num 0
  | PInf, Num b => if Qltb b 0 then NInf else PInf
  | NInf, Num b => if Qltb b 0 then PInf else NInf
  | PInf, PInf | PInf, NInf | NInf, PInf | NInf, NInf => NaN
  end.

(** [x < y]; false as soon as one side is [NaN]. *)
Definition ltb (x y : number) : bool :=
  match x, y with
  | NaN, _ | _, NaN => false
  | Num a, Num b => Qltb a b
  | NInf, NInf | PInf, _ => false
  | NInf, _ | Num _, PInf => true
  | Num _, NInf => false
  end.

(** [x <= y]; false as soon as one side is [NaN]. *)
Definition leb (x y : number) : bool :=
  match x, y with
  | NaN, _ | _, NaN => false
  | Num a, Num b => Qle_bool a b
  | NInf, _ | _, PInf => true
  | PInf, _ | Num _, NInf => false
  end.

(** [x > y] and [x >= y]. *)
Definition gtb (x y : number) : bool := ltb y x.
Definition geb (x y : number) : bool := leb y x.

(** [ToBoolean]: a number is falsy exactly when it is zero or [NaN], so
    [!x] is [negb (truthy x)]. *)
Definition truthy (x : number) : bool :=
  match x with
  | Num a => negb (Qeq_bool a 0)
  | PInf | NInf => true
  | NaN => false
  end.

(** [isFinite(x)]. *)
Definition isFinite (x : number) : bool :=
  match x with
  | Num _ => true
  | _ => false
  end.

(** [Math.ceil(x)]. *)
Definition ceil (x : number) : number :=
  match x with
  | Num a => Num (inject_Z (Qceiling a))
  | _ => x
  end.

(** [Math.round(x)]: the nearest integer, ties towards [+Infinity]. *)
Definition round (x : number) : number :=
  match x with
  | Num a => Num (inject_Z (Qfloor (a + (1 # 2))))
  | _ => x
  end.

(** Equality of numbers as values: rationals are compared by [Qeq], so
    [Num (1 # 2)] and [Num (2 # 4)] are the same number.  [NaN] is related to
    itself: this is identity of values, not the [===] of the language. *)
Definition num_eq (x y : number) : Prop :=
  match x, y with
  | Num a, Num b => a == b
  | PInf, PInf | NInf, NInf | NaN, NaN => True
  | _, _ => False
  end.

End Number.

Import Number.

Declare Scope num_scope.
Delimit Scope num_scope with num.
Bind Scope num_scope with number.
Infix "+" := add : num_scope.
Infix "-" := sub : num_scope.
Infix "*" := mul : num_scope.
Infix "/" := div : num_scope.
Infix "==" := num_eq : num_scope.
Infix ">?" := gtb (at level 70, no associativity) : num_scope.
Infix "<=?" := leb (at level 70, no associativity) : num_scope.
Infix ">=?" := geb (at level 70, no associativity) : num_scope.
Infix "<?" := ltb (at level 70, no associativity) : num_scope.

(** ** First edition (src/components/calculator.tsx, no refund field)

    The edition of src/unnamed/part_001 has the same closures; it only adds a
    field [unitsSold] that no computation reads. *)

Module Calculator.

Definition TARGET_MARGINS : list number :=
  [Num 0; Num 0.10; Num 0.20; Num 0.30; Num 0.40; Num 0.50].

Record CalcInputs : Type := {
  sellingPrice : number;
  cogs : number;
  taxPercent : number;
  adSpend : number;
  feesPercent : number;
  feesCents : number;
  otherCostsPercent : number;
  fixedFeesPerUnit : number;
  monthlyOverhead : number
}.

(** [keyof CalcInputs]. *)
Inductive Key : Type :=
| Key_sellingPrice | Key_cogs | Key_taxPercent | Key_adSpend
| Key_feesPercent | Key_feesCents | Key_otherCostsPercent
| Key_fixedFeesPerUnit | Key_monthlyOverhead.

Inductive ShopifyPlan : Type := basic | shopify | advanced | custom.

(** An entry of [SHOPIFY_FEES]; its display label is left out. *)
Record Fees : Type := { percent : number; cents : number }.

Definition SHOPIFY_FEES (plan : ShopifyPlan) : Fees :=
  match plan with
  | basic => {| percent := Num 2.9; cents := Num 30 |}
  | shopify => {| percent := Num 2.6; cents := Num 30 |}
  | advanced => {| percent := Num 2.4; cents := Num 30 |}
  | custom => {| percent := Num 0; cents := Num 0 |}
  end.

Definition Key_eqb (a b : Key) : bool :=
  match a, b with
  | Key_sellingPrice, Key_sellingPrice | Key_cogs, Key_cogs
  | Key_taxPercent, Key_taxPercent | Key_adSpend, Key_adSpend
  | Key_feesPercent, Key_feesPercent | Key_feesCents, Key_feesCents
  | Key_otherCostsPercent, Key_otherCostsPercent
  | Key_fixedFeesPerUnit, Key_fixedFeesPerUnit
  | Key_monthlyOverhead, Key_monthlyOverhead => true
  | _, _ => false
  end.

(** The object spread [{ ...prev, [key]: value }]. *)
Definition with_key (prev : CalcInputs) (key : Key) (value : number) : CalcInputs :=
  let field (k : Key) (old : number) := if Key_eqb k key then value else old in
  {| sellingPrice := field Key_sellingPrice (sellingPrice prev);
     cogs := field Key_cogs (cogs prev);
     taxPercent := field Key_taxPercent (taxPercent prev);
     adSpend := field Key_adSpend (adSpend prev);
     feesPercent := field Key_feesPercent (feesPercent prev);
     feesCents := field Key_feesCents (feesCents prev);
     otherCostsPercent := field Key_otherCostsPercent (otherCostsPercent prev);
     fixedFeesPerUnit := field Key_fixedFeesPerUnit (fixedFeesPerUnit prev);
     monthlyOverhead := field Key_monthlyOverhead (monthlyOverhead prev) |}.

(** Reading a field by key. *)
Definition get_key (c : CalcInputs) (key : Key) : number :=
  match key with
  | Key_sellingPrice => sellingPrice c
  | Key_cogs => cogs c
  | Key_taxPercent => taxPercent c
  | Key_adSpend => adSpend c
  | Key_feesPercent => feesPercent c
  | Key_feesCents => feesCents c
  | Key_otherCostsPercent => otherCostsPercent c
  | Key_fixedFeesPerUnit => fixedFeesPerUnit c
  | Key_monthlyOverhead => monthlyOverhead c
  end.

(** The two pieces of component state the fee plan touches. *)
Record State : Type := { inputs : CalcInputs; shopifyPlan : ShopifyPlan }.

Definition updateInput (key : Key) (value : number) (st : State) : State :=
  {| inputs := with_key (inputs st) key value;
     shopifyPlan :=
       if Key_eqb key Key_feesPercent || Key_eqb key Key_feesCents
       then custom
       else shopifyPlan st |}.

Definition handlePlanChange (plan : ShopifyPlan) (st : State) : State :=
  {| shopifyPlan := plan;
     inputs :=
       match plan with
       | custom => inputs st
       | _ =>
           let fees := SHOPIFY_FEES plan in
           with_key (with_key (inputs st) Key_feesPercent (percent fees))
                    Key_feesCents (cents fees)
       end |}.

Module Scenario.
Record t : Type := {
  margin : number;
  price : number;
  profit : number;
  breakevenRoas : number;
  breakevenOrders : number
}.
End Scenario.

Module Result.
Record t : Type := {
  hasSellingPrice : bool;
  breakevenRoas : number;
  breakevenUnits : number;
  profitPerUnit : number;
  hasAdSpend : bool
}.
End Result.

Definition marginScenarios (inputs : CalcInputs) : list Scenario.t :=
  let sellingPrice := sellingPrice inputs in
  let adSpend := adSpend inputs in
  map (fun margin =>
         let targetProfit := (sellingPrice * margin)%num in
         let breakevenRoas :=
           if (targetProfit >? Num 0.01)%num
           then (sellingPrice / targetProfit)%num else PInf in
         let breakevenOrders :=
           if (targetProfit >? Num 0.01)%num
           then ceil (adSpend / targetProfit) else PInf in
         {| Scenario.margin := margin;
            Scenario.price := sellingPrice;
            Scenario.profit := (round (targetProfit * Num 100) / Num 100)%num;
            Scenario.breakevenRoas :=
              if isFinite breakevenRoas
              then (round (breakevenRoas * Num 100) / Num 100)%num else PInf;
            Scenario.breakevenOrders :=
              if isFinite breakevenOrders then breakevenOrders else PInf |})
      TARGET_MARGINS.

Definition results (inputs : CalcInputs) : Result.t :=
  let sellingPrice := sellingPrice inputs in
  let cogs := cogs inputs in
  let taxPercent := taxPercent inputs in
  let adSpend := adSpend inputs in
  let feesPercent := feesPercent inputs in
  let feesCents := feesCents inputs in
  let otherCostsPercent := otherCostsPercent inputs in
  let fixedFeesPerUnit := fixedFeesPerUnit inputs in
  let monthlyOverhead := monthlyOverhead inputs in
  if negb (truthy sellingPrice) || (sellingPrice <=? Num 0)%num then
    {| Result.hasSellingPrice := false;
       Result.breakevenRoas := Num 0;
       Result.breakevenUnits := Num 0;
       Result.profitPerUnit := Num 0;
       Result.hasAdSpend := false |}
  else
    let grossMargin := (sellingPrice - cogs - fixedFeesPerUnit)%num in
    let processingFees :=
      (sellingPrice * (feesPercent / Num 100) + feesCents / Num 100)%num in
    let taxCost := (sellingPrice * (taxPercent / Num 100))%num in
    let otherCosts := (sellingPrice * (otherCostsPercent / Num 100))%num in
    let profitPerUnit := (grossMargin - processingFees - taxCost - otherCosts)%num in
    let fixedCosts := (adSpend + monthlyOverhead)%num in
    let breakevenUnits :=
      if (profitPerUnit >? Num 0)%num && (fixedCosts >? Num 0)%num
      then ceil (fixedCosts / profitPerUnit) else Num 0 in
    let breakevenRoas :=
      if (profitPerUnit >? Num 0)%num
      then (sellingPrice / profitPerUnit)%num else Num 0 in
    {| Result.hasSellingPrice := true;
       Result.breakevenRoas := breakevenRoas;
       Result.breakevenUnits := breakevenUnits;
       Result.profitPerUnit := profitPerUnit;
       Result.hasAdSpend := (adSpend >? Num 0)%num |}.

End Calculator.

(** ** Second edition (src/components/calculator.tsx, with [refundPercent]) *)

Module CalculatorRefund.

Definition TARGET_MARGINS : list number :=
  [Num 0; Num 0.10; Num 0.20; Num 0.30; Num 0.40; Num 0.50].

Record CalcInputs : Type := {
  sellingPrice : number;
  cogs : number;
  taxPercent : number;
  refundPercent : number;
  adSpend : number;
  feesPercent : number;
  feesCents : number;
  otherCostsPercent : number;
  fixedFeesPerUnit : number;
  monthlyOverhead : number
}.

Module Scenario.
Record t : Type := {
  margin : number;
  price : number;
  profit : number;
  breakevenRoas : number;
  breakevenOrders : number
}.
End Scenario.

Module Result.
Record t : Type := {
  hasSellingPrice : bool;
  breakevenRoas : number;
  breakevenUnits : number;
  profitPerUnit : number;
  hasAdSpend : bool
}.
End Result.

Definition marginScenarios (inputs : CalcInputs) : list Scenario.t :=
  let sellingPrice := sellingPrice inputs in
  let adSpend := adSpend inputs in
  map (fun margin =>
         let targetProfit := (sellingPrice * margin)%num in
         let breakevenRoas :=
           if (targetProfit >? Num 0.01)%num
           then (sellingPrice / targetProfit)%num else PInf in
         let breakevenOrders :=
           if (targetProfit >? Num 0.01)%num
           then ceil (adSpend / targetProfit) else PInf in
         {| Scenario.margin := margin;
            Scenario.price := sellingPrice;
            Scenario.profit := (round (targetProfit * Num 100) / Num 100)%num;
            Scenario.breakevenRoas :=
              if isFinite breakevenRoas
              then (round (breakevenRoas * Num 100) / Num 100)%num else PInf;
            Scenario.breakevenOrders :=
              if isFinite breakevenOrders then breakevenOrders else PInf |})
      TARGET_MARGINS.

Definition results (inputs : CalcInputs) : Result.t :=
  let sellingPrice := sellingPrice inputs in
  let cogs := cogs inputs in
  let taxPercent := taxPercent inputs in
  let refundPercent := refundPercent inputs in
  let adSpend := adSpend inputs in
  let feesPercent := feesPercent inputs in
  let feesCents := feesCents inputs in
  let otherCostsPercent := otherCostsPercent inputs in
  let fixedFeesPerUnit := fixedFeesPerUnit inputs in
  let monthlyOverhead := monthlyOverhead inputs in
  if negb (truthy sellingPrice) || (sellingPrice <=? Num 0)%num then
    {| Result.hasSellingPrice := false;
       Result.breakevenRoas := Num 0;
       Result.breakevenUnits := Num 0;
       Result.profitPerUnit := Num 0;
       Result.hasAdSpend := false |}
  else
    let grossMargin := (sellingPrice - cogs - fixedFeesPerUnit)%num in
    let processingFees :=
      (sellingPrice * (feesPercent / Num 100) + feesCents / Num 100)%num in
    let taxCost := (sellingPrice * (taxPercent / Num 100))%num in
    let refundCost := (sellingPrice * (refundPercent / Num 100))%num in
    let otherCosts := (sellingPrice * (otherCostsPercent / Num 100))%num in
    let profitPerUnit :=
      (grossMargin - processingFees - taxCost - refundCost - otherCosts)%num in
    let fixedCosts := (adSpend + monthlyOverhead)%num in
    let breakevenUnits :=
      if (profitPerUnit >? Num 0)%num && (fixedCosts >? Num 0)%num
      then ceil (fixedCosts / profitPerUnit) else Num 0 in
    let breakevenRoas :=
      if (profitPerUnit >? Num 0)%num
      then (sellingPrice / profitPerUnit)%num else Num 0 in
    {| Result.hasSellingPrice := true;
       Result.breakevenRoas := breakevenRoas;
       Result.breakevenUnits := breakevenUnits;
       Result.profitPerUnit := profitPerUnit;
       Result.hasAdSpend := (adSpend >? Num 0)%num |}.

End CalculatorRefund.

(** ** Preset and bundle edition (src/unnamed/part_002) *)

Module BundleCalculator.

Record CalcInputs : Type := {
  sellingPrice : number;
  cogs : number;
  adSpend : number;
  feesPercent : number;
  otherCostsPercent : number;
  fixedFeesPerUnit : number;
  monthlyOverhead : number;
  unitsSold : number
}.

Record BundleTier : Type := {
  quantity : number;
  price : number;
  cogsPerUnit : number
}.

Module BundleResults.
Record t : Type := {
  quantity : number;
  price : number;
  totalCogs : number;
  profitPerOrder : number;
  breakevenRoas : number;
  breakevenOrders : number
}.
End BundleResults.

Module Result.
Record t : Type := {
  isValid : bool;
  breakevenRoas : number;
  breakevenUnits : number;
  profitPerUnit : number
}.
End Result.

Definition bundleResults (bundleMode : bool) (bundleTiers : list BundleTier)
    (inputs : CalcInputs) : list BundleResults.t :=
  if negb bundleMode then []
  else
    let adSpend := adSpend inputs in
    let feesPercent := feesPercent inputs in
    let otherCostsPercent := otherCostsPercent inputs in
    map (fun tier =>
           let totalCogs := (cogsPerUnit tier * quantity tier)%num in
           let fees := (price tier * (feesPercent / Num 100))%num in
           let otherCosts := (price tier * (otherCostsPercent / Num 100))%num in
           let profitPerOrder := (price tier - totalCogs - fees - otherCosts)%num in
           let breakevenRoas :=
             if (profitPerOrder >? Num 0)%num
             then (price tier / profitPerOrder)%num else Num 0 in
           let breakevenOrders :=
             if (profitPerOrder >? Num 0)%num
             then ceil (adSpend / profitPerOrder) else Num 0 in
           {| BundleResults.quantity := quantity tier;
              BundleResults.price := price tier;
              BundleResults.totalCogs := totalCogs;
              BundleResults.profitPerOrder := profitPerOrder;
              BundleResults.breakevenRoas := breakevenRoas;
              BundleResults.breakevenOrders := breakevenOrders |})
        bundleTiers.

Definition results (inputs : CalcInputs) : Result.t :=
  let sellingPrice := sellingPrice inputs in
  let cogs := cogs inputs in
  let adSpend := adSpend inputs in
  let feesPercent := feesPercent inputs in
  let otherCostsPercent := otherCostsPercent inputs in
  let fixedFeesPerUnit := fixedFeesPerUnit inputs in
  let monthlyOverhead := monthlyOverhead inputs in
  if (sellingPrice <=? Num 0)%num || (cogs >=? sellingPrice)%num then
    {| Result.isValid := false;
       Result.breakevenRoas := Num 0;
       Result.breakevenUnits := Num 0;
       Result.profitPerUnit := Num 0 |}
  else
    let grossMargin := (sellingPrice - cogs - fixedFeesPerUnit)%num in
    let variableCosts :=
      (sellingPrice * ((feesPercent + otherCostsPercent) / Num 100))%num in
    let profitPerUnit := (grossMargin - variableCosts)%num in
    if (profitPerUnit <=? Num 0)%num then
      {| Result.isValid := false;
         Result.breakevenRoas := Num 0;
         Result.breakevenUnits := Num 0;
         Result.profitPerUnit := profitPerUnit |}
    else
      let fixedCosts := (adSpend + monthlyOverhead)%num in
      let breakevenUnits :=
        if (fixedCosts >? Num 0)%num
        then ceil (fixedCosts / profitPerUnit) else Num 0 in
      let breakevenRoas :=
        if (adSpend >? Num 0)%num && (profitPerUnit >? Num 0)%num
        then (sellingPrice / profitPerUnit)%num else Num 0 in
      {| Result.isValid := true;
         Result.breakevenRoas := breakevenRoas;
         Result.breakevenUnits := breakevenUnits;
         Result.profitPerUnit := profitPerUnit |}.

End BundleCalculator.

(** ** Vocabulary of the statements *)

(** All fields of a configuration are finite numbers. *)
Definition finite_inputs (c : Calculator.CalcInputs) : Prop :=
  forall key, isFinite (Calculator.get_key c key) = true.

(** ** Sample configurations *)

(** The configuration the component starts from, and the same with an
    advertising budget of 100. *)
Definition default_inputs : Calculator.CalcInputs :=
  {| Calculator.sellingPrice := Num 50;
     Calculator.cogs := Num 10;
     Calculator.taxPercent := Num 0;
     Calculator.adSpend := Num 0;
     Calculator.feesPercent := Num 2.9;
     Calculator.feesCents := Num 30;
     Calculator.otherCostsPercent := Num 0;
     Calculator.fixedFeesPerUnit := Num 0;
     Calculator.monthlyOverhead := Num 0 |}.

Definition free_inputs : Calculator.CalcInputs :=
  Calculator.with_key default_inputs Calculator.Key_sellingPrice (Num 0).

Definition negative_price_refund : CalculatorRefund.CalcInputs :=
  {| CalculatorRefund.sellingPrice := Num (-5);
     CalculatorRefund.cogs := Num 10;
     CalculatorRefund.taxPercent := Num 8;
     CalculatorRefund.refundPercent := Num 2;
     CalculatorRefund.adSpend := Num 100;
     CalculatorRefund.feesPercent := Num 2.9;
     CalculatorRefund.feesCents := Num 30;
     CalculatorRefund.otherCostsPercent := Num 0;
     CalculatorRefund.fixedFeesPerUnit := Num 0;
     CalculatorRefund.monthlyOverhead := Num 0 |}.

Definition scenario_inputs : Calculator.CalcInputs :=
  Calculator.with_key default_inputs Calculator.Key_adSpend (Num 50).

Definition initial_state : Calculator.State :=
  {| Calculator.inputs := default_inputs;
     Calculator.shopifyPlan := Calculator.basic |}.

Definition bundle_default_tiers : list BundleCalculator.BundleTier :=
  [ {| BundleCalculator.quantity := Num 1;
       BundleCalculator.price := Num 40;
       BundleCalculator.cogsPerUnit := Num 18 |};
    {| BundleCalculator.quantity := Num 2;
       BundleCalculator.price := Num 70;
       BundleCalculator.cogsPerUnit := Num 18 |} ].
From Stdlib Require String Ascii.

(** ** What the first edition renders from [results] *)

Module CalculatorUI.

Import String.
Local Open Scope string_scope.

Definition getRoasBackground (roas : number) : string :=
  if (roas <=? Num 0)%num || negb (isFinite roas) then "bg-gray-50/80 border-gray-100"
  else if (roas <? Num 1.5)%num then "bg-emerald-50/80 border-emerald-100"
  else if (roas <=? Num 2.0)%num then "bg-amber-50/80 border-amber-100"
  else "bg-red-50/80 border-red-100".

(** The number behind the "Net Margin" tile,
    [(results.profitPerUnit / inputs.sellingPrice) * 100]; [None] when the
    tile shows a dash. *)
Definition netMarginPercent (inputs : Calculator.CalcInputs) : option number :=
  let results := Calculator.results inputs in
  if Calculator.Result.hasSellingPrice results
  then Some (Calculator.Result.profitPerUnit results
             / Calculator.sellingPrice inputs * Num 100)%num
  else None.

(** Whether the "Breakeven ROAS" tile shows a figure rather than a dash:
    [results.hasSellingPrice && results.breakevenRoas > 0]. *)
Definition roasShown (inputs : Calculator.CalcInputs) : bool :=
  let results := Calculator.results inputs in
  Calculator.Result.hasSellingPrice results
  && (Calculator.Result.breakevenRoas results >? Num 0)%num.

(** The tint of the "Breakeven ROAS" tile. *)
Definition roasTileTint (inputs : Calculator.CalcInputs) : string :=
  getRoasBackground (Calculator.Result.breakevenRoas (Calculator.results inputs)).

(** The tint of each row of the scenario table, top to bottom. *)
Definition scenarioTints (inputs : Calculator.CalcInputs) : list string :=
  map (fun scenario => getRoasBackground (Calculator.Scenario.breakevenRoas scenario))
      (Calculator.marginScenarios inputs).

End CalculatorUI.

(** ** What the second edition renders from [results] *)

Module CalculatorRefundUI.

Import String.
Local Open Scope string_scope.

Definition getRoasBackground (roas : number) : string :=
  if (roas <=? Num 0)%num || negb (isFinite roas) then "bg-gray-50/80 border-gray-100"
  else if (roas <=? Num 1.7)%num then "bg-emerald-50/80 border-emerald-100"
  else if (roas <=? Num 2.5)%num then "bg-amber-50/80 border-amber-100"
  else "bg-red-50/80 border-red-100".

Definition scenarioTints (inputs : CalculatorRefund.CalcInputs) : list string :=
  map (fun scenario =>
         getRoasBackground (CalculatorRefund.Scenario.breakevenRoas scenario))
      (CalculatorRefund.marginScenarios inputs).

End CalculatorRefundUI.

(** The four tints [getRoasBackground] chooses from. *)
Module Tint.
Import String.
Local Open Scope string_scope.
Definition gray : string := "bg-gray-50/80 border-gray-100".
Definition emerald : string := "bg-emerald-50/80 border-emerald-100".
Definition amber : string := "bg-amber-50/80 border-amber-100".
Definition red : string := "bg-red-50/80 border-red-100".
End Tint.
(** ** Component state of the preset and bundle edition (src/unnamed/part_002) *)

Module BundleState.

Import BundleCalculator.

(** [keyof CalcInputs]. *)
Inductive Key : Type :=
| Key_sellingPrice | Key_cogs | Key_adSpend | Key_feesPercent
| Key_otherCostsPercent | Key_fixedFeesPerUnit | Key_monthlyOverhead
| Key_unitsSold.

Definition Key_eqb (a b : Key) : bool :=
  match a, b with
  | Key_sellingPrice, Key_sellingPrice | Key_cogs, Key_cogs
  | Key_adSpend, Key_adSpend | Key_feesPercent, Key_feesPercent
  | Key_otherCostsPercent, Key_otherCostsPercent
  | Key_fixedFeesPerUnit, Key_fixedFeesPerUnit
  | Key_monthlyOverhead, Key_monthlyOverhead
  | Key_unitsSold, Key_unitsSold => true
  | _, _ => false
  end.

Definition get_key (c : CalcInputs) (key : Key) : number :=
  match key with
  | Key_sellingPrice => sellingPrice c
  | Key_cogs => cogs c
  | Key_adSpend => adSpend c
  | Key_feesPercent => feesPercent c
  | Key_otherCostsPercent => otherCostsPercent c
  | Key_fixedFeesPerUnit => fixedFeesPerUnit c
  | Key_monthlyOverhead => monthlyOverhead c
  | Key_unitsSold => unitsSold c
  end.

(** [Partial<CalcInputs>]: the keys an object literal defines, with their
    values. *)
Definition PartialInputs : Type := Key -> option number.

(** The object spread [{ ...prev, ...values }]. *)
Definition spread (prev : CalcInputs) (values : PartialInputs) : CalcInputs :=
  let field (k : Key) (old : number) :=
    match values k with Some v => v | None => old end in
  {| sellingPrice := field Key_sellingPrice (sellingPrice prev);
     cogs := field Key_cogs (cogs prev);
     adSpend := field Key_adSpend (adSpend prev);
     feesPercent := field Key_feesPercent (feesPercent prev);
     otherCostsPercent := field Key_otherCostsPercent (otherCostsPercent prev);
     fixedFeesPerUnit := field Key_fixedFeesPerUnit (fixedFeesPerUnit prev);
     monthlyOverhead := field Key_monthlyOverhead (monthlyOverhead prev);
     unitsSold := field Key_unitsSold (unitsSold prev) |}.

(** The object spread [{ ...prev, [key]: value }]. *)
Definition with_key (prev : CalcInputs) (key : Key) (value : number) : CalcInputs :=
  spread prev (fun k => if Key_eqb k key then Some value else None).

(** A preset.  Only [values] takes part in a computation; the name,
    description, icon and colour classes are left out. *)
Record Preset : Type := { values : PartialInputs }.

(** The object literal
    [{ sellingPrice, cogs, feesPercent, otherCostsPercent }] of a preset. *)
Definition preset_values (sp cg fp oc : number) : PartialInputs :=
  fun k =>
    match k with
    | Key_sellingPrice => Some sp
    | Key_cogs => Some cg
    | Key_feesPercent => Some fp
    | Key_otherCostsPercent => Some oc
    | _ => None
    end.

Definition PRESETS : list Preset :=
  [ {| values := preset_values (Num 39.99) (Num 15) (Num 3) (Num 5) |};
    {| values := preset_values (Num 49.99) (Num 18) (Num 3) (Num 5) |};
    {| values := preset_values (Num 59.99) (Num 15) (Num 2.9) (Num 4) |};
    {| values := preset_values (Num 89.99) (Num 20) (Num 2.5) (Num 3) |} ].

(** [keyof BundleTier]. *)
Inductive TierField : Type := Field_quantity | Field_price | Field_cogsPerUnit.

Definition with_field (tier : BundleTier) (field : TierField) (value : number)
  : BundleTier :=
  match field with
  | Field_quantity =>
      {| quantity := value; price := price tier; cogsPerUnit := cogsPerUnit tier |}
  | Field_price =>
      {| quantity := quantity tier; price := value; cogsPerUnit := cogsPerUnit tier |}
  | Field_cogsPerUnit =>
      {| quantity := quantity tier; price := price tier; cogsPerUnit := value |}
  end.

Definition get_field (tier : BundleTier) (field : TierField) : number :=
  match field with
  | Field_quantity => quantity tier
  | Field_price => price tier
  | Field_cogsPerUnit => cogsPerUnit tier
  end.

Record State : Type := {
  inputs : CalcInputs;
  showAdvanced : bool;
  activePreset : option nat;
  bundleMode : bool;
  bundleTiers : list BundleTier
}.

Definition initial : State :=
  {| inputs :=
       {| sellingPrice := Num 49.99; cogs := Num 18; adSpend := Num 50;
          feesPercent := Num 3; otherCostsPercent := Num 0;
          fixedFeesPerUnit := Num 0; monthlyOverhead := Num 0;
          unitsSold := Num 0 |};
     showAdvanced := false;
     activePreset := Some 1%nat;
     bundleMode := false;
     bundleTiers :=
       [ {| quantity := Num 1; price := Num 40; cogsPerUnit := Num 18 |};
         {| quantity := Num 2; price := Num 70; cogsPerUnit := Num 18 |} ] |}.

Definition updateInput (key : Key) (value : number) (st : State) : State :=
  {| inputs := with_key (inputs st) key value;
     showAdvanced := showAdvanced st;
     activePreset := None;
     bundleMode := bundleMode st;
     bundleTiers := bundleTiers st |}.

Definition applyPreset (preset : Preset) (index : nat) (st : State) : State :=
  {| inputs := spread (inputs st) (values preset);
     showAdvanced := showAdvanced st;
     activePreset := Some index;
     bundleMode := bundleMode st;
     bundleTiers := bundleTiers st |}.

(** [next[index] = ...] on a copy of the array. *)
Fixpoint assign {A : Type} (l : list A) (index : nat) (a : A) : list A :=
  match l, index with
  | [], _ => []
  | _ :: l', O => a :: l'
  | x :: l', S i => x :: assign l' i a
  end.

(** The updater of [updateBundleTier].  Past the end of the array the source
    stores an object holding the one edited field, which is no [BundleTier];
    the embedding answers [None] there. *)
Definition updateBundleTier (index : nat) (field : TierField) (value : number)
    (prev : list BundleTier) : option (list BundleTier) :=
  match nth_error prev index with
  | Some tier => Some (assign prev index (with_field tier field value))
  | None => None
  end.

(** [addBundleTier].  The guard and [lastTier] read the [bundleTiers] the
    callback closed over, the updater receives [prev].  On an empty
    [bundleTiers] the updater reads a field of [undefined] and throws:
    [None].  The price of the added offer is written here in exact
    arithmetic; the statements on this function concern the offers kept and
    their number, and the price as binary64 computes it is
    [addedTierPrice64]. *)
Definition addBundleTier (bundleTiers prev : list BundleTier)
  : option (list BundleTier) :=
  if (length bundleTiers <? 4)%nat then
    match nth_error bundleTiers (length bundleTiers - 1) with
    | Some lastTier =>
        Some (prev ++ [ {| quantity := (quantity lastTier + Num 1)%num;
                           price := round (price lastTier * Num 1.4);
                           cogsPerUnit := cogsPerUnit lastTier |} ])
    | None => None
    end
  else Some prev.

(** [prev.filter((_, i) => i !== index)], counting positions from [i]. *)
Fixpoint filter_index_from {A : Type} (i index : nat) (l : list A) : list A :=
  match l with
  | [] => []
  | a :: l' =>
      if Nat.eqb i index then filter_index_from (S i) index l'
      else a :: filter_index_from (S i) index l'
  end.

(** [removeBundleTier]; the guard reads the closed-over length. *)
Definition removeBundleTier (index : nat) (bundleTiers prev : list BundleTier)
  : list BundleTier :=
  if (1 <? length bundleTiers)%nat then filter_index_from 0 index prev
  else prev.

(** What a user can do to the component. *)
Inductive Action : Type :=
| UpdateInput (key : Key) (value : number)
| ApplyPreset (preset : Preset) (index : nat)
| UpdateBundleTier (index : nat) (field : TierField) (value : number)
| AddBundleTier
| RemoveBundleTier (index : nat)
| ToggleAdvanced
| ToggleBundleMode.

Definition with_tiers (st : State) (tiers : list BundleTier) : State :=
  {| inputs := inputs st;
     showAdvanced := showAdvanced st;
     activePreset := activePreset st;
     bundleMode := bundleMode st;
     bundleTiers := tiers |}.

(** One event, handled by the callbacks of the current render: the
    closed-over [bundleTiers] is the current state. *)
Definition step (a : Action) (st : State) : option State :=
  match a with
  | UpdateInput key value => Some (updateInput key value st)
  | ApplyPreset preset index => Some (applyPreset preset index st)
  | UpdateBundleTier index field value =>
      option_map (with_tiers st)
        (updateBundleTier index field value (bundleTiers st))
  | AddBundleTier =>
      option_map (with_tiers st) (addBundleTier (bundleTiers st) (bundleTiers st))
  | RemoveBundleTier index =>
      Some (with_tiers st
              (removeBundleTier index (bundleTiers st) (bundleTiers st)))
  | ToggleAdvanced =>
      Some {| inputs := inputs st;
              showAdvanced := negb (showAdvanced st);
              activePreset := activePreset st;
              bundleMode := bundleMode st;
              bundleTiers := bundleTiers st |}
  | ToggleBundleMode =>
      Some {| inputs := inputs st;
              showAdvanced := showAdvanced st;
              activePreset := activePreset st;
              bundleMode := negb (bundleMode st);
              bundleTiers := bundleTiers st |}
  end.

Fixpoint run (actions : list Action) (st : State) : option State :=
  match actions with
  | [] => Some st
  | a :: rest =>
      match step a st with
      | Some st' => run rest st'
      | None => None
      end
  end.

(** The card on the right: the offer comparison, the single-product
    analysis, or the request for valid numbers. *)
Inductive Card : Type := OfferComparison | Analysis | EnterValidNumbers.

Definition card (st : State) : Card :=
  if bundleMode st
     && (0 <? length (bundleResults (bundleMode st) (bundleTiers st) (inputs st)))%nat
  then OfferComparison
  else if Result.isValid (results (inputs st)) then Analysis
  else EnterValidNumbers.

End BundleState.

(** ** More vocabulary *)

(** Between one and four bundle tiers. *)
Definition tiers_ok (st : BundleState.State) : Prop :=
  (1 <= length (BundleState.bundleTiers st) <= 4)%nat.

(** The index of a tier edit points at an existing tier. *)
Definition edits_in_range (a : BundleState.Action) (st : BundleState.State) : Prop :=
  match a with
  | BundleState.UpdateBundleTier index _ _ =>
      (index < length (BundleState.bundleTiers st))%nat
  | _ => True
  end.
(** ** The waitlist: email pattern, click handler and route

    A string is the list of its UTF-16 code units. *)

Module Waitlist.

Definition jsstring : Type := list N.

Definition at_sign : N := 64.
Definition full_stop : N := 46.

(** The code units [\s] matches: white space and line terminators. *)
Definition is_space (c : N) : bool :=
  ((9 <=? c) && (c <=? 13) || (c =? 32) || (c =? 160) || (c =? 5760)
   || (8192 <=? c) && (c <=? 8202) || (c =? 8232) || (c =? 8233)
   || (c =? 8239) || (c =? 8287) || (c =? 12288) || (c =? 65279))%N.

(** Regular expressions over code units. *)
Inductive regex : Type :=
| Empty
| Eps
| Class (p : N -> bool)
| Seq (r s : regex)
| Alt (r s : regex)
| Star (r : regex).

(** [r+]. *)
Definition Plus (r : regex) : regex := Seq r (Star r).

Fixpoint nullable (r : regex) : bool :=
  match r with
  | Empty => false
  | Eps => true
  | Class _ => false
  | Seq r s => nullable r && nullable s
  | Alt r s => nullable r || nullable s
  | Star _ => true
  end.

Fixpoint deriv (c : N) (r : regex) : regex :=
  match r with
  | Empty => Empty
  | Eps => Empty
  | Class p => if p c then Eps else Empty
  | Seq r s =>
      if nullable r then Alt (Seq (deriv c r) s) (deriv c s)
      else Seq (deriv c r) s
  | Alt r s => Alt (deriv c r) (deriv c s)
  | Star r => Seq (deriv c r) (Star r)
  end.

(** [/^r$/.test(s)]: the whole of [s] matches [r]. *)
Fixpoint test (r : regex) (s : jsstring) : bool :=
  match s with
  | [] => nullable r
  | c :: s' => test (deriv c r) s'
  end.

(** [[^\s@]]. *)
Definition not_space_or_at (c : N) : bool :=
  negb (is_space c || (c =? at_sign)%N).

(** [/^[^\s@]+@[^\s@]+\.[^\s@]+$/]. *)
Definition EMAIL_REGEX : regex :=
  Seq (Plus (Class not_space_or_at))
      (Seq (Class (fun c => (c =? at_sign)%N))
           (Seq (Plus (Class not_space_or_at))
                (Seq (Class (fun c => (c =? full_stop)%N))
                     (Plus (Class not_space_or_at))))).

(** [s.includes("@")]. *)
Definition includes_at (s : jsstring) : bool :=
  existsb (fun c => (c =? at_sign)%N) s.

(** *** The route handler [POST] *)

(** A parsed JSON value. *)
#[local] Unset Elimination Schemes.
Inductive json : Type :=
| JNull
| JBool (b : bool)
| JNumber (n : number)
| JString (s : jsstring)
| JArray (elements : list json)
| JObject (fields : list (jsstring * json)).
#[local] Set Elimination Schemes.

Definition jsstring_eqb (s t : jsstring) : bool :=
  (length s =? length t)%nat && forallb (fun p => (fst p =? snd p)%N) (combine s t).

Fixpoint lookup (key : jsstring) (fields : list (jsstring * json)) : option json :=
  match fields with
  | [] => None
  | (k, v) :: rest => if jsstring_eqb k key then Some v else lookup key rest
  end.

(** The code units of ["email"]. *)
Definition email_key : jsstring := [101; 109; 97; 105; 108]%N.

Inductive Thrown : Type := TypeError | Rejected.

(** [const { email } = value]: [None] inside is [undefined]; destructuring
    [null] throws. *)
Definition destructure_email (value : json) : Thrown + option json :=
  match value with
  | JNull => inl TypeError
  | JObject fields => inr (lookup email_key fields)
  | _ => inr None
  end.

(** [!email]. *)
Definition falsy (email : option json) : bool :=
  match email with
  | None | Some JNull => true
  | Some (JBool b) => negb b
  | Some (JNumber n) => negb (truthy n)
  | Some (JString s) => match s with [] => true | _ => false end
  | Some (JArray _) | Some (JObject _) => false
  end.

(** [email.includes("@")]: strings and arrays have the method; on anything
    else the call throws. *)
Definition includes (email : json) : Thrown + bool :=
  match email with
  | JString s => inr (includes_at s)
  | JArray elements =>
      inr (existsb (fun e => match e with
                             | JString s => jsstring_eqb s [at_sign]
                             | _ => false
                             end) elements)
  | _ => inl TypeError
  end.

Inductive Body : Type := InvalidEmail | FailedToJoin | Success.

(** The response and the value the [INSERT] was attempted with, if it was. *)
Record Outcome : Type := {
  status : nat;
  body : Body;
  inserted : option json
}.

Definition failed (inserted : option json) : Outcome :=
  {| status := 500; body := FailedToJoin; inserted := inserted |}.

(** [POST].  [request] is what [request.json()] resolves to ([None] when it
    rejects); [insert] tells whether the [INSERT] of a value succeeds. *)
Definition POST (request : option json) (insert : json -> bool) : Outcome :=
  match request with
  | None => failed None
  | Some value =>
      match destructure_email value with
      | inl _ => failed None
      | inr email =>
          if falsy email then
            {| status := 400; body := InvalidEmail; inserted := None |}
          else
            match email with
            | None => {| status := 400; body := InvalidEmail; inserted := None |}
            | Some e =>
                match includes e with
                | inl _ => failed None
                | inr false =>
                    {| status := 400; body := InvalidEmail; inserted := None |}
                | inr true =>
                    if insert e
                    then {| status := 200; body := Success; inserted := Some e |}
                    else failed (Some e)
                end
            end
      end
  end.

(** *** The click handler [handleWaitlist] *)

Inductive WaitlistStatus : Type := idle | loading | success | error.

Record Form : Type := { email : jsstring; waitlistStatus : WaitlistStatus }.

Definition isValidEmail (form : Form) : bool := test EMAIL_REGEX (email form).

(** The body [JSON.stringify({ email })] as the route parses it back. *)
Definition request_of (email : jsstring) : json :=
  JObject [(email_key, JString email)].

(** [res.ok]. *)
Definition ok (o : Outcome) : bool := ((200 <=? status o) && (status o <=? 299))%nat.

(** [handleWaitlist] up to its [await]: nothing happens on an invalid email;
    otherwise the status becomes [loading] and the request is sent. *)
Definition handleWaitlist_send (form : Form) : Form * option json :=
  if negb (isValidEmail form) then (form, None)
  else ({| email := email form; waitlistStatus := loading |},
        Some (request_of (email form))).

(** [handleWaitlist] after its [await]: [response] is [None] when [fetch]
    throws. *)
Definition handleWaitlist_settle (response : option Outcome) (form : Form) : Form :=
  match response with
  | Some res =>
      if ok res then {| email := []; waitlistStatus := success |}
      else {| email := email form; waitlistStatus := error |}
  | None => {| email := email form; waitlistStatus := error |}
  end.

(** A click answered by the route, the network never failing. *)
Definition join (form : Form) (insert : json -> bool) : Form * option Outcome :=
  match handleWaitlist_send form with
  | (form', Some request) =>
      let res := POST (Some request) insert in
      (handleWaitlist_settle (Some res) form', Some res)
  | (form', None) => (form', None)
  end.

End Waitlist.

(** What it means for a string to match a regular expression. *)
Inductive Matches : Waitlist.regex -> Waitlist.jsstring -> Prop :=
| MEps : Matches Waitlist.Eps []
| MClass (p : N -> bool) (c : N) : p c = true -> Matches (Waitlist.Class p) [c]
| MSeq (r s : Waitlist.regex) (u v : Waitlist.jsstring) :
    Matches r u -> Matches s v -> Matches (Waitlist.Seq r s) (u ++ v)
| MAltL (r s : Waitlist.regex) (u : Waitlist.jsstring) :
    Matches r u -> Matches (Waitlist.Alt r s) u
| MAltR (r s : Waitlist.regex) (u : Waitlist.jsstring) :
    Matches s u -> Matches (Waitlist.Alt r s) u
| MStarNil (r : Waitlist.regex) : Matches (Waitlist.Star r) []
| MStarCons (r : Waitlist.regex) (u v : Waitlist.jsstring) :
    Matches r u -> Matches (Waitlist.Star r) v ->
    Matches (Waitlist.Star r) (u ++ v).

(** A non-empty run of code units that are neither white space nor [@]. *)
Definition email_part (u : Waitlist.jsstring) : Prop :=
  u <> [] /\ Forall (fun c => Waitlist.not_space_or_at c = true) u.

(** ** More sample configurations *)

Definition taxed_refund_inputs : CalculatorRefund.CalcInputs :=
  {| CalculatorRefund.sellingPrice := Num 50;
     CalculatorRefund.cogs := Num 10;
     CalculatorRefund.taxPercent := Num 8;
     CalculatorRefund.refundPercent := Num 2;
     CalculatorRefund.adSpend := Num 100;
     CalculatorRefund.feesPercent := Num 2.9;
     CalculatorRefund.feesCents := Num 30;
     CalculatorRefund.otherCostsPercent := Num 0;
     CalculatorRefund.fixedFeesPerUnit := Num 0;
     CalculatorRefund.monthlyOverhead := Num 0 |}.

(** The rows of the scenario table of [scenario_inputs]. *)
Definition scenario_row (n : nat) : Calculator.Scenario.t :=
  nth n (Calculator.marginScenarios scenario_inputs)
      {| Calculator.Scenario.margin := Num 0;
         Calculator.Scenario.price := Num 0;
         Calculator.Scenario.profit := Num 0;
         Calculator.Scenario.breakevenRoas := PInf;
         Calculator.Scenario.breakevenOrders := PInf |}.

(** Three offers added, then the first one removed. *)
Definition sample_actions : list BundleState.Action :=
  [BundleState.AddBundleTier; BundleState.AddBundleTier;
   BundleState.AddBundleTier; BundleState.RemoveBundleTier 0].

(** The presets by position. *)
Definition preset_at (n : nat) : BundleState.Preset :=
  nth n BundleState.PRESETS {| BundleState.values := fun _ => None |}.

(** The code units of ["a@b.c"]. *)
Definition sample_email : Waitlist.jsstring := [97; 64; 98; 46; 99]%N.

Definition sample_form : Waitlist.Form :=
  {| Waitlist.email := sample_email; Waitlist.waitlistStatus := Waitlist.idle |}.

(** ** Binary64 numbers

    The language's [number] is an IEEE 754 binary64 value.  The modules
    below embed the same closures a second time over the standard library's
    specification of binary64 ([SpecFloat], precision 53, maximal exponent
    1024), so that every [+], [-], [*] and [/] rounds to nearest, ties to
    even, overflows to an infinity and keeps the sign of zero, as the
    running code does. *)

Module Float64.

Definition prec : Z := 53.
Definition emax : Z := 1024.

Definition number : Type := spec_float.

Definition infinity : number := S754_infinity false.

(** An integer as a number (exact below [2^53]). *)
Definition of_Z (z : Z) : number := binary_normalize prec emax z 0 false.

Definition add (x y : number) : number := SFadd prec emax x y.
Definition sub (x y : number) : number := SFsub prec emax x y.
Definition mul (x y : number) : number := SFmul prec emax x y.
Definition div (x y : number) : number := SFdiv prec emax x y.

(** A decimal literal with numerator [n] and denominator [d], both exact
    integers: the binary64 value nearest to [n / d]. *)
Definition decimal (n : Z) (d : positive) : number :=
  div (of_Z n) (of_Z (Zpos d)).

(** [x < y], [x <= y], [x > y], [x >= y]; false as soon as one side is
    [NaN]. *)
Definition ltb (x y : number) : bool := SFltb x y.
Definition leb (x y : number) : bool := SFleb x y.
Definition gtb (x y : number) : bool := ltb y x.
Definition geb (x y : number) : bool := leb y x.

(** [ToBoolean]: falsy exactly for [+0], [-0] and [NaN]. *)
Definition truthy (x : number) : bool :=
  match x with
  | S754_zero _ | S754_nan => false
  | _ => true
  end.

(** [isFinite(x)]. *)
Definition isFinite (x : number) : bool :=
  match x with
  | S754_zero _ | S754_finite _ _ _ => true
  | _ => false
  end.

(** [Math.ceil(x)]: the least integer not below [x]; a value in [(-1, 0)]
    gives [-0]. *)
Definition ceil (x : number) : number :=
  match x with
  | S754_finite s m e =>
      if (0 <=? e)%Z then x
      else
        let q := (Zpos m / 2 ^ (- e))%Z in
        let r := (Zpos m mod 2 ^ (- e))%Z in
        if s then (if (q =? 0)%Z then S754_zero true else of_Z (- q))
        else of_Z (if (r =? 0)%Z then q else q + 1)
  | _ => x
  end.

(** [Math.round(x)]: the nearest integer, ties towards [+Infinity]; a value
    in [[-0.5, 0)] gives [-0]. *)
Definition round (x : number) : number :=
  match x with
  | S754_finite s m e =>
      if (0 <=? e)%Z then x
      else
        let half := (2 ^ (- e - 1))%Z in
        if s then
          let n := ((Zpos m + half - 1) / 2 ^ (- e))%Z in
          if (n =? 0)%Z then S754_zero true else of_Z (- n)
        else of_Z ((Zpos m + half) / 2 ^ (- e))
  | _ => x
  end.

(** A binary64 value proper: a zero, an infinity, [NaN], or a mantissa and
    exponent in canonical form. *)
Definition valid (x : number) : bool := valid_binary prec emax x.

End Float64.

Declare Scope f64_scope.
Delimit Scope f64_scope with f64.
Bind Scope f64_scope with Float64.number.
Infix "+" := Float64.add : f64_scope.
Infix "-" := Float64.sub : f64_scope.
Infix "*" := Float64.mul : f64_scope.
Infix "/" := Float64.div : f64_scope.
Infix ">?" := Float64.gtb (at level 70, no associativity) : f64_scope.
Infix "<=?" := Float64.leb (at level 70, no associativity) : f64_scope.
Infix ">=?" := Float64.geb (at level 70, no associativity) : f64_scope.
Infix "<?" := Float64.ltb (at level 70, no associativity) : f64_scope.

(** ** First edition over binary64 (src/components/calculator.tsx) *)

Module Calculator64.

Import Float64.

Definition TARGET_MARGINS : list number :=
  [of_Z 0; decimal 10 100; decimal 20 100; decimal 30 100; decimal 40 100;
   decimal 50 100].

Record CalcInputs : Type := {
  sellingPrice : number;
  cogs : number;
  taxPercent : number;
  adSpend : number;
  feesPercent : number;
  feesCents : number;
  otherCostsPercent : number;
  fixedFeesPerUnit : number;
  monthlyOverhead : number
}.

Module Scenario.
Record t : Type := {
  margin : number;
  price : number;
  profit : number;
  breakevenRoas : number;
  breakevenOrders : number
}.
End Scenario.

Module Result.
Record t : Type := {
  hasSellingPrice : bool;
  breakevenRoas : number;
  breakevenUnits : number;
  profitPerUnit : number;
  hasAdSpend : bool
}.
End Result.

Definition marginScenarios (inputs : CalcInputs) : list Scenario.t :=
  let sellingPrice := sellingPrice inputs in
  let adSpend := adSpend inputs in
  map (fun margin =>
         let targetProfit := (sellingPrice * margin)%f64 in
         let breakevenRoas :=
           if (targetProfit >? decimal 1 100)%f64
           then (sellingPrice / targetProfit)%f64 else infinity in
         let breakevenOrders :=
           if (targetProfit >? decimal 1 100)%f64
           then ceil (adSpend / targetProfit) else infinity in
         {| Scenario.margin := margin;
            Scenario.price := sellingPrice;
            Scenario.profit := (round (targetProfit * of_Z 100) / of_Z 100)%f64;
            Scenario.breakevenRoas :=
              if isFinite breakevenRoas
              then (round (breakevenRoas * of_Z 100) / of_Z 100)%f64
              else infinity;
            Scenario.breakevenOrders :=
              if isFinite breakevenOrders then breakevenOrders else infinity |})
      TARGET_MARGINS.

Definition results (inputs : CalcInputs) : Result.t :=
  let sellingPrice := sellingPrice inputs in
  let cogs := cogs inputs in
  let taxPercent := taxPercent inputs in
  let adSpend := adSpend inputs in
  let feesPercent := feesPercent inputs in
  let feesCents := feesCents inputs in
  let otherCostsPercent := otherCostsPercent inputs in
  let fixedFeesPerUnit := fixedFeesPerUnit inputs in
  let monthlyOverhead := monthlyOverhead inputs in
  if negb (truthy sellingPrice) || (sellingPrice <=? of_Z 0)%f64 then
    {| Result.hasSellingPrice := false;
       Result.breakevenRoas := of_Z 0;
       Result.breakevenUnits := of_Z 0;
       Result.profitPerUnit := of_Z 0;
       Result.hasAdSpend := false |}
  else
    let grossMargin := (sellingPrice - cogs - fixedFeesPerUnit)%f64 in
    let processingFees :=
      (sellingPrice * (feesPercent / of_Z 100) + feesCents / of_Z 100)%f64 in
    let taxCost := (sellingPrice * (taxPercent / of_Z 100))%f64 in
    let otherCosts := (sellingPrice * (otherCostsPercent / of_Z 100))%f64 in
    let profitPerUnit := (grossMargin - processingFees - taxCost - otherCosts)%f64 in
    let fixedCosts := (adSpend + monthlyOverhead)%f64 in
    let breakevenUnits :=
      if (profitPerUnit >? of_Z 0)%f64 && (fixedCosts >? of_Z 0)%f64
      then ceil (fixedCosts / profitPerUnit) else of_Z 0 in
    let breakevenRoas :=
      if (profitPerUnit >? of_Z 0)%f64
      then (sellingPrice / profitPerUnit)%f64 else of_Z 0 in
    {| Result.hasSellingPrice := true;
       Result.breakevenRoas := breakevenRoas;
       Result.breakevenUnits := breakevenUnits;
       Result.profitPerUnit := profitPerUnit;
       Result.hasAdSpend := (adSpend >? of_Z 0)%f64 |}.

End Calculator64.

(** ** Second edition over binary64 (src/components/calculator.tsx, with
    [refundPercent]) *)

Module CalculatorRefund64.

Import Float64.

Record CalcInputs : Type := {
  sellingPrice : number;
  cogs : number;
  taxPercent : number;
  refundPercent : number;
  adSpend : number;
  feesPercent : number;
  feesCents : number;
  otherCostsPercent : number;
  fixedFeesPerUnit : number;
  monthlyOverhead : number
}.

Module Result.
Record t : Type := {
  hasSellingPrice : bool;
  breakevenRoas : number;
  breakevenUnits : number;
  profitPerUnit : number;
  hasAdSpend : bool
}.
End Result.

Definition results (inputs : CalcInputs) : Result.t :=
  let sellingPrice := sellingPrice inputs in
  let cogs := cogs inputs in
  let taxPercent := taxPercent inputs in
  let refundPercent := refundPercent inputs in
  let adSpend := adSpend inputs in
  let feesPercent := feesPercent inputs in
  let feesCents := feesCents inputs in
  let otherCostsPercent := otherCostsPercent inputs in
  let fixedFeesPerUnit := fixedFeesPerUnit inputs in
  let monthlyOverhead := monthlyOverhead inputs in
  if negb (truthy sellingPrice) || (sellingPrice <=? of_Z 0)%f64 then
    {| Result.hasSellingPrice := false;
       Result.breakevenRoas := of_Z 0;
       Result.breakevenUnits := of_Z 0;
       Result.profitPerUnit := of_Z 0;
       Result.hasAdSpend := false |}
  else
    let grossMargin := (sellingPrice - cogs - fixedFeesPerUnit)%f64 in
    let processingFees :=
      (sellingPrice * (feesPercent / of_Z 100) + feesCents / of_Z 100)%f64 in
    let taxCost := (sellingPrice * (taxPercent / of_Z 100))%f64 in
    let refundCost := (sellingPrice * (refundPercent / of_Z 100))%f64 in
    let otherCosts := (sellingPrice * (otherCostsPercent / of_Z 100))%f64 in
    let profitPerUnit :=
      (grossMargin - processingFees - taxCost - refundCost - otherCosts)%f64 in
    let fixedCosts := (adSpend + monthlyOverhead)%f64 in
    let breakevenUnits :=
      if (profitPerUnit >? of_Z 0)%f64 && (fixedCosts >? of_Z 0)%f64
      then ceil (fixedCosts / profitPerUnit) else of_Z 0 in
    let breakevenRoas :=
      if (profitPerUnit >? of_Z 0)%f64
      then (sellingPrice / profitPerUnit)%f64 else of_Z 0 in
    {| Result.hasSellingPrice := true;
       Result.breakevenRoas := breakevenRoas;
       Result.breakevenUnits := breakevenUnits;
       Result.profitPerUnit := profitPerUnit;
       Result.hasAdSpend := (adSpend >? of_Z 0)%f64 |}.

End CalculatorRefund64.

(** ** Preset and bundle edition over binary64 (src/unnamed/part_002) *)

Module BundleCalculator64.

Import Float64.

Record CalcInputs : Type := {
  sellingPrice : number;
  cogs : number;
  adSpend : number;
  feesPercent : number;
  otherCostsPercent : number;
  fixedFeesPerUnit : number;
  monthlyOverhead : number;
  unitsSold : number
}.

Record BundleTier : Type := {
  quantity : number;
  price : number;
  cogsPerUnit : number
}.

Module BundleResults.
Record t : Type := {
  quantity : number;
  price : number;
  totalCogs : number;
  profitPerOrder : number;
  breakevenRoas : number;
  breakevenOrders : number
}.
End BundleResults.

Module Result.
Record t : Type := {
  isValid : bool;
  breakevenRoas : number;
  breakevenUnits : number;
  profitPerUnit : number
}.
End Result.

Definition bundleResults (bundleMode : bool) (bundleTiers : list BundleTier)
    (inputs : CalcInputs) : list BundleResults.t :=
  if negb bundleMode then []
  else
    let adSpend := adSpend inputs in
    let feesPercent := feesPercent inputs in
    let otherCostsPercent := otherCostsPercent inputs in
    map (fun tier =>
           let totalCogs := (cogsPerUnit tier * quantity tier)%f64 in
           let fees := (price tier * (feesPercent / of_Z 100))%f64 in
           let otherCosts := (price tier * (otherCostsPercent / of_Z 100))%f64 in
           let profitPerOrder := (price tier - totalCogs - fees - otherCosts)%f64 in
           let breakevenRoas :=
             if (profitPerOrder >? of_Z 0)%f64
             then (price tier / profitPerOrder)%f64 else of_Z 0 in
           let breakevenOrders :=
             if (profitPerOrder >? of_Z 0)%f64
             then ceil (adSpend / profitPerOrder) else of_Z 0 in
           {| BundleResults.quantity := quantity tier;
              BundleResults.price := price tier;
              BundleResults.totalCogs := totalCogs;
              BundleResults.profitPerOrder := profitPerOrder;
              BundleResults.breakevenRoas := breakevenRoas;
              BundleResults.breakevenOrders := breakevenOrders |})
        bundleTiers.

Definition results (inputs : CalcInputs) : Result.t :=
  let sellingPrice := sellingPrice inputs in
  let cogs := cogs inputs in
  let adSpend := adSpend inputs in
  let feesPercent := feesPercent inputs in
  let otherCostsPercent := otherCostsPercent inputs in
  let fixedFeesPerUnit := fixedFeesPerUnit inputs in
  let monthlyOverhead := monthlyOverhead inputs in
  if (sellingPrice <=? of_Z 0)%f64 || (cogs >=? sellingPrice)%f64 then
    {| Result.isValid := false;
       Result.breakevenRoas := of_Z 0;
       Result.breakevenUnits := of_Z 0;
       Result.profitPerUnit := of_Z 0 |}
  else
    let grossMargin := (sellingPrice - cogs - fixedFeesPerUnit)%f64 in
    let variableCosts :=
      (sellingPrice * ((feesPercent + otherCostsPercent) / of_Z 100))%f64 in
    let profitPerUnit := (grossMargin - variableCosts)%f64 in
    if (profitPerUnit <=? of_Z 0)%f64 then
      {| Result.isValid := false;
         Result.breakevenRoas := of_Z 0;
         Result.breakevenUnits := of_Z 0;
         Result.profitPerUnit := profitPerUnit |}
    else
      let fixedCosts := (adSpend + monthlyOverhead)%f64 in
      let breakevenUnits :=
        if (fixedCosts >? of_Z 0)%f64
        then ceil (fixedCosts / profitPerUnit) else of_Z 0 in
      let breakevenRoas :=
        if (adSpend >? of_Z 0)%f64 && (profitPerUnit >? of_Z 0)%f64
        then (sellingPrice / profitPerUnit)%f64 else of_Z 0 in
      {| Result.isValid := true;
         Result.breakevenRoas := breakevenRoas;
         Result.breakevenUnits := breakevenUnits;
         Result.profitPerUnit := profitPerUnit |}.

End BundleCalculator64.

(** ** Instrumented evaluation of the first edition

    The language never raises on a division; it yields an infinity or [NaN].
    To say that no division by zero is ever reached, the two closures are
    evaluated again with a division that fails on a zero divisor, every other
    step being the same. *)

Module Checked.

Import Float64.

Definition bind {A B : Type} (m : option A) (k : A -> option B) : option B :=
  match m with
  | Some a => k a
  | None => None
  end.

Notation "x <- m ;; k" := (bind m (fun x => k))
  (at level 61, m at next level, right associativity).

(** Division that fails when the divisor is a zero of either sign. *)
Definition div_checked (x y : number) : option number :=
  match y with
  | S754_zero _ => None
  | _ => Some (x / y)%f64
  end.

Fixpoint mapM {A B : Type} (f : A -> option B) (l : list A) : option (list B) :=
  match l with
  | [] => Some []
  | a :: l' => b <- f a ;; bs <- mapM f l' ;; Some (b :: bs)
  end.

Import Calculator64.

Definition marginScenarios_checked (inputs : CalcInputs) : option (list Scenario.t) :=
  let sellingPrice := sellingPrice inputs in
  let adSpend := adSpend inputs in
  mapM (fun margin =>
          let targetProfit := (sellingPrice * margin)%f64 in
          breakevenRoas <-
            (if (targetProfit >? decimal 1 100)%f64
             then div_checked sellingPrice targetProfit else Some infinity) ;;
          breakevenOrders <-
            (if (targetProfit >? decimal 1 100)%f64
             then (d <- div_checked adSpend targetProfit ;; Some (ceil d))
             else Some infinity) ;;
          profit <- div_checked (round (targetProfit * of_Z 100)) (of_Z 100) ;;
          roundedRoas <-
            (if isFinite breakevenRoas
             then div_checked (round (breakevenRoas * of_Z 100)) (of_Z 100)
             else Some infinity) ;;
          Some {| Scenario.margin := margin;
                  Scenario.price := sellingPrice;
                  Scenario.profit := profit;
                  Scenario.breakevenRoas := roundedRoas;
                  Scenario.breakevenOrders :=
                    if isFinite breakevenOrders then breakevenOrders
                    else infinity |})
       TARGET_MARGINS.

Definition results_checked (inputs : CalcInputs) : option Result.t :=
  let sellingPrice := sellingPrice inputs in
  let cogs := cogs inputs in
  let taxPercent := taxPercent inputs in
  let adSpend := adSpend inputs in
  let feesPercent := feesPercent inputs in
  let feesCents := feesCents inputs in
  let otherCostsPercent := otherCostsPercent inputs in
  let fixedFeesPerUnit := fixedFeesPerUnit inputs in
  let monthlyOverhead := monthlyOverhead inputs in
  if negb (truthy sellingPrice) || (sellingPrice <=? of_Z 0)%f64 then
    Some {| Result.hasSellingPrice := false;
            Result.breakevenRoas := of_Z 0;
            Result.breakevenUnits := of_Z 0;
            Result.profitPerUnit := of_Z 0;
            Result.hasAdSpend := false |}
  else
    let grossMargin := (sellingPrice - cogs - fixedFeesPerUnit)%f64 in
    feesRate <- div_checked feesPercent (of_Z 100) ;;
    feesFlat <- div_checked feesCents (of_Z 100) ;;
    let processingFees := (sellingPrice * feesRate + feesFlat)%f64 in
    taxRate <- div_checked taxPercent (of_Z 100) ;;
    let taxCost := (sellingPrice * taxRate)%f64 in
    otherRate <- div_checked otherCostsPercent (of_Z 100) ;;
    let otherCosts := (sellingPrice * otherRate)%f64 in
    let profitPerUnit := (grossMargin - processingFees - taxCost - otherCosts)%f64 in
    let fixedCosts := (adSpend + monthlyOverhead)%f64 in
    breakevenUnits <-
      (if (profitPerUnit >? of_Z 0)%f64 && (fixedCosts >? of_Z 0)%f64
       then (d <- div_checked fixedCosts profitPerUnit ;; Some (ceil d))
       else Some (of_Z 0)) ;;
    breakevenRoas <-
      (if (profitPerUnit >? of_Z 0)%f64
       then div_checked sellingPrice profitPerUnit else Some (of_Z 0)) ;;
    Some {| Result.hasSellingPrice := true;
            Result.breakevenRoas := breakevenRoas;
            Result.breakevenUnits := breakevenUnits;
            Result.profitPerUnit := profitPerUnit;
            Result.hasAdSpend := (adSpend >? of_Z 0)%f64 |}.

End Checked.

(** ** Vocabulary and sample configurations over binary64 *)

(** [x === y] on numbers: [NaN] differs from itself, the two zeros are
    equal. *)
Definition strict_eqb64 (x y : Float64.number) : bool := SFeqb x y.

(** The configuration the component starts from (price 50, unit cost 10,
    fees of 2.9% and 30 cents), and the same with an advertising budget. *)
Definition default_inputs64 : Calculator64.CalcInputs :=
  {| Calculator64.sellingPrice := Float64.of_Z 50;
     Calculator64.cogs := Float64.of_Z 10;
     Calculator64.taxPercent := Float64.of_Z 0;
     Calculator64.adSpend := Float64.of_Z 0;
     Calculator64.feesPercent := Float64.decimal 29 10;
     Calculator64.feesCents := Float64.of_Z 30;
     Calculator64.otherCostsPercent := Float64.of_Z 0;
     Calculator64.fixedFeesPerUnit := Float64.of_Z 0;
     Calculator64.monthlyOverhead := Float64.of_Z 0 |}.

Definition with_adSpend64 (c : Calculator64.CalcInputs) (value : Float64.number)
    : Calculator64.CalcInputs :=
  {| Calculator64.sellingPrice := Calculator64.sellingPrice c;
     Calculator64.cogs := Calculator64.cogs c;
     Calculator64.taxPercent := Calculator64.taxPercent c;
     Calculator64.adSpend := value;
     Calculator64.feesPercent := Calculator64.feesPercent c;
     Calculator64.feesCents := Calculator64.feesCents c;
     Calculator64.otherCostsPercent := Calculator64.otherCostsPercent c;
     Calculator64.fixedFeesPerUnit := Calculator64.fixedFeesPerUnit c;
     Calculator64.monthlyOverhead := Calculator64.monthlyOverhead c |}.

Definition with_cogs64 (c : Calculator64.CalcInputs) (value : Float64.number)
    : Calculator64.CalcInputs :=
  {| Calculator64.sellingPrice := Calculator64.sellingPrice c;
     Calculator64.cogs := value;
     Calculator64.taxPercent := Calculator64.taxPercent c;
     Calculator64.adSpend := Calculator64.adSpend c;
     Calculator64.feesPercent := Calculator64.feesPercent c;
     Calculator64.feesCents := Calculator64.feesCents c;
     Calculator64.otherCostsPercent := Calculator64.otherCostsPercent c;
     Calculator64.fixedFeesPerUnit := Calculator64.fixedFeesPerUnit c;
     Calculator64.monthlyOverhead := Calculator64.monthlyOverhead c |}.

Definition with_sellingPrice64 (c : Calculator64.CalcInputs)
    (value : Float64.number) : Calculator64.CalcInputs :=
  {| Calculator64.sellingPrice := value;
     Calculator64.cogs := Calculator64.cogs c;
     Calculator64.taxPercent := Calculator64.taxPercent c;
     Calculator64.adSpend := Calculator64.adSpend c;
     Calculator64.feesPercent := Calculator64.feesPercent c;
     Calculator64.feesCents := Calculator64.feesCents c;
     Calculator64.otherCostsPercent := Calculator64.otherCostsPercent c;
     Calculator64.fixedFeesPerUnit := Calculator64.fixedFeesPerUnit c;
     Calculator64.monthlyOverhead := Calculator64.monthlyOverhead c |}.

Definition default_inputs_ads64 : Calculator64.CalcInputs :=
  with_adSpend64 default_inputs64 (Float64.of_Z 100).

Definition scenario_inputs64 : Calculator64.CalcInputs :=
  with_adSpend64 default_inputs64 (Float64.of_Z 50).

Definition free_inputs64 : Calculator64.CalcInputs :=
  with_sellingPrice64 default_inputs64 (Float64.of_Z 0).

(** A price of 30 against a unit cost of 28.83: in exact arithmetic the
    profit per unit would be zero. *)
Definition thin_inputs64 : Calculator64.CalcInputs :=
  with_cogs64 (with_sellingPrice64 default_inputs64 (Float64.of_Z 30))
    (Float64.decimal 2883 100).

(** A price of ten cents, with an advertising budget of 1. *)
Definition dime_inputs64 : Calculator64.CalcInputs :=
  with_adSpend64 (with_sellingPrice64 default_inputs64 (Float64.decimal 1 10))
    (Float64.of_Z 1).

(** The number that follows 10: [10 + 2^-49], printed
    [10.000000000000002]. *)
Definition after_ten : Float64.number := S754_finite false 5629499534213121 (-49).

Definition costlier_inputs64 : Calculator64.CalcInputs :=
  with_cogs64 default_inputs64 after_ten.

Definition default_inputs_refund64 : CalculatorRefund64.CalcInputs :=
  {| CalculatorRefund64.sellingPrice := Float64.of_Z 50;
     CalculatorRefund64.cogs := Float64.of_Z 10;
     CalculatorRefund64.taxPercent := Float64.of_Z 8;
     CalculatorRefund64.refundPercent := Float64.of_Z 2;
     CalculatorRefund64.adSpend := Float64.of_Z 0;
     CalculatorRefund64.feesPercent := Float64.decimal 29 10;
     CalculatorRefund64.feesCents := Float64.of_Z 30;
     CalculatorRefund64.otherCostsPercent := Float64.of_Z 0;
     CalculatorRefund64.fixedFeesPerUnit := Float64.of_Z 0;
     CalculatorRefund64.monthlyOverhead := Float64.of_Z 0 |}.

(** The state the bundle edition starts from. *)
Definition bundle_default_inputs64 : BundleCalculator64.CalcInputs :=
  {| BundleCalculator64.sellingPrice := Float64.decimal 4999 100;
     BundleCalculator64.cogs := Float64.of_Z 18;
     BundleCalculator64.adSpend := Float64.of_Z 50;
     BundleCalculator64.feesPercent := Float64.of_Z 3;
     BundleCalculator64.otherCostsPercent := Float64.of_Z 0;
     BundleCalculator64.fixedFeesPerUnit := Float64.of_Z 0;
     BundleCalculator64.monthlyOverhead := Float64.of_Z 0;
     BundleCalculator64.unitsSold := Float64.of_Z 0 |}.

Definition bundle_default_tiers64 : list BundleCalculator64.BundleTier :=
  [ {| BundleCalculator64.quantity := Float64.of_Z 1;
       BundleCalculator64.price := Float64.of_Z 40;
       BundleCalculator64.cogsPerUnit := Float64.of_Z 18 |};
    {| BundleCalculator64.quantity := Float64.of_Z 2;
       BundleCalculator64.price := Float64.of_Z 70;
       BundleCalculator64.cogsPerUnit := Float64.of_Z 18 |} ].

Definition bundle_no_ads64 : BundleCalculator64.CalcInputs :=
  {| BundleCalculator64.sellingPrice := Float64.decimal 4999 100;
     BundleCalculator64.cogs := Float64.of_Z 18;
     BundleCalculator64.adSpend := Float64.of_Z 0;
     BundleCalculator64.feesPercent := Float64.of_Z 3;
     BundleCalculator64.otherCostsPercent := Float64.of_Z 0;
     BundleCalculator64.fixedFeesPerUnit := Float64.of_Z 0;
     BundleCalculator64.monthlyOverhead := Float64.of_Z 0;
     BundleCalculator64.unitsSold := Float64.of_Z 0 |}.

(** A selling price of 10, a unit cost of 9 and fees of 20%: the unit sells at
    a loss of 1. *)
Definition loss_inputs64 : BundleCalculator64.CalcInputs :=
  {| BundleCalculator64.sellingPrice := Float64.of_Z 10;
     BundleCalculator64.cogs := Float64.of_Z 9;
     BundleCalculator64.adSpend := Float64.of_Z 0;
     BundleCalculator64.feesPercent := Float64.of_Z 20;
     BundleCalculator64.otherCostsPercent := Float64.of_Z 0;
     BundleCalculator64.fixedFeesPerUnit := Float64.of_Z 0;
     BundleCalculator64.monthlyOverhead := Float64.of_Z 0;
     BundleCalculator64.unitsSold := Float64.of_Z 0 |}.

(** A price near the top of the range, [1e308], with fees of 1000%. *)
Definition huge_inputs64 : Calculator64.CalcInputs :=
  {| Calculator64.sellingPrice := Float64.of_Z (10 ^ 308);
     Calculator64.cogs := Float64.of_Z 10;
     Calculator64.taxPercent := Float64.of_Z 0;
     Calculator64.adSpend := Float64.of_Z 0;
     Calculator64.feesPercent := Float64.of_Z 1000;
     Calculator64.feesCents := Float64.of_Z 30;
     Calculator64.otherCostsPercent := Float64.of_Z 0;
     Calculator64.fixedFeesPerUnit := Float64.of_Z 0;
     Calculator64.monthlyOverhead := Float64.of_Z 0 |}.

(** Outside the data model: a price of three cents with an advertising
    budget of [-1e308]. *)
Definition negative_budget64 : Calculator64.CalcInputs :=
  with_adSpend64
    (with_sellingPrice64 default_inputs64 (Float64.decimal 3 100))
    (Float64.of_Z (- 10 ^ 308)).

(** The price [addBundleTier] gives the added offer,
    [Math.round(lastTier.price * 1.4)], in binary64. *)
Definition addedTierPrice64 (lastPrice : Float64.number) : Float64.number :=
  Float64.round (lastPrice * Float64.decimal 14 10)%f64.


(** ** Rounding, described arithmetically

    Vocabulary for reasoning about the order of binary64 results.  A finite
    binary64 value is a whole number of units of [2^-1074].  [NORM z] is the
    binary64 value nearest to [z] such units, ties going to the even
    mantissa and values beyond the largest finite one to an infinity; the
    facts below show that it is what the operations of [Float64] compute. *)

Section RoundingVocabulary.

Local Open Scope Z_scope.

(** [n / 2^k] rounded to the nearest integer, ties to even. *)
Definition RNE (n k : Z) : Z :=
  let q := n / 2 ^ k in
  let r := n mod 2 ^ k in
  if 2 * r <? 2 ^ k then q
  else if 2 * r =? 2 ^ k then (if Z.even q then q else q + 1)
  else q + 1.

(** The round and sticky bits left by shifting [k] bits out of a mantissa,
    [rem] being the part shifted out. *)
Definition loc_bits (k rem : Z) : bool * bool :=
  if rem =? 0 then (false, false)
  else match 2 * rem ?= 2 ^ k with
       | Lt => (false, true)
       | Eq => (true, false)
       | Gt => (true, true)
       end.

(** The number of bits a value of [n] units loses to fit 53 bits. *)
Definition rnd_shift (n : Z) : Z := Z.max (Zdigits2 n - 53) 0.

(** Whether rounding carries into a 54th bit. *)
Definition rnd_carry (n : Z) : bool := RNE n (rnd_shift n) =? 2 ^ 53.

(** Exponent and mantissa of the rounded value. *)
Definition rnd_exp (n : Z) : Z :=
  -1074 + rnd_shift n + (if rnd_carry n then 1 else 0).

Definition rnd_man (n : Z) : Z :=
  if rnd_carry n then 2 ^ 52 else RNE n (rnd_shift n).

(** The binary64 value of sign [s] nearest to [n] units, [n] positive. *)
Definition ROUND (s : bool) (n : Z) : spec_float :=
  match rnd_man n with
  | Zpos m =>
      if rnd_exp n <=? 971 then S754_finite s m (rnd_exp n)
      else S754_infinity s
  | _ => S754_nan
  end.

(** The binary64 value nearest to [z] units. *)
Definition NORM (z : Z) : spec_float :=
  match z with
  | Z0 => S754_zero false
  | Zpos p => ROUND false (Zpos p)
  | Zneg p => ROUND true (Zpos p)
  end.

(** The value of a finite number, counted in units of [2^-1074]. *)
Definition exact_value (x : spec_float) : Z :=
  match x with
  | S754_finite s m e => cond_Zopp s (Zpos m * 2 ^ (e + 1074))
  | _ => 0
  end.

(** A zero or a finite number. *)
Definition finite_or_zero (x : spec_float) : bool :=
  match x with
  | S754_zero _ | S754_finite _ _ _ => true
  | _ => false
  end.

(** A zero, a positive finite number or [+Infinity]. *)
Definition nonneg (x : spec_float) : bool :=
  match x with
  | S754_zero _ | S754_finite false _ _ | S754_infinity false => true
  | _ => false
  end.

(** Two numbers that are the same up to the sign of a zero. *)
Definition same_number (x y : spec_float) : Prop :=
  x = y \/ (exists s s', x = S754_zero s /\ y = S754_zero s').

End RoundingVocabulary.

(** The fields of a configuration of the first edition. *)
Definition fields64 (c : Calculator64.CalcInputs) : list Float64.number :=
  [Calculator64.sellingPrice c; Calculator64.cogs c;
   Calculator64.taxPercent c; Calculator64.adSpend c;
   Calculator64.feesPercent c; Calculator64.feesCents c;
   Calculator64.otherCostsPercent c; Calculator64.fixedFeesPerUnit c;
   Calculator64.monthlyOverhead c].

(** Every field is a binary64 value proper. *)
Definition proper_inputs64 (c : Calculator64.CalcInputs) : bool :=
  forallb Float64.valid (fields64 c).

(** Every field is finite and not negative, as the data model has it. *)
Definition nonnegative_inputs64 (c : Calculator64.CalcInputs) : bool :=
  forallb (fun x => Float64.isFinite x && (x >=? Float64.of_Z 0)%f64)
          (fields64 c).
(** * The engine in exact arithmetic: guards, state and order *)

(** ** Facts about numbers *)

Lemma Qltb_lt (a b : Q) : Qltb a b = true <-> a < b.
Proof.
  unfold Qltb. rewrite negb_true_iff. split.
  - intros H. apply Qnot_le_lt. intros Hle.
    apply Qle_bool_iff in Hle. congruence.
  - intros H. destruct (Qle_bool b a) eqn:E; [|reflexivity].
    apply Qle_bool_iff in E. apply Qlt_not_le in H. contradiction.
Qed.

Lemma Qltb_ge (a b : Q) : Qltb a b = false <-> b <= a.
Proof.
  unfold Qltb. rewrite negb_false_iff. apply Qle_bool_iff.
Qed.

Lemma Qeq_bool_false_iff (a b : Q) : Qeq_bool a b = false <-> ~ a == b.
Proof.
  split.
  - apply Qeq_bool_neq.
  - intros H. destruct (Qeq_bool a b) eqn:E; [|reflexivity].
    apply Qeq_bool_iff in E. contradiction.
Qed.

(** The guard [!x || x <= 0] of [results] is exactly the negation of [x > 0]. *)
Lemma price_guard_gtb (x : number) :
  negb (truthy x) || (x <=? Num 0)%num = negb (x >? Num 0)%num.
Proof.
  destruct x as [a| | |]; simpl; try reflexivity.
  unfold Qltb. rewrite negb_involutive.
  destruct (Qle_bool a 0) eqn:E; [apply orb_true_r|].
  rewrite orb_false_r, negb_involutive.
  apply Qeq_bool_false_iff. intros H.
  assert (a <= 0) as Hle by (rewrite H; apply Qle_refl).
  apply Qle_bool_iff in Hle. congruence.
Qed.

Lemma leb_gtb_false (x y : number) :
  (x <=? y)%num = true -> (x >? y)%num = false.
Proof.
  destruct x as [a| | |], y as [b| | |]; simpl; try reflexivity; try discriminate.
  intros H. unfold Qltb. now rewrite H.
Qed.

(** ** Unit economics: [results] *)

(** C3. When [sellingPrice <= 0] the result is the invalid sentinel:
    [hasSellingPrice] is false and every numeric output is zero.  Both
    editions of src/components/calculator.tsx. *)
Theorem nonpositive_price_sentinel :
  (forall c : Calculator.CalcInputs,
      (Calculator.sellingPrice c <=? Num 0)%num = true ->
      Calculator.results c
      = {| Calculator.Result.hasSellingPrice := false;
           Calculator.Result.breakevenRoas := Num 0;
           Calculator.Result.breakevenUnits := Num 0;
           Calculator.Result.profitPerUnit := Num 0;
           Calculator.Result.hasAdSpend := false |})
  /\
  (forall c : CalculatorRefund.CalcInputs,
      (CalculatorRefund.sellingPrice c <=? Num 0)%num = true ->
      CalculatorRefund.results c
      = {| CalculatorRefund.Result.hasSellingPrice := false;
           CalculatorRefund.Result.breakevenRoas := Num 0;
           CalculatorRefund.Result.breakevenUnits := Num 0;
           CalculatorRefund.Result.profitPerUnit := Num 0;
           CalculatorRefund.Result.hasAdSpend := false |}).
Proof.
  split; intros c H.
  - unfold Calculator.results.
    rewrite price_guard_gtb, (leb_gtb_false _ _ H). reflexivity.
  - unfold CalculatorRefund.results.
    rewrite price_guard_gtb, (leb_gtb_false _ _ H). reflexivity.
Qed.

Lemma nonpositive_price_sentinel_witness :
  ((Calculator.sellingPrice free_inputs <=? Num 0)%num = true
   /\ Calculator.Result.hasSellingPrice (Calculator.results free_inputs) = false)
  /\
  ((CalculatorRefund.sellingPrice negative_price_refund <=? Num 0)%num = true
   /\ CalculatorRefund.Result.profitPerUnit
        (CalculatorRefund.results negative_price_refund) = Num 0).
Proof.
  split; split.
  - reflexivity.
  - rewrite (proj1 nonpositive_price_sentinel free_inputs); reflexivity.
  - reflexivity.
  - rewrite (proj2 nonpositive_price_sentinel negative_price_refund); reflexivity.
Defined.

(** ** Margin scenarios: [marginScenarios] *)

Lemma div_Num_pos (a b : Q) : 0 < b -> (Num a / Num b)%num = Num (a / b).
Proof.
  intros Hb. cbn [div].
  destruct (Qeq_bool b 0) eqn:E; [|reflexivity].
  apply Qeq_bool_iff in E. rewrite E in Hb. now apply Qlt_irrefl in Hb.
Qed.

Lemma TARGET_MARGINS_finite (m : number) :
  In m Calculator.TARGET_MARGINS -> exists q, m = Num q.
Proof.
  unfold Calculator.TARGET_MARGINS. cbn [In].
  intros H. repeat (destruct H as [<- | H]; [eexists; reflexivity|]).
  contradiction.
Qed.

(** C5. The scenario table has exactly six entries, one per target margin of
    [0, 0.10, 0.20, 0.30, 0.40, 0.50] and in that order, which is strictly
    ascending (so no margin occurs twice). *)
Theorem marginScenarios_length_order (c : Calculator.CalcInputs) :
  length (Calculator.marginScenarios c) = 6%nat
  /\ map Calculator.Scenario.margin (Calculator.marginScenarios c)
     = [Num 0; Num 0.10; Num 0.20; Num 0.30; Num 0.40; Num 0.50]
  /\ map Calculator.Scenario.margin (Calculator.marginScenarios c)
     = Calculator.TARGET_MARGINS
  /\ StronglySorted (fun x y => (x <? y)%num = true)
       (map Calculator.Scenario.margin (Calculator.marginScenarios c))
  /\ NoDup (map Calculator.Scenario.margin (Calculator.marginScenarios c)).
Proof.
  assert (map Calculator.Scenario.margin (Calculator.marginScenarios c)
          = Calculator.TARGET_MARGINS) as Hm.
  { unfold Calculator.marginScenarios. rewrite map_map. cbv zeta.
    cbn [Calculator.Scenario.margin]. apply map_id. }
  split; [|rewrite Hm; split; [reflexivity|split; [reflexivity|split]]].
  - unfold Calculator.marginScenarios. now rewrite length_map.
  - unfold Calculator.TARGET_MARGINS.
    repeat (apply SSorted_cons; [|repeat (apply Forall_cons; [reflexivity|]);
                                  apply Forall_nil]).
    apply SSorted_nil.
  - unfold Calculator.TARGET_MARGINS.
    repeat (apply NoDup_cons;
            [cbn [In]; intros H;
             repeat (destruct H as [H|H]; [discriminate H|]); exact H|]).
    apply NoDup_nil.
Qed.

(** ** Finite numbers *)

Lemma div_Num_100 (a : Q) : (Num a / Num 100)%num = Num (a / 100).
Proof. apply div_Num_pos. reflexivity. Qed.

Lemma finite_inv (x : number) : isFinite x = true -> exists a, x = Num a.
Proof. destruct x; try discriminate. intros _. eexists. reflexivity. Qed.

(** ** Fee plans: [handlePlanChange] and [updateInput] *)

Lemma get_with_key_same (c : Calculator.CalcInputs) (key : Calculator.Key)
    (value : number) :
  Calculator.get_key (Calculator.with_key c key value) key = value.
Proof. destruct key; reflexivity. Qed.

Lemma get_with_key_other (c : Calculator.CalcInputs) (key k : Calculator.Key)
    (value : number) :
  k <> key ->
  Calculator.get_key (Calculator.with_key c key value) k = Calculator.get_key c k.
Proof.
  intros H. destruct key, k; try reflexivity; now elim H.
Qed.

(** C9. Choosing a named plan copies that plan's percent and cents from
    [SHOPIFY_FEES] into [feesPercent] and [feesCents] and leaves every other
    field alone; editing [feesPercent] or [feesCents] through [updateInput]
    switches the plan to [custom] and changes that field only. *)
Theorem fee_plan_resolver (st : Calculator.State) :
  (forall plan, plan <> Calculator.custom ->
     let st' := Calculator.handlePlanChange plan st in
     Calculator.shopifyPlan st' = plan
     /\ Calculator.feesPercent (Calculator.inputs st')
        = Calculator.percent (Calculator.SHOPIFY_FEES plan)
     /\ Calculator.feesCents (Calculator.inputs st')
        = Calculator.cents (Calculator.SHOPIFY_FEES plan)
     /\ forall k, k <> Calculator.Key_feesPercent ->
                  k <> Calculator.Key_feesCents ->
                  Calculator.get_key (Calculator.inputs st') k
                  = Calculator.get_key (Calculator.inputs st) k)
  /\
  (forall key value,
     key = Calculator.Key_feesPercent \/ key = Calculator.Key_feesCents ->
     let st' := Calculator.updateInput key value st in
     Calculator.shopifyPlan st' = Calculator.custom
     /\ Calculator.get_key (Calculator.inputs st') key = value
     /\ forall k, k <> key ->
                  Calculator.get_key (Calculator.inputs st') k
                  = Calculator.get_key (Calculator.inputs st) k)
  /\
  (Calculator.SHOPIFY_FEES Calculator.basic
   = {| Calculator.percent := Num 2.9; Calculator.cents := Num 30 |}
   /\ Calculator.SHOPIFY_FEES Calculator.shopify
      = {| Calculator.percent := Num 2.6; Calculator.cents := Num 30 |}
   /\ Calculator.SHOPIFY_FEES Calculator.advanced
      = {| Calculator.percent := Num 2.4; Calculator.cents := Num 30 |}).
Proof.
  split; [|split].
  - intros plan Hplan st'. subst st'.
    destruct plan; try (now elim Hplan);
      (split; [reflexivity|]; split; [reflexivity|]; split; [reflexivity|];
       intros k H1 H2; unfold Calculator.handlePlanChange;
       cbn [Calculator.inputs];
       rewrite !get_with_key_other by assumption; reflexivity).
  - intros key value Hkey st'. subst st'.
    unfold Calculator.updateInput. cbn [Calculator.inputs Calculator.shopifyPlan].
    split; [destruct Hkey as [-> | ->]; reflexivity|].
    split; [apply get_with_key_same|].
    intros k Hk. now apply get_with_key_other.
  - repeat split.
Qed.

Lemma fee_plan_resolver_witness :
  (Calculator.advanced <> Calculator.custom
   /\ Calculator.feesPercent
        (Calculator.inputs
           (Calculator.handlePlanChange Calculator.advanced initial_state))
      = Num 2.4)
  /\ Calculator.shopifyPlan
       (Calculator.updateInput Calculator.Key_feesCents (Num 25) initial_state)
     = Calculator.custom.
Proof.
  destruct (fee_plan_resolver initial_state) as (Hplan & Hedit & _).
  split; [split; [discriminate|]|].
  - apply (Hplan Calculator.advanced). discriminate.
  - apply (Hedit Calculator.Key_feesCents (Num 25)). now right.
Defined.

(** Editing any other field keeps the plan, and choosing [custom] keeps the
    fees. *)
Lemma updateInput_keeps_plan (st : Calculator.State) (key : Calculator.Key)
    (value : number) :
  key <> Calculator.Key_feesPercent -> key <> Calculator.Key_feesCents ->
  Calculator.shopifyPlan (Calculator.updateInput key value st)
  = Calculator.shopifyPlan st.
Proof.
  intros H1 H2. destruct key; try reflexivity; [now elim H1 | now elim H2].
Qed.

Lemma handlePlanChange_custom (st : Calculator.State) :
  Calculator.handlePlanChange Calculator.custom st
  = {| Calculator.inputs := Calculator.inputs st;
       Calculator.shopifyPlan := Calculator.custom |}.
Proof. reflexivity. Qed.

(** ** Finite inputs give finite outputs *)

Lemma finite_inputs_inv (c : Calculator.CalcInputs) :
  finite_inputs c ->
  exists sp cg tx ad fp fc oc ff mo,
    c = Calculator.Build_CalcInputs (Num sp) (Num cg) (Num tx) (Num ad)
          (Num fp) (Num fc) (Num oc) (Num ff) (Num mo).
Proof.
  intros F.
  destruct (finite_inv _ (F Calculator.Key_sellingPrice)) as [sp Hsp].
  destruct (finite_inv _ (F Calculator.Key_cogs)) as [cg Hcg].
  destruct (finite_inv _ (F Calculator.Key_taxPercent)) as [tx Htx].
  destruct (finite_inv _ (F Calculator.Key_adSpend)) as [ad Had].
  destruct (finite_inv _ (F Calculator.Key_feesPercent)) as [fp Hfp].
  destruct (finite_inv _ (F Calculator.Key_feesCents)) as [fc Hfc].
  destruct (finite_inv _ (F Calculator.Key_otherCostsPercent)) as [oc Hoc].
  destruct (finite_inv _ (F Calculator.Key_fixedFeesPerUnit)) as [ff Hff].
  destruct (finite_inv _ (F Calculator.Key_monthlyOverhead)) as [mo Hmo].
  exists sp, cg, tx, ad, fp, fc, oc, ff, mo.
  destruct c. cbn [Calculator.get_key Calculator.sellingPrice
    Calculator.cogs Calculator.taxPercent Calculator.adSpend
    Calculator.feesPercent Calculator.feesCents Calculator.otherCostsPercent
    Calculator.fixedFeesPerUnit Calculator.monthlyOverhead] in *.
  now subst.
Qed.

(** On a finite configuration a scenario figure is finite or the
    [+Infinity] sentinel, never [NaN]. *)
Lemma marginScenarios_no_NaN (c : Calculator.CalcInputs) (s : Calculator.Scenario.t) :
  isFinite (Calculator.sellingPrice c) = true ->
  isFinite (Calculator.adSpend c) = true ->
  In s (Calculator.marginScenarios c) ->
  isFinite (Calculator.Scenario.profit s) = true
  /\ (isFinite (Calculator.Scenario.breakevenRoas s) = true
      \/ Calculator.Scenario.breakevenRoas s = PInf)
  /\ (isFinite (Calculator.Scenario.breakevenOrders s) = true
      \/ Calculator.Scenario.breakevenOrders s = PInf).
Proof.
  intros Hsp Had Hs.
  assert (exists m, In m Calculator.TARGET_MARGINS
                    /\ Calculator.Scenario.margin s = m) as (m & Hm & Hsm).
  { unfold Calculator.marginScenarios in Hs. apply in_map_iff in Hs.
    destruct Hs as (m & <- & Hm). exists m. split; [exact Hm|reflexivity]. }
  unfold Calculator.marginScenarios in Hs. apply in_map_iff in Hs.
  destruct Hs as (m' & <- & _). cbv zeta.
  cbn [Calculator.Scenario.profit Calculator.Scenario.breakevenRoas
       Calculator.Scenario.breakevenOrders Calculator.Scenario.margin] in *.
  subst m'.
  destruct (TARGET_MARGINS_finite m Hm) as [q ->].
  destruct (Calculator.sellingPrice c) as [a| | |]; try discriminate.
  destruct (Calculator.adSpend c) as [b| | |]; try discriminate.
  change (Num a * Num q)%num with (Num (a * q)).
  split.
  { cbn [mul round]. rewrite div_Num_100. reflexivity. }
  destruct (Num (a * q) >? Num 0.01)%num eqn:E.
  - assert (0 < a * q) as Hpos.
    { cbn [gtb ltb] in E. apply Qltb_lt in E.
      eapply Qlt_trans; [|exact E]. reflexivity. }
    rewrite !div_Num_pos by exact Hpos. cbn [isFinite ceil mul round].
    rewrite div_Num_100. split; left; reflexivity.
  - cbn [isFinite]. split; right; reflexivity.
Qed.

(** ** More facts about numbers *)

Lemma Qltb_compat (a a' b b' : Q) :
  a == a' -> b == b' -> Qltb a b = Qltb a' b'.
Proof. intros Ha Hb. unfold Qltb. now rewrite Ha, Hb. Qed.

(** A quotient by a positive number, moved across an order. *)
Lemma Qdiv_le_iff (a b c : Q) : 0 < b -> (a / b <= c <-> a <= c * b).
Proof.
  intros Hb. split; intros H.
  - assert (a == a / b * b) as -> by (field; intros E; rewrite E in Hb;
                                      now apply Qlt_irrefl in Hb).
    apply Qmult_le_compat_r; [exact H|now apply Qlt_le_weak].
  - now apply Qle_shift_div_r.
Qed.

Lemma Qle_div_iff (a b c : Q) : 0 < b -> (c <= a / b <-> c * b <= a).
Proof.
  intros Hb. split; intros H.
  - assert (a == a / b * b) as -> by (field; intros E; rewrite E in Hb;
                                      now apply Qlt_irrefl in Hb).
    apply Qmult_le_compat_r; [exact H|now apply Qlt_le_weak].
  - now apply Qle_shift_div_l.
Qed.

(** The first edition's [results] on finite inputs with a positive price,
    field by field. *)
Lemma results_finite_pos (sp cg tx ad fp fc oc ff mo : Q) :
  0 < sp ->
  let p := sp - cg - ff - (sp * (fp / 100) + fc / 100) - sp * (tx / 100)
           - sp * (oc / 100) in
  Calculator.results
    (Calculator.Build_CalcInputs (Num sp) (Num cg) (Num tx) (Num ad)
       (Num fp) (Num fc) (Num oc) (Num ff) (Num mo))
  = {| Calculator.Result.hasSellingPrice := true;
       Calculator.Result.breakevenRoas :=
         if Qltb 0 p then Num (sp / p) else Num 0;
       Calculator.Result.breakevenUnits :=
         if Qltb 0 p && Qltb 0 (ad + mo)
         then Num (inject_Z (Qceiling ((ad + mo) / p))) else Num 0;
       Calculator.Result.profitPerUnit := Num p;
       Calculator.Result.hasAdSpend := Qltb 0 ad |}.
Proof.
  intros Hsp p. unfold Calculator.results.
  cbn [Calculator.sellingPrice Calculator.cogs Calculator.taxPercent
       Calculator.adSpend Calculator.feesPercent Calculator.feesCents
       Calculator.otherCostsPercent Calculator.fixedFeesPerUnit
       Calculator.monthlyOverhead].
  rewrite price_guard_gtb.
  assert ((Num sp >? Num 0)%num = true) as -> by now apply Qltb_lt.
  cbn [negb]. cbv zeta. rewrite !div_Num_100. cbn [mul add sub neg].
  fold (Qminus sp cg). fold (Qminus (sp - cg) ff).
  fold (Qminus (sp - cg - ff) (sp * (fp / 100) + fc / 100)).
  fold (Qminus (sp - cg - ff - (sp * (fp / 100) + fc / 100)) (sp * (tx / 100))).
  fold (Qminus (sp - cg - ff - (sp * (fp / 100) + fc / 100) - sp * (tx / 100))
               (sp * (oc / 100))).
  fold p. cbn [gtb ltb].
  destruct (Qltb 0 p) eqn:E.
  - assert (0 < p) as Hp by now apply Qltb_lt.
    rewrite !div_Num_pos by exact Hp. cbn [andb].
    destruct (Qltb 0 (ad + mo)); reflexivity.
  - reflexivity.
Qed.


(** ** What the breakeven figures of [results] mean *)

Lemma results_without_price (c : Calculator.CalcInputs) :
  (Calculator.sellingPrice c >? Num 0)%num = false ->
  Calculator.results c
  = {| Calculator.Result.hasSellingPrice := false;
       Calculator.Result.breakevenRoas := Num 0;
       Calculator.Result.breakevenUnits := Num 0;
       Calculator.Result.profitPerUnit := Num 0;
       Calculator.Result.hasAdSpend := false |}.
Proof.
  intros H. unfold Calculator.results. now rewrite price_guard_gtb, H.
Qed.

(** A positive reported profit per unit means the price was positive. *)
Lemma profit_pos_price_pos (c : Calculator.CalcInputs) :
  (Calculator.Result.profitPerUnit (Calculator.results c) >? Num 0)%num = true ->
  (Calculator.sellingPrice c >? Num 0)%num = true.
Proof.
  intros Hp. destruct (Calculator.sellingPrice c >? Num 0)%num eqn:E;
    [reflexivity|].
  rewrite (results_without_price c E) in Hp. discriminate Hp.
Qed.

Lemma hundredth_nonneg (a : Q) : 0 <= a -> 0 <= a / 100.
Proof. intros H. apply Qle_shift_div_l; [reflexivity|]. lra. Qed.



(** ** Rendered figures of the first edition *)

(** X7. The "Net Margin" tile divides by the selling price only when that
    price is positive: it shows a dash exactly when [sellingPrice > 0]
    fails. *)
Theorem netMargin_dash_iff (c : Calculator.CalcInputs) :
  CalculatorUI.netMarginPercent c = None
  <-> (Calculator.sellingPrice c >? Num 0)%num = false.
Proof.
  unfold CalculatorUI.netMarginPercent, Calculator.results.
  rewrite price_guard_gtb.
  destruct (Calculator.sellingPrice c >? Num 0)%num; cbn [negb]; cbv zeta;
    cbn [Calculator.Result.hasSellingPrice]; split; intros H;
    try reflexivity; discriminate H.
Qed.


(** ** The scenario table *)

Lemma round_num_eq (a b : Q) :
  a == b -> (round (Num a * Num 100) / Num 100 == round (Num b * Num 100) / Num 100)%num.
Proof.
  intros E. cbn [mul round]. rewrite !div_Num_100. cbn [num_eq].
  now rewrite E.
Qed.

(** The scenario entry of a finite price [a] and advertising budget [b] for
    a margin [q] with [a * q > 0.01]. *)
Lemma scenario_entry_above (c : Calculator.CalcInputs) (a b q : Q)
    (s : Calculator.Scenario.t) :
  Calculator.sellingPrice c = Num a ->
  Calculator.adSpend c = Num b ->
  In s (Calculator.marginScenarios c) ->
  Calculator.Scenario.margin s = Num q ->
  0.01 < a * q ->
  Calculator.Scenario.breakevenRoas s
  = (round (Num (a / (a * q)) * Num 100) / Num 100)%num
  /\ Calculator.Scenario.breakevenOrders s
     = Num (inject_Z (Qceiling (b / (a * q)))).
Proof.
  intros Ha Hb Hs Hm Hgt.
  unfold Calculator.marginScenarios in Hs. rewrite Ha, Hb in Hs.
  apply in_map_iff in Hs. destruct Hs as (m & <- & _).
  cbv zeta in *.
  cbn [Calculator.Scenario.margin Calculator.Scenario.breakevenRoas
       Calculator.Scenario.breakevenOrders] in *.
  subst m. change (Num a * Num q)%num with (Num (a * q)).
  assert (0 < a * q) as Hpos by (eapply Qlt_trans; [|exact Hgt]; reflexivity).
  cbn [gtb ltb]. rewrite (proj2 (Qltb_lt _ _) Hgt).
  rewrite !div_Num_pos by exact Hpos. cbn [isFinite ceil].
  split; reflexivity.
Qed.

(** The scenario entry for a margin [q] with [a * q <= 0.01]. *)
Lemma scenario_entry_below (c : Calculator.CalcInputs) (a q : Q)
    (s : Calculator.Scenario.t) :
  Calculator.sellingPrice c = Num a ->
  In s (Calculator.marginScenarios c) ->
  Calculator.Scenario.margin s = Num q ->
  a * q <= 0.01 ->
  Calculator.Scenario.breakevenRoas s = PInf
  /\ Calculator.Scenario.breakevenOrders s = PInf.
Proof.
  intros Ha Hs Hm Hle.
  unfold Calculator.marginScenarios in Hs. rewrite Ha in Hs.
  apply in_map_iff in Hs. destruct Hs as (m & <- & _).
  cbv zeta in *.
  cbn [Calculator.Scenario.margin Calculator.Scenario.breakevenRoas
       Calculator.Scenario.breakevenOrders] in *.
  subst m. change (Num a * Num q)%num with (Num (a * q)).
  cbn [gtb ltb]. rewrite (proj2 (Qltb_ge _ _) Hle). split; reflexivity.
Qed.

(** The breakeven ROAS cell of the scenario table, as [marginScenarios]
    computes it from the price [sp] and the margin [m]. *)
Lemma roas_cell_above (a q : Q) :
  0.01 < a * q ->
  ((if isFinite (if (Num a * Num q >? Num 0.01)%num
                 then (Num a / (Num a * Num q))%num else PInf)
    then round ((if (Num a * Num q >? Num 0.01)%num
                 then (Num a / (Num a * Num q))%num else PInf) * Num 100)
         / Num 100
    else PInf)
   == round (Num (1 / q) * Num 100) / Num 100)%num.
Proof.
  intros Hgt. change (Num a * Num q)%num with (Num (a * q)).
  assert (0 < a * q) as Hpos by (eapply Qlt_trans; [|exact Hgt]; reflexivity).
  assert (~ a == 0) as Hna by (intros E; rewrite E in Hpos; lra).
  assert (~ q == 0) as Hnq by (intros E; rewrite E in Hpos; lra).
  cbn [gtb ltb]. rewrite (proj2 (Qltb_lt _ _) Hgt).
  rewrite (div_Num_pos a (a * q) Hpos). cbn [isFinite].
  apply round_num_eq. now field.
Qed.

Lemma roas_cell_below (a q : Q) :
  a * q <= 0.01 ->
  (if isFinite (if (Num a * Num q >? Num 0.01)%num
                then (Num a / (Num a * Num q))%num else PInf)
   then (round ((if (Num a * Num q >? Num 0.01)%num
                 then (Num a / (Num a * Num q))%num else PInf) * Num 100)
         / Num 100)%num
   else PInf)
  = PInf.
Proof.
  intros Hle. change (Num a * Num q)%num with (Num (a * q)).
  cbn [gtb ltb]. now rewrite (proj2 (Qltb_ge _ _) Hle).
Qed.



Lemma StronglySorted_map_in {A B : Type} (Ra : A -> A -> Prop)
    (Rb : B -> B -> Prop) (f : A -> B) (l : list A) :
  (forall x y, In x l -> In y l -> Ra x y -> Rb (f x) (f y)) ->
  StronglySorted Ra l -> StronglySorted Rb (map f l).
Proof.
  intros H S. induction S as [|x l S IH Hx]; cbn [map]; constructor.
  - apply IH. intros u v Hu Hv. apply H; now right.
  - apply Forall_forall. intros y Hy. apply in_map_iff in Hy.
    destruct Hy as (v & <- & Hv). apply H; [now left|now right|].
    rewrite Forall_forall in Hx. now apply Hx.
Qed.

Lemma TARGET_MARGINS_ascending :
  StronglySorted
    (fun x y => exists q1 q2, x = Num q1 /\ y = Num q2 /\ 0 <= q1 /\ q1 <= q2)
    Calculator.TARGET_MARGINS.
Proof.
  unfold Calculator.TARGET_MARGINS.
  repeat (apply SSorted_cons;
          [|repeat (apply Forall_cons;
                    [eexists; eexists; split; [reflexivity|];
                     split; [reflexivity|]; split; discriminate|]);
            apply Forall_nil]).
  apply SSorted_nil.
Qed.

Lemma round2_mono (x y : Q) :
  x <= y ->
  (round (Num x * Num 100) / Num 100 <=? round (Num y * Num 100) / Num 100)%num
  = true.
Proof.
  intros H. cbn [mul round]. rewrite !div_Num_100. cbn [leb].
  apply Qle_bool_iff.
  assert (Qfloor (x * 100 + (1 # 2)) <= Qfloor (y * 100 + (1 # 2)))%Z as Hz
      by (apply Qfloor_resp_le; lra).
  rewrite Zle_Qle in Hz.
  unfold Qdiv. change (/ 100) with (1 # 100).
  set (m := inject_Z (Qfloor (x * 100 + (1 # 2)))) in *.
  set (n := inject_Z (Qfloor (y * 100 + (1 # 2)))) in *.
  clearbody m n. lra.
Qed.

Lemma ceil_mono (x y : Q) :
  x <= y -> (ceil (Num x) <=? ceil (Num y))%num = true.
Proof.
  intros H. cbn [ceil leb]. apply Qle_bool_iff. rewrite <- Zle_Qle.
  now apply Qceiling_resp_le.
Qed.

(** Dividing a non-negative number by a larger positive divisor gives less. *)
Lemma Qdiv_antitone (b x y : Q) : 0 <= b -> 0 < x -> x <= y -> b / y <= b / x.
Proof.
  intros Hb Hx Hxy. assert (0 < y) as Hy by lra.
  apply Qdiv_le_iff; [exact Hy|].
  assert (b / x * y == b * y / x) as -> by (field; lra).
  apply Qle_div_iff; [exact Hx|]. nra.
Qed.

Lemma leb_PInf_finite_or_inf (x : number) :
  isFinite x = true \/ x = PInf -> (x <=? PInf)%num = true.
Proof. intros [H| ->]; [destruct x; try discriminate|]; reflexivity. Qed.

(** Two rows of the table, the second for a margin at least as high. *)
Lemma scenario_pair_descends (c : Calculator.CalcInputs) (a b q1 q2 : Q)
    (s t : Calculator.Scenario.t) :
  Calculator.sellingPrice c = Num a ->
  Calculator.adSpend c = Num b ->
  0 <= b ->
  In s (Calculator.marginScenarios c) ->
  In t (Calculator.marginScenarios c) ->
  Calculator.Scenario.margin s = Num q1 ->
  Calculator.Scenario.margin t = Num q2 ->
  0 <= q1 -> q1 <= q2 ->
  (Calculator.Scenario.breakevenRoas t
   <=? Calculator.Scenario.breakevenRoas s)%num = true
  /\ (Calculator.Scenario.breakevenOrders t
      <=? Calculator.Scenario.breakevenOrders s)%num = true.
Proof.
  intros Ha Hb Hnn Hs Ht Hms Hmt H0 H12.
  destruct (Qlt_le_dec 0.01 (a * q1)) as [G1|G1].
  - assert (0 < a) as Hapos by nra.
    assert (0.01 < a * q2) as G2 by nra.
    destruct (scenario_entry_above c a b q1 s Ha Hb Hs Hms G1) as [-> ->].
    destruct (scenario_entry_above c a b q2 t Ha Hb Ht Hmt G2) as [-> ->].
    assert (0 < a * q1) as P1 by lra.
    assert (a * q1 <= a * q2) as P12 by nra.
    split.
    + apply round2_mono. apply Qdiv_antitone; lra.
    + apply (ceil_mono (b / (a * q2)) (b / (a * q1))).
      now apply Qdiv_antitone.
  - destruct (scenario_entry_below c a q1 s Ha Hs Hms G1) as [-> ->].
    assert (isFinite (Calculator.sellingPrice c) = true) as Hsp
        by now rewrite Ha.
    assert (isFinite (Calculator.adSpend c) = true) as Had by now rewrite Hb.
    destruct (marginScenarios_no_NaN c t Hsp Had Ht) as (_ & Hr & Ho).
    split; now apply leb_PInf_finite_or_inf.
Qed.



(** ** Tints *)

Lemma tint_of_finite (q : Q) :
  CalculatorUI.getRoasBackground (Num q)
  = if Qle_bool q 0 then Tint.gray
    else if Qltb q 1.5 then Tint.emerald
    else if Qle_bool q 2.0 then Tint.amber
    else Tint.red.
Proof.
  unfold CalculatorUI.getRoasBackground. cbn [leb ltb isFinite negb].
  now rewrite orb_false_r.
Qed.

Lemma tint_respects_num_eq (x y : number) :
  (x == y)%num ->
  CalculatorUI.getRoasBackground x = CalculatorUI.getRoasBackground y.
Proof.
  destruct x as [a| | |], y as [b| | |]; cbn [num_eq]; try contradiction;
    try reflexivity.
  intros E. rewrite !tint_of_finite.
  rewrite (Qleb_comp a b E 0 0 (Qeq_refl 0)).
  rewrite (Qltb_compat a b 1.5 1.5 E (Qeq_refl _)).
  now rewrite (Qleb_comp a b E 2.0 2.0 (Qeq_refl _)).
Qed.

Lemma tint_gray_iff (x : number) :
  CalculatorUI.getRoasBackground x = Tint.gray
  <-> (x >? Num 0)%num = false \/ isFinite x = false.
Proof.
  destruct x as [q| | |]; try (split; [now right|reflexivity]).
  rewrite tint_of_finite.
  assert ((Num q >? Num 0)%num = negb (Qle_bool q 0)) as -> by reflexivity.
  cbn [isFinite].
  destruct (Qle_bool q 0); cbn [negb].
  - split; [now left|reflexivity].
  - split; [|intros [H|H]; discriminate H].
    destruct (Qltb q 1.5); [discriminate|].
    destruct (Qle_bool q 2.0); discriminate.
Qed.

(** X13. [getRoasBackground] (first edition) is gray exactly on numbers that
    are not positive or not finite, and on positive finite numbers the tint
    only worsens as the ROAS grows: below an emerald ROAS everything is
    emerald, above a red one everything is red. *)
Theorem getRoasBackground_bands (r1 r2 : Q) :
  (forall x : number,
      CalculatorUI.getRoasBackground x = Tint.gray
      <-> (x >? Num 0)%num = false \/ isFinite x = false)
  /\ (0 < r1 -> r1 <= r2 ->
      (CalculatorUI.getRoasBackground (Num r2) = Tint.emerald ->
       CalculatorUI.getRoasBackground (Num r1) = Tint.emerald)
      /\ (CalculatorUI.getRoasBackground (Num r1) = Tint.red ->
          CalculatorUI.getRoasBackground (Num r2) = Tint.red)).
Proof.
  split; [exact tint_gray_iff|].
  intros H1 H12. rewrite !tint_of_finite.
  assert (Qle_bool r1 0 = false) as ->
      by (apply not_true_is_false; intros E; apply Qle_bool_iff in E; lra).
  assert (Qle_bool r2 0 = false) as ->
      by (apply not_true_is_false; intros E; apply Qle_bool_iff in E; lra).
  destruct (Qltb r1 1.5) eqn:A1, (Qltb r2 1.5) eqn:A2,
           (Qle_bool r1 2.0) eqn:B1, (Qle_bool r2 2.0) eqn:B2;
    split; intros H; try reflexivity; try discriminate H; exfalso;
    repeat match goal with
           | E : Qltb _ _ = true |- _ => apply Qltb_lt in E
           | E : Qltb _ _ = false |- _ => apply Qltb_ge in E
           | E : Qle_bool _ _ = true |- _ => apply Qle_bool_iff in E
           | E : Qle_bool _ _ = false |- _ =>
               apply not_true_iff_false in E; rewrite Qle_bool_iff in E
           end; lra.
Qed.

Lemma getRoasBackground_bands_witness :
  CalculatorUI.getRoasBackground (Num 1.2) = Tint.emerald.
Proof.
  apply (proj2 (getRoasBackground_bands 1.2 1.4)); [reflexivity|discriminate|].
  reflexivity.
Defined.



Lemma refund_tint_of_finite (q : Q) :
  CalculatorRefundUI.getRoasBackground (Num q)
  = if Qle_bool q 0 then Tint.gray
    else if Qle_bool q 1.7 then Tint.emerald
    else if Qle_bool q 2.5 then Tint.amber
    else Tint.red.
Proof.
  unfold CalculatorRefundUI.getRoasBackground. cbn [leb ltb isFinite negb].
  now rewrite orb_false_r.
Qed.

Lemma refund_tint_respects_num_eq (x y : number) :
  (x == y)%num ->
  CalculatorRefundUI.getRoasBackground x = CalculatorRefundUI.getRoasBackground y.
Proof.
  destruct x as [a| | |], y as [b| | |]; cbn [num_eq]; try contradiction;
    try reflexivity.
  intros E. rewrite !refund_tint_of_finite.
  rewrite (Qleb_comp a b E 0 0 (Qeq_refl 0)).
  rewrite (Qleb_comp a b E 1.7 1.7 (Qeq_refl _)).
  now rewrite (Qleb_comp a b E 2.5 2.5 (Qeq_refl _)).
Qed.



(** ** Bundle tiers as component state *)

Lemma assign_length {A : Type} (l : list A) (i : nat) (a : A) :
  length (BundleState.assign l i a) = length l.
Proof.
  revert i. induction l as [|x l IH]; intros [|i]; cbn; auto.
Qed.

Lemma assign_same {A : Type} (l : list A) (i : nat) (a : A) :
  (i < length l)%nat -> nth_error (BundleState.assign l i a) i = Some a.
Proof.
  revert i. induction l as [|x l IH]; intros [|i] H; cbn in *; try lia.
  - reflexivity.
  - apply IH. lia.
Qed.

Lemma assign_other {A : Type} (l : list A) (i j : nat) (a : A) :
  j <> i -> nth_error (BundleState.assign l i a) j = nth_error l j.
Proof.
  revert i j. induction l as [|x l IH]; intros [|i] [|j] H; cbn; try reflexivity.
  - now elim H.
  - apply IH. intros E. apply H. now f_equal.
Qed.

(** Filtering out one position keeps what is before it and what is after. *)
Lemma filter_index_from_split {A : Type} (l : list A) (i index : nat) :
  (i <= index)%nat ->
  BundleState.filter_index_from i index l
  = firstn (index - i) l ++ skipn (S (index - i)) l.
Proof.
  revert i. induction l as [|a l IH]; intros i H.
  - cbn. now rewrite firstn_nil.
  - cbn [BundleState.filter_index_from].
    destruct (Nat.eqb i index) eqn:E.
    + apply Nat.eqb_eq in E. subst i. rewrite Nat.sub_diag. cbn.
      clear IH H. revert index. induction l as [|b l IH]; intros index.
      * reflexivity.
      * cbn [BundleState.filter_index_from].
        assert (Nat.eqb (S index) index = false) as ->
            by (apply Nat.eqb_neq; lia).
        f_equal.
        assert (forall k, (index < k)%nat ->
                  BundleState.filter_index_from k index l = l) as Hk.
        { clear. induction l as [|c l IH]; intros k Hk; cbn; [reflexivity|].
          assert (Nat.eqb k index = false) as -> by (apply Nat.eqb_neq; lia).
          f_equal. apply IH. lia. }
        apply Hk. lia.
    + apply Nat.eqb_neq in E.
      assert (index - i = S (index - S i))%nat as -> by lia.
      cbn [firstn skipn app]. f_equal. apply IH. lia.
Qed.

Lemma removeBundleTier_split (index : nat) (l : list BundleCalculator.BundleTier) :
  (1 < length l)%nat ->
  BundleState.removeBundleTier index l l = firstn index l ++ skipn (S index) l.
Proof.
  intros H. unfold BundleState.removeBundleTier.
  rewrite (proj2 (Nat.ltb_lt _ _) H).
  rewrite filter_index_from_split by lia. now rewrite Nat.sub_0_r.
Qed.

Lemma removeBundleTier_length (index : nat) (l : list BundleCalculator.BundleTier) :
  (1 <= length l)%nat ->
  (1 <= length (BundleState.removeBundleTier index l l) <= length l)%nat.
Proof.
  intros H. destruct (Nat.ltb 1 (length l)) eqn:E.
  - apply Nat.ltb_lt in E. rewrite removeBundleTier_split by exact E.
    rewrite length_app, length_firstn, length_skipn. lia.
  - unfold BundleState.removeBundleTier. rewrite E. lia.
Qed.

Lemma addBundleTier_ok (l : list BundleCalculator.BundleTier) :
  (1 <= length l)%nat ->
  exists l', BundleState.addBundleTier l l = Some l'
             /\ (length l <= length l' <= 4 \/ (4 < length l /\ l' = l))%nat.
Proof.
  intros H. unfold BundleState.addBundleTier.
  destruct (Nat.ltb (length l) 4) eqn:E.
  - apply Nat.ltb_lt in E.
    destruct (nth_error l (length l - 1)) as [t|] eqn:N.
    + eexists. split; [reflexivity|]. left. rewrite length_app. cbn. lia.
    + apply nth_error_None in N. lia.
  - apply Nat.ltb_ge in E. exists l. split; [reflexivity|].
    destruct (Nat.eq_dec (length l) 4); [left; lia|right; split; [lia|reflexivity]].
Qed.

Lemma step_keeps_tiers_ok (a : BundleState.Action) (st st' : BundleState.State) :
  tiers_ok st -> BundleState.step a st = Some st' -> tiers_ok st'.
Proof.
  unfold tiers_ok. intros Hok Hstep.
  destruct a; cbn [BundleState.step] in Hstep.
  - injection Hstep as <-. exact Hok.
  - injection Hstep as <-. exact Hok.
  - unfold BundleState.updateBundleTier in Hstep.
    destruct (nth_error (BundleState.bundleTiers st) index); [|discriminate].
    injection Hstep as <-. cbn [BundleState.with_tiers BundleState.bundleTiers].
    now rewrite assign_length.
  - destruct (addBundleTier_ok (BundleState.bundleTiers st) (proj1 Hok))
      as (l' & Hl' & Hlen).
    rewrite Hl' in Hstep. injection Hstep as <-.
    cbn [BundleState.with_tiers BundleState.bundleTiers]. lia.
  - injection Hstep as <-. cbn [BundleState.with_tiers BundleState.bundleTiers].
    pose proof (removeBundleTier_length index (BundleState.bundleTiers st)
                  (proj1 Hok)). lia.
  - injection Hstep as <-. exact Hok.
  - injection Hstep as <-. exact Hok.
Qed.

Lemma run_keeps_tiers_ok (actions : list BundleState.Action)
    (st st' : BundleState.State) :
  tiers_ok st -> BundleState.run actions st = Some st' -> tiers_ok st'.
Proof.
  revert st. induction actions as [|a rest IH]; intros st Hok Hrun;
    cbn [BundleState.run] in Hrun.
  - injection Hrun as <-. exact Hok.
  - destruct (BundleState.step a st) as [st1|] eqn:E; [|discriminate].
    apply (IH st1); [|exact Hrun]. exact (step_keeps_tiers_ok a st st1 Hok E).
Qed.

Lemma initial_tiers_ok : tiers_ok BundleState.initial.
Proof. unfold tiers_ok. cbn. lia. Qed.

(** X16. The component always holds between one and four bundle tiers: the
    initial state does, every state reached from it by any sequence of user
    actions does, and in such a state no action whose tier edit points at an
    existing tier can fail; in particular [addBundleTier] never reads the
    last tier of an empty list. *)
Theorem bundle_tiers_between_one_and_four :
  tiers_ok BundleState.initial
  /\ (forall actions st,
        BundleState.run actions BundleState.initial = Some st -> tiers_ok st)
  /\ (forall a st,
        tiers_ok st -> edits_in_range a st ->
        exists st', BundleState.step a st = Some st' /\ tiers_ok st').
Proof.
  split; [exact initial_tiers_ok|]. split.
  - intros actions st. apply run_keeps_tiers_ok. exact initial_tiers_ok.
  - intros a st Hok Hin.
    assert (exists st', BundleState.step a st = Some st') as [st' Hst'].
    { destruct a; cbn [BundleState.step]; try (eexists; reflexivity).
      - cbn [edits_in_range] in Hin. unfold BundleState.updateBundleTier.
        destruct (nth_error (BundleState.bundleTiers st) index) eqn:N.
        + eexists; reflexivity.
        + apply nth_error_None in N. lia.
      - destruct (addBundleTier_ok (BundleState.bundleTiers st) (proj1 Hok))
          as (l' & -> & _).
        eexists; reflexivity. }
    exists st'. split; [exact Hst'|].
    exact (step_keeps_tiers_ok a st st' Hok Hst').
Qed.

Lemma bundle_tiers_between_one_and_four_witness :
  exists st,
    BundleState.run sample_actions BundleState.initial = Some st /\ tiers_ok st.
Proof.
  destruct (BundleState.run sample_actions BundleState.initial) as [st|] eqn:E.
  - exists st. split; [reflexivity|].
    exact (proj1 (proj2 bundle_tiers_between_one_and_four) sample_actions st E).
  - vm_compute in E. discriminate E.
Defined.

(** X17. [removeBundleTier] removes exactly the tier at the given position:
    with more than one tier the result is the tiers before it followed by
    the tiers after it (so an index past the end changes nothing), and the
    last remaining tier is never removed. *)
Theorem removeBundleTier_removes_one (index : nat)
    (l : list BundleCalculator.BundleTier) :
  ((length l <= 1)%nat -> BundleState.removeBundleTier index l l = l)
  /\ ((1 < length l)%nat ->
      BundleState.removeBundleTier index l l
      = firstn index l ++ skipn (S index) l
      /\ ((index < length l)%nat ->
          length (BundleState.removeBundleTier index l l) = (length l - 1)%nat)
      /\ ((length l <= index)%nat ->
          BundleState.removeBundleTier index l l = l)).
Proof.
  split.
  - intros H. unfold BundleState.removeBundleTier.
    now rewrite (proj2 (Nat.ltb_ge _ _) H).
  - intros H. rewrite (removeBundleTier_split index l H).
    split; [reflexivity|]. split.
    + intros Hi. rewrite length_app, length_firstn, length_skipn. lia.
    + intros Hi. rewrite firstn_all2 by exact Hi.
      rewrite skipn_all2 by lia. apply app_nil_r.
Qed.

Lemma removeBundleTier_removes_one_witness :
  BundleState.removeBundleTier 0 bundle_default_tiers bundle_default_tiers
  = firstn 0 bundle_default_tiers ++ skipn 1 bundle_default_tiers.
Proof.
  apply (proj2 (removeBundleTier_removes_one 0 bundle_default_tiers)).
  cbn. lia.
Defined.

Lemma get_with_field_same (t : BundleCalculator.BundleTier)
    (f : BundleState.TierField) (v : number) :
  BundleState.get_field (BundleState.with_field t f v) f = v.
Proof. destruct f; reflexivity. Qed.

Lemma get_with_field_other (t : BundleCalculator.BundleTier)
    (f g : BundleState.TierField) (v : number) :
  g <> f ->
  BundleState.get_field (BundleState.with_field t f v) g
  = BundleState.get_field t g.
Proof. intros H. destruct f, g; try reflexivity; now elim H. Qed.

(** X18. [updateBundleTier] on an existing tier changes that one field of
    that one tier: the list keeps its length, the edited field reads back the
    new value, the tier's other fields and every other tier are unchanged.
    It is only an index past the end that the embedding refuses. *)
Theorem updateBundleTier_edits_one_field (index : nat)
    (field : BundleState.TierField) (value : number)
    (prev : list BundleCalculator.BundleTier) :
  (BundleState.updateBundleTier index field value prev = None
   <-> (length prev <= index)%nat)
  /\ (forall next,
        BundleState.updateBundleTier index field value prev = Some next ->
        length next = length prev
        /\ (exists old new,
              nth_error prev index = Some old
              /\ nth_error next index = Some new
              /\ BundleState.get_field new field = value
              /\ forall g, g <> field ->
                   BundleState.get_field new g = BundleState.get_field old g)
        /\ (forall j, j <> index -> nth_error next j = nth_error prev j)).
Proof.
  unfold BundleState.updateBundleTier. split.
  - destruct (nth_error prev index) eqn:N.
    + split; [discriminate|]. intros H. apply nth_error_None in H. congruence.
    + split; [|reflexivity]. intros _. now apply nth_error_None.
  - intros next H. destruct (nth_error prev index) as [old|] eqn:N;
      [|discriminate]. injection H as <-.
    assert (index < length prev)%nat as Hi
        by (apply nth_error_Some; congruence).
    split; [apply assign_length|]. split.
    + exists old, (BundleState.with_field old field value).
      split; [reflexivity|]. split; [now apply assign_same|].
      split; [apply get_with_field_same|]. intros g Hg.
      now apply get_with_field_other.
    + intros j Hj. now apply assign_other.
Qed.

Lemma updateBundleTier_edits_one_field_witness :
  exists next,
    BundleState.updateBundleTier 1 BundleState.Field_price (Num 65)
      bundle_default_tiers = Some next
    /\ length next = length bundle_default_tiers.
Proof.
  eexists. split; [reflexivity|].
  apply (proj2 (updateBundleTier_edits_one_field 1 BundleState.Field_price
                  (Num 65) bundle_default_tiers)).
  reflexivity.
Defined.

(** ** Presets *)

Lemma spread_get (c : BundleCalculator.CalcInputs)
    (values : BundleState.PartialInputs) (k : BundleState.Key) :
  BundleState.get_key (BundleState.spread c values) k
  = match values k with Some v => v | None => BundleState.get_key c k end.
Proof. destruct k; reflexivity. Qed.

Lemma inputs_ext (c d : BundleCalculator.CalcInputs) :
  (forall k, BundleState.get_key c k = BundleState.get_key d k) -> c = d.
Proof.
  intros H. destruct c, d.
  pose proof (H BundleState.Key_sellingPrice).
  pose proof (H BundleState.Key_cogs).
  pose proof (H BundleState.Key_adSpend).
  pose proof (H BundleState.Key_feesPercent).
  pose proof (H BundleState.Key_otherCostsPercent).
  pose proof (H BundleState.Key_fixedFeesPerUnit).
  pose proof (H BundleState.Key_monthlyOverhead).
  pose proof (H BundleState.Key_unitsSold).
  cbn in *. congruence.
Qed.

Lemma PRESETS_keys (p : BundleState.Preset) (k : BundleState.Key) :
  In p BundleState.PRESETS ->
  (BundleState.values p k <> None
   <-> k = BundleState.Key_sellingPrice \/ k = BundleState.Key_cogs
       \/ k = BundleState.Key_feesPercent
       \/ k = BundleState.Key_otherCostsPercent).
Proof.
  unfold BundleState.PRESETS. cbn [In].
  intros [<-|[<-|[<-|[<-|[]]]]]; destruct k; cbn; split; intros H;
    try congruence; try tauto;
    repeat (destruct H as [H|H]; try discriminate H).
Qed.

(** X19. Applying one of the four presets overwrites exactly the selling
    price, cost of goods, fee and other-cost percentages and marks the preset
    active; the ad spend, fixed fees, overhead, units sold and the bundle
    tiers are kept.  The last preset applied wins: the inputs do not depend
    on which preset was applied before.  Any later edit through
    [updateInput] clears the active preset. *)
Theorem applyPreset_overrides (p q : BundleState.Preset) (i j : nat)
    (st : BundleState.State) :
  In p BundleState.PRESETS -> In q BundleState.PRESETS ->
  let st' := BundleState.applyPreset p i st in
  BundleState.activePreset st' = Some i
  /\ BundleState.bundleTiers st' = BundleState.bundleTiers st
  /\ (forall k,
        BundleState.get_key (BundleState.inputs st') k
        = match BundleState.values p k with
          | Some v => v
          | None => BundleState.get_key (BundleState.inputs st) k
          end)
  /\ (forall k,
        k <> BundleState.Key_sellingPrice -> k <> BundleState.Key_cogs ->
        k <> BundleState.Key_feesPercent ->
        k <> BundleState.Key_otherCostsPercent ->
        BundleState.get_key (BundleState.inputs st') k
        = BundleState.get_key (BundleState.inputs st) k)
  /\ BundleState.inputs
       (BundleState.applyPreset p i (BundleState.applyPreset q j st))
     = BundleState.inputs st'
  /\ (forall key value,
        BundleState.activePreset (BundleState.updateInput key value st') = None).
Proof.
  intros Hp Hq st'. subst st'.
  split; [reflexivity|]. split; [reflexivity|].
  split; [intros k; apply spread_get|]. split; [|split; [|reflexivity]].
  - intros k H1 H2 H3 H4. cbn [BundleState.applyPreset BundleState.inputs].
    rewrite spread_get.
    destruct (BundleState.values p k) eqn:E; [|reflexivity].
    assert (BundleState.values p k <> None) as Hn by congruence.
    apply (PRESETS_keys p k Hp) in Hn. tauto.
  - cbn [BundleState.applyPreset BundleState.inputs].
    apply inputs_ext. intros k. rewrite !spread_get.
    destruct (BundleState.values p k) eqn:E; [reflexivity|].
    destruct (BundleState.values q k) eqn:E'; [|reflexivity].
    assert (BundleState.values q k <> None) as Hn by congruence.
    apply (PRESETS_keys q k Hq) in Hn.
    apply (PRESETS_keys p k Hp) in Hn. congruence.
Qed.

Lemma applyPreset_overrides_witness :
  BundleState.inputs
    (BundleState.applyPreset (preset_at 0) 0
       (BundleState.applyPreset (preset_at 3) 3 BundleState.initial))
  = BundleState.inputs (BundleState.applyPreset (preset_at 0) 0 BundleState.initial).
Proof.
  apply (applyPreset_overrides (preset_at 0) (preset_at 3) 0 3 BundleState.initial).
  - cbn. tauto.
  - cbn. tauto.
Defined.

(** X20. Every preset yields a sellable product: on a state whose fixed fee
    per unit is zero (the component offers no field to change it), applying
    any of the four presets makes [results] valid, so the analysis card
    never falls back to "Enter valid numbers" after a preset. *)
Theorem presets_are_valid (p : BundleState.Preset) (i : nat)
    (st : BundleState.State) :
  In p BundleState.PRESETS ->
  BundleCalculator.fixedFeesPerUnit (BundleState.inputs st) = Num 0 ->
  BundleCalculator.Result.isValid
    (BundleCalculator.results
       (BundleState.inputs (BundleState.applyPreset p i st))) = true.
Proof.
  intros Hp Hff. unfold BundleState.PRESETS in Hp. cbn [In] in Hp.
  destruct st as [c adv act mode tiers]. cbn [BundleState.inputs] in Hff.
  destruct c as [sp cg ad fp oc ff mo us]. cbn in Hff. subst ff.
  destruct Hp as [<-|[<-|[<-|[<-|[]]]]]; reflexivity.
Qed.

Lemma presets_are_valid_witness :
  BundleCalculator.Result.isValid
    (BundleCalculator.results
       (BundleState.inputs
          (BundleState.applyPreset (preset_at 2) 2 BundleState.initial))) = true.
Proof.
  apply (presets_are_valid (preset_at 2) 2 BundleState.initial).
  - cbn. tauto.
  - reflexivity.
Defined.

(** X21. In every state reached from the initial one, switching the offer
    builder on always shows the offer comparison: with bundle mode on the
    card is never the single-product analysis nor the request for valid
    numbers. *)
Theorem bundle_mode_shows_offers (actions : list BundleState.Action)
    (st : BundleState.State) :
  BundleState.run actions BundleState.initial = Some st ->
  BundleState.bundleMode st = true ->
  BundleState.card st = BundleState.OfferComparison.
Proof.
  intros Hrun Hmode.
  pose proof (run_keeps_tiers_ok actions _ st initial_tiers_ok Hrun) as Hok.
  unfold tiers_ok in Hok. unfold BundleState.card. rewrite Hmode.
  unfold BundleCalculator.bundleResults. cbn [negb andb]. cbv zeta.
  rewrite length_map.
  now rewrite (proj2 (Nat.ltb_lt 0 _)) by lia.
Qed.

Lemma bundle_mode_shows_offers_witness :
  exists st,
    BundleState.run (BundleState.ToggleBundleMode :: sample_actions)
      BundleState.initial = Some st
    /\ BundleState.card st = BundleState.OfferComparison.
Proof.
  destruct (BundleState.run (BundleState.ToggleBundleMode :: sample_actions)
              BundleState.initial) as [st|] eqn:E.
  - exists st. split; [reflexivity|].
    apply (bundle_mode_shows_offers
             (BundleState.ToggleBundleMode :: sample_actions) st E).
    vm_compute in E. injection E as <-. reflexivity.
  - vm_compute in E. discriminate E.
Defined.

(** X22. Adding an offer and removing it again restores the tiers: with
    fewer than four tiers, [addBundleTier] appends one tier behind the
    existing ones, and removing the tier at the old length gives the old
    list back. *)
Theorem add_then_remove_restores (l : list BundleCalculator.BundleTier) :
  (1 <= length l < 4)%nat ->
  exists l',
    BundleState.addBundleTier l l = Some l'
    /\ length l' = S (length l)
    /\ firstn (length l) l' = l
    /\ BundleState.removeBundleTier (length l) l' l' = l.
Proof.
  intros [H1 H4]. unfold BundleState.addBundleTier.
  rewrite (proj2 (Nat.ltb_lt _ _) H4).
  destruct (nth_error l (length l - 1)) as [t|] eqn:N;
    [|apply nth_error_None in N; lia].
  eexists. split; [reflexivity|].
  split; [rewrite length_app; cbn; lia|].
  split.
  - rewrite firstn_app, Nat.sub_diag, firstn_all. cbn. apply app_nil_r.
  - rewrite removeBundleTier_split by (rewrite length_app; cbn; lia).
    rewrite firstn_app, Nat.sub_diag, firstn_all. cbn [firstn].
    rewrite skipn_all2 by (rewrite length_app; cbn; lia).
    now rewrite !app_nil_r.
Qed.

Lemma add_then_remove_restores_witness :
  exists l',
    BundleState.addBundleTier bundle_default_tiers bundle_default_tiers = Some l'
    /\ BundleState.removeBundleTier 2 l' l' = bundle_default_tiers.
Proof.
  destruct (add_then_remove_restores bundle_default_tiers) as (l' & H1 & _ & _ & H2).
  - cbn. lia.
  - exists l'. split; [exact H1|exact H2].
Defined.


(** ** The email pattern *)

Lemma nullable_Matches (r : Waitlist.regex) :
  Waitlist.nullable r = true <-> Matches r [].
Proof.
  induction r as [| |p|r IHr s IHs|r IHr s IHs|r IHr]; cbn [Waitlist.nullable].
  - split; [discriminate|]. intros H. inversion H.
  - split; [intros _; constructor|reflexivity].
  - split; [discriminate|]. intros H. inversion H.
  - rewrite andb_true_iff, IHr, IHs. split.
    + intros [H1 H2]. exact (MSeq _ _ [] [] H1 H2).
    + intros H. inversion H as [| |r' s' u v Hu Hv E1 E2| | | |]; subst.
      apply app_eq_nil in E2. destruct E2 as [-> ->]. now split.
  - rewrite orb_true_iff, IHr, IHs. split.
    + intros [H|H]; [now apply MAltL|now apply MAltR].
    + intros H. inversion H; subst; [now left|now right].
  - split; [intros _; constructor|reflexivity].
Qed.

(** A match of [Star r] on a non-empty string starts with a non-empty match
    of [r]. *)
Lemma Matches_Star_cons (r : Waitlist.regex) (c : N) (s : Waitlist.jsstring) :
  Matches (Waitlist.Star r) (c :: s) ->
  exists u v, s = u ++ v /\ Matches r (c :: u) /\ Matches (Waitlist.Star r) v.
Proof.
  intros H. remember (Waitlist.Star r) as sr eqn:Er.
  remember (c :: s) as cs eqn:Ec. revert c s Ec.
  induction H as [| | | | | |r' u v Hu _ Hv IHv]; intros x y Exy;
    try discriminate.
  injection Er as ->.
  destruct u as [|d u].
  - cbn in Exy. apply (IHv eq_refl x y Exy).
  - cbn in Exy. injection Exy as -> <-. exists u, v. now repeat split.
Qed.

Lemma deriv_Matches (r : Waitlist.regex) (c : N) (s : Waitlist.jsstring) :
  Matches (Waitlist.deriv c r) s <-> Matches r (c :: s).
Proof.
  revert s.
  induction r as [| |p|r IHr t IHt|r IHr t IHt|r IHr]; intros s;
    cbn [Waitlist.deriv].
  - split; intros H; inversion H.
  - split; intros H; inversion H.
  - destruct (p c) eqn:E; split; intros H.
    + inversion H; subst. now constructor.
    + inversion H; subst. constructor.
    + inversion H.
    + inversion H; subst. congruence.
  - assert (Matches (Waitlist.Seq (Waitlist.deriv c r) t) s
            <-> exists u v, s = u ++ v /\ Matches r (c :: u) /\ Matches t v)
      as Hseq.
    { split.
      - intros H. inversion H as [| |r' s' u v Hu Hv E1 E2| | | |]; subst.
        exists u, v. split; [reflexivity|]. split; [now apply IHr|exact Hv].
      - intros (u & v & -> & Hu & Hv). constructor; [now apply IHr|exact Hv]. }
    assert (Matches (Waitlist.Seq r t) (c :: s)
            <-> (exists u v, s = u ++ v /\ Matches r (c :: u) /\ Matches t v)
                \/ (Matches r [] /\ Matches t (c :: s))) as Hcons.
    { split.
      - intros H. inversion H as [| |r' s' u v Hu Hv E1 E2| | | |]; subst.
        destruct u as [|d u].
        + right. cbn in E2. subst v. now split.
        + left. cbn in E2. injection E2 as -> <-. exists u, v. now repeat split.
      - intros [(u & v & -> & Hu & Hv)|[Hr Ht]].
        + exact (MSeq _ _ (c :: u) v Hu Hv).
        + exact (MSeq _ _ [] (c :: s) Hr Ht). }
    rewrite Hcons. destruct (Waitlist.nullable r) eqn:N.
    + apply nullable_Matches in N. split.
      * intros H. inversion H; subst.
        -- left. now apply Hseq.
        -- right. split; [exact N|now apply IHt].
      * intros [H|[_ H]].
        -- apply MAltL. now apply Hseq.
        -- apply MAltR. now apply IHt.
    + rewrite Hseq. split; [now left|].
      intros [H|[H _]]; [exact H|].
      apply nullable_Matches in H. congruence.
  - split; intros H.
    + inversion H; subst; [apply MAltL; now apply IHr|apply MAltR; now apply IHt].
    + inversion H; subst; [apply MAltL; now apply IHr|apply MAltR; now apply IHt].
  - split.
    + intros H. inversion H as [| |r' s' u v Hu Hv E1 E2| | | |]; subst.
      exact (MStarCons r (c :: u) v (proj1 (IHr u) Hu) Hv).
    + intros H. apply Matches_Star_cons in H.
      destruct H as (u & v & -> & Hu & Hv).
      constructor; [now apply IHr|exact Hv].
Qed.

(** The derivative matcher decides matching. *)
Lemma test_Matches (r : Waitlist.regex) (s : Waitlist.jsstring) :
  Waitlist.test r s = true <-> Matches r s.
Proof.
  revert r. induction s as [|c s IH]; intros r; cbn [Waitlist.test].
  - apply nullable_Matches.
  - rewrite IH. apply deriv_Matches.
Qed.

Lemma Matches_Star_class (p : N -> bool) (s : Waitlist.jsstring) :
  Matches (Waitlist.Star (Waitlist.Class p)) s
  <-> Forall (fun c => p c = true) s.
Proof.
  split.
  - induction s as [|c s IH]; intros H; [constructor|].
    apply Matches_Star_cons in H. destruct H as (u & v & -> & Hu & Hv).
    inversion Hu; subst. cbn in *. constructor; [assumption|now apply IH].
  - induction 1 as [|c s Hc _ IH]; [constructor|].
    exact (MStarCons _ [c] s (MClass p c Hc) IH).
Qed.

Lemma Matches_Plus_class (p : N -> bool) (s : Waitlist.jsstring) :
  Matches (Waitlist.Plus (Waitlist.Class p)) s
  <-> s <> [] /\ Forall (fun c => p c = true) s.
Proof.
  unfold Waitlist.Plus. split.
  - intros H. inversion H as [| |r' s' u v Hu Hv E1 E2| | | |]; subst.
    inversion Hu; subst. cbn. split; [discriminate|].
    constructor; [assumption|now apply Matches_Star_class].
  - intros [Hne Hall]. destruct s as [|c s]; [now elim Hne|].
    inversion Hall; subst.
    exact (MSeq _ _ [c] s (MClass p c ltac:(assumption))
                (proj2 (Matches_Star_class p s) ltac:(assumption))).
Qed.

Lemma Matches_Seq_inv (r t : Waitlist.regex) (s : Waitlist.jsstring) :
  Matches (Waitlist.Seq r t) s
  <-> exists u v, s = u ++ v /\ Matches r u /\ Matches t v.
Proof.
  split.
  - intros H. inversion H; subst. eexists; eexists. now repeat split.
  - intros (u & v & -> & Hu & Hv). now constructor.
Qed.

Lemma Matches_Class_inv (p : N -> bool) (s : Waitlist.jsstring) :
  Matches (Waitlist.Class p) s <-> exists c, s = [c] /\ p c = true.
Proof.
  split.
  - intros H. inversion H; subst. eexists. now split.
  - intros (c & -> & Hc). now constructor.
Qed.

Lemma EMAIL_REGEX_Matches (s : Waitlist.jsstring) :
  Matches Waitlist.EMAIL_REGEX s
  <-> exists u v w,
        s = u ++ [Waitlist.at_sign] ++ v ++ [Waitlist.full_stop] ++ w
        /\ email_part u /\ email_part v /\ email_part w.
Proof.
  unfold Waitlist.EMAIL_REGEX, email_part. split.
  - intros H.
    apply Matches_Seq_inv in H. destruct H as (u & s1 & -> & Hu & H).
    apply Matches_Seq_inv in H. destruct H as (a & s2 & -> & Ha & H).
    apply Matches_Seq_inv in H. destruct H as (v & s3 & -> & Hv & H).
    apply Matches_Seq_inv in H. destruct H as (d & w & -> & Hd & Hw).
    apply Matches_Class_inv in Ha. destruct Ha as (ca & -> & Ea).
    apply Matches_Class_inv in Hd. destruct Hd as (cd & -> & Ed).
    apply N.eqb_eq in Ea. apply N.eqb_eq in Ed. subst ca cd.
    apply Matches_Plus_class in Hu, Hv, Hw.
    exists u, v, w. now repeat split.
  - intros (u & v & w & -> & Hu & Hv & Hw).
    apply Matches_Plus_class in Hu, Hv, Hw.
    apply Matches_Seq_inv. exists u, ([Waitlist.at_sign] ++ v ++ [Waitlist.full_stop] ++ w).
    split; [reflexivity|]. split; [exact Hu|].
    apply Matches_Seq_inv. exists [Waitlist.at_sign], (v ++ [Waitlist.full_stop] ++ w).
    split; [reflexivity|]. split; [now constructor|].
    apply Matches_Seq_inv. exists v, ([Waitlist.full_stop] ++ w).
    split; [reflexivity|]. split; [exact Hv|].
    apply Matches_Seq_inv. exists [Waitlist.full_stop], w.
    split; [reflexivity|]. split; [now constructor|exact Hw].
Qed.

Lemma part_no_at (u : Waitlist.jsstring) :
  Forall (fun c => Waitlist.not_space_or_at c = true) u ->
  Waitlist.includes_at u = false
  /\ existsb Waitlist.is_space u = false.
Proof.
  induction 1 as [|c u Hc _ [IH1 IH2]]; [split; reflexivity|].
  unfold Waitlist.not_space_or_at in Hc.
  apply negb_true_iff, orb_false_iff in Hc. destruct Hc as [Hs Ha].
  unfold Waitlist.includes_at in *. cbn [existsb].
  rewrite Hs, Ha, IH1, IH2. split; reflexivity.
Qed.

(** X25. [EMAIL_REGEX] accepts exactly the strings of the form
    [local@domain.tail] whose three parts are non-empty and free of white
    space and [@].  So an accepted email has no white space, exactly one
    [@] and at least five code units. *)
Theorem EMAIL_REGEX_accepts (s : Waitlist.jsstring) :
  (Waitlist.test Waitlist.EMAIL_REGEX s = true
   <-> exists u v w,
         s = u ++ [Waitlist.at_sign] ++ v ++ [Waitlist.full_stop] ++ w
         /\ email_part u /\ email_part v /\ email_part w)
  /\ (Waitlist.test Waitlist.EMAIL_REGEX s = true ->
      existsb Waitlist.is_space s = false
      /\ length (filter (fun c => (c =? Waitlist.at_sign)%N) s) = 1%nat
      /\ (5 <= length s)%nat).
Proof.
  split; [rewrite test_Matches; apply EMAIL_REGEX_Matches|].
  rewrite test_Matches, EMAIL_REGEX_Matches.
  intros (u & v & w & -> & [Hu Fu] & [Hv Fv] & [Hw Fw]).
  destruct (part_no_at u Fu) as [Au Su].
  destruct (part_no_at v Fv) as [Av Sv].
  destruct (part_no_at w Fw) as [Aw Sw].
  assert (forall x, Waitlist.includes_at x = false ->
            filter (fun c => (c =? Waitlist.at_sign)%N) x = []) as Hnone.
  { intros x. unfold Waitlist.includes_at.
    induction x as [|c x IH]; [reflexivity|]. cbn [existsb filter].
    intros H. apply orb_false_iff in H. destruct H as [-> H]. now apply IH. }
  split; [|split].
  - rewrite !existsb_app, Su, Sv, Sw. reflexivity.
  - rewrite !filter_app, (Hnone u Au), (Hnone v Av), (Hnone w Aw). reflexivity.
  - rewrite !length_app. cbn [length].
    destruct u; [now elim Hu|]. destruct v; [now elim Hv|].
    destruct w; [now elim Hw|]. cbn [length]. lia.
Qed.

Lemma EMAIL_REGEX_accepts_witness :
  existsb Waitlist.is_space sample_email = false
  /\ length (filter (fun c => (c =? Waitlist.at_sign)%N) sample_email) = 1%nat
  /\ (5 <= length sample_email)%nat.
Proof.
  apply (proj2 (EMAIL_REGEX_accepts sample_email)). reflexivity.
Defined.

(** ** The waitlist route and the click that calls it *)

Lemma jsstring_eqb_eq (s t : Waitlist.jsstring) :
  Waitlist.jsstring_eqb s t = true <-> s = t.
Proof.
  unfold Waitlist.jsstring_eqb. split.
  - revert t. induction s as [|c s IH]; intros [|d t] H; cbn in H;
      try reflexivity; try discriminate.
    apply andb_true_iff in H. destruct H as [Hl H].
    apply andb_true_iff in H. destruct H as [Hc H].
    apply N.eqb_eq in Hc. subst d. f_equal. apply IH.
    now rewrite Hl, H.
  - intros <-. induction s as [|c s IH]; [reflexivity|].
    cbn. apply andb_true_iff in IH. destruct IH as [Hl H].
    now rewrite Hl, N.eqb_refl, H.
Qed.

Lemma valid_email_has_at (s : Waitlist.jsstring) :
  Waitlist.test Waitlist.EMAIL_REGEX s = true ->
  Waitlist.includes_at s = true /\ s <> [].
Proof.
  rewrite test_Matches, EMAIL_REGEX_Matches.
  intros (u & v & w & -> & [Hu _] & _). split.
  - unfold Waitlist.includes_at. rewrite existsb_app. cbn.
    apply orb_true_r.
  - destruct u; [now elim Hu|discriminate].
Qed.

Lemma POST_string (s : Waitlist.jsstring) (insert : Waitlist.json -> bool) :
  Waitlist.POST (Some (Waitlist.request_of s)) insert
  = if Waitlist.includes_at s
    then if insert (Waitlist.JString s)
         then {| Waitlist.status := 200; Waitlist.body := Waitlist.Success;
                 Waitlist.inserted := Some (Waitlist.JString s) |}
         else Waitlist.failed (Some (Waitlist.JString s))
    else {| Waitlist.status := 400; Waitlist.body := Waitlist.InvalidEmail;
            Waitlist.inserted := None |}.
Proof.
  unfold Waitlist.POST, Waitlist.request_of.
  cbn [Waitlist.destructure_email Waitlist.lookup].
  assert (Waitlist.jsstring_eqb Waitlist.email_key Waitlist.email_key = true)
    as -> by reflexivity.
  cbn [Waitlist.falsy Waitlist.includes].
  destruct s as [|c s]; [reflexivity|].
  destruct (Waitlist.includes_at (c :: s)); reflexivity.
Qed.

(** X26. The route answers 200, 400 or 500.  It attempts the [INSERT] only
    with a value that passed its check, which is a string containing [@] or,
    since arrays have an [includes] method too, an array holding the string
    ["@"]; it answers 200 only when that [INSERT] succeeded and 400 only
    without attempting it.  A body [{ email: s }] with a string [s] is
    answered 400 exactly when [s] has no [@]. *)
Theorem POST_outcomes (request : option Waitlist.json)
    (insert : Waitlist.json -> bool) :
  let o := Waitlist.POST request insert in
  (Waitlist.status o = 200%nat \/ Waitlist.status o = 400%nat
   \/ Waitlist.status o = 500%nat)
  /\ (forall e, Waitlist.inserted o = Some e ->
        (exists s, e = Waitlist.JString s /\ Waitlist.includes_at s = true)
        \/ (exists l, e = Waitlist.JArray l
                      /\ In (Waitlist.JString [Waitlist.at_sign]) l))
  /\ (Waitlist.status o = 200%nat ->
        exists e, Waitlist.inserted o = Some e /\ insert e = true
                  /\ Waitlist.body o = Waitlist.Success)
  /\ (Waitlist.status o = 400%nat ->
        Waitlist.inserted o = None /\ Waitlist.body o = Waitlist.InvalidEmail)
  /\ (forall s,
        Waitlist.status (Waitlist.POST (Some (Waitlist.request_of s)) insert)
        = 400%nat
        <-> Waitlist.includes_at s = false).
Proof.
  intros o. subst o.
  assert (forall l,
            existsb (fun e => match e with
                              | Waitlist.JString s =>
                                  Waitlist.jsstring_eqb s [Waitlist.at_sign]
                              | _ => false
                              end) l = true ->
            In (Waitlist.JString [Waitlist.at_sign]) l) as Harr.
  { intros l H. apply existsb_exists in H. destruct H as (e & He & Hs).
    destruct e; try discriminate. apply jsstring_eqb_eq in Hs. now subst. }
  split; [|split; [|split; [|split]]].
  - unfold Waitlist.POST.
    destruct request as [value|]; [|now right; right].
    destruct (Waitlist.destructure_email value) as [t|email]; [now right; right|].
    destruct (Waitlist.falsy email); [now right; left|].
    destruct email as [e|]; [|now right; left].
    destruct (Waitlist.includes e) as [t|[|]];
      [now right; right| |now right; left].
    destruct (insert e); [now left|now right; right].
  - intros e. unfold Waitlist.POST.
    destruct request as [value|]; [|discriminate].
    destruct (Waitlist.destructure_email value) as [t|email]; [discriminate|].
    destruct (Waitlist.falsy email); [discriminate|].
    destruct email as [e'|]; [|discriminate].
    destruct (Waitlist.includes e') as [t|[|]] eqn:I;
      [discriminate| |discriminate].
    assert (Some e' = Some e ->
            (exists s, e = Waitlist.JString s /\ Waitlist.includes_at s = true)
            \/ (exists l, e = Waitlist.JArray l
                          /\ In (Waitlist.JString [Waitlist.at_sign]) l)) as K.
    { intros [= <-]. destruct e'; cbn [Waitlist.includes] in I;
        try discriminate I.
      - left. eexists. split; [reflexivity|]. congruence.
      - right. eexists. split; [reflexivity|]. apply Harr. congruence. }
    destruct (insert e'); exact K.
  - unfold Waitlist.POST.
    destruct request as [value|]; [|discriminate].
    destruct (Waitlist.destructure_email value) as [t|email]; [discriminate|].
    destruct (Waitlist.falsy email); [discriminate|].
    destruct email as [e'|]; [|discriminate].
    destruct (Waitlist.includes e') as [t|[|]]; [discriminate| |discriminate].
    destruct (insert e') eqn:I; [|discriminate].
    intros _. exists e'. now repeat split.
  - unfold Waitlist.POST.
    destruct request as [value|]; [|discriminate].
    destruct (Waitlist.destructure_email value) as [t|email]; [discriminate|].
    destruct (Waitlist.falsy email); [now split|].
    destruct email as [e'|]; [|now split].
    destruct (Waitlist.includes e') as [t|[|]]; [discriminate| |now split].
    destruct (insert e'); discriminate.
  - intros s. rewrite POST_string.
    destruct (Waitlist.includes_at s); [|now split].
    destruct (insert (Waitlist.JString s)); split; discriminate.
Qed.

Lemma POST_outcomes_witness :
  exists e,
    Waitlist.inserted
      (Waitlist.POST (Some (Waitlist.request_of sample_email)) (fun _ => true))
    = Some e
    /\ (fun _ : Waitlist.json => true) e = true.
Proof.
  destruct (POST_outcomes (Some (Waitlist.request_of sample_email))
              (fun _ => true)) as (_ & _ & H & _).
  destruct (H eq_refl) as (e & He & Hi & _).
  exists e. split; [exact He|exact Hi].
Defined.

(** An array is accepted in place of a string. *)
Example POST_accepts_array :
  Waitlist.status
    (Waitlist.POST
       (Some (Waitlist.JObject
                [(Waitlist.email_key,
                  Waitlist.JArray [Waitlist.JString [Waitlist.at_sign]])]))
       (fun _ => true))
  = 200%nat.
Proof. reflexivity. Qed.

(** X27. Joining the waitlist, the network not failing.  On an email that
    [EMAIL_REGEX] rejects the click does nothing: the form is unchanged and
    no request is sent.  On an accepted email the route never answers 400,
    it attempts to insert exactly that email, and the form ends in [success]
    with the email field cleared (which disables the button again) when the
    insert succeeds and in [error] with the email kept when it fails. *)
Theorem join_waitlist (form : Waitlist.Form) (insert : Waitlist.json -> bool) :
  let e := Waitlist.JString (Waitlist.email form) in
  (Waitlist.isValidEmail form = false ->
     Waitlist.join form insert = (form, None))
  /\ (Waitlist.isValidEmail form = true ->
      exists res form',
        Waitlist.join form insert = (form', Some res)
        /\ Waitlist.status res <> 400%nat
        /\ Waitlist.inserted res = Some e
        /\ (insert e = true ->
            Waitlist.status res = 200%nat
            /\ form' = {| Waitlist.email := [];
                          Waitlist.waitlistStatus := Waitlist.success |}
            /\ Waitlist.isValidEmail form' = false)
        /\ (insert e = false ->
            Waitlist.status res = 500%nat
            /\ form' = {| Waitlist.email := Waitlist.email form;
                          Waitlist.waitlistStatus := Waitlist.error |})).
Proof.
  intros e. subst e. unfold Waitlist.join, Waitlist.handleWaitlist_send. split.
  - intros ->. reflexivity.
  - intros Hv. rewrite Hv. cbn [negb].
    unfold Waitlist.isValidEmail in Hv.
    destruct (valid_email_has_at _ Hv) as [Hat _].
    rewrite POST_string, Hat.
    destruct (insert (Waitlist.JString (Waitlist.email form))) eqn:I.
    + eexists; eexists. split; [reflexivity|].
      cbn [Waitlist.status Waitlist.inserted Waitlist.handleWaitlist_settle].
      split; [discriminate|]. split; [reflexivity|].
      split; [intros _; repeat split|discriminate].
    + eexists; eexists. split; [reflexivity|].
      cbn [Waitlist.status Waitlist.inserted Waitlist.failed
           Waitlist.handleWaitlist_settle].
      split; [discriminate|]. split; [reflexivity|].
      split; [discriminate|intros _; repeat split].
Qed.

Lemma join_waitlist_witness :
  exists res form',
    Waitlist.join sample_form (fun _ => true) = (form', Some res)
    /\ Waitlist.status res <> 400%nat.
Proof.
  destruct (proj2 (join_waitlist sample_form (fun _ => true)) eq_refl)
    as (res & form' & Hj & Hs & _).
  exists res, form'. split; [exact Hj|exact Hs].
Defined.

(** * The engine in binary64 *)

(** ** Facts about binary64 numbers *)

Lemma price_guard_gtb64 (x : Float64.number) :
  negb (Float64.truthy x) || (x <=? Float64.of_Z 0)%f64
  = negb (x >? Float64.of_Z 0)%f64.
Proof. destruct x as [s|s| |s m e]; try destruct s; reflexivity. Qed.

Lemma gtb_zero_not_leb64 (x : Float64.number) :
  (x >? Float64.of_Z 0)%f64 = true -> (x <=? Float64.of_Z 0)%f64 = false.
Proof. destruct x as [s|s| |s m e]; try destruct s; easy. Qed.

Lemma leb_zero_not_gtb64 (x : Float64.number) :
  (x <=? Float64.of_Z 0)%f64 = true -> (x >? Float64.of_Z 0)%f64 = false.
Proof. destruct x as [s|s| |s m e]; try destruct s; easy. Qed.

(** Subtracting [+0] changes nothing, whatever the number. *)
Lemma sub_zero64 (x : Float64.number) : (x - Float64.of_Z 0)%f64 = x.
Proof. destruct x as [s|s| |s m e]; try destruct s; reflexivity. Qed.

(** The literals of the source and a few values of [Math.round] and
    [Math.ceil], as binary64 has them: [0.01] is [5764607523034235 * 2^-59],
    and the product [0.1 * 0.1] is the next number up. *)
Example literals :
  Float64.decimal 1 100 = S754_finite false 5764607523034235 (-59)
  /\ (Float64.decimal 10 100 * Float64.decimal 10 100)%f64
     = S754_finite false 5764607523034236 (-59)
  /\ Float64.of_Z 100 = S754_finite false 7036874417766400 (-46)
  /\ (Float64.decimal 3 10 - Float64.decimal 1 10)%f64
     = S754_finite false 7205759403792793 (-55).
Proof. repeat split; vm_compute; reflexivity. Qed.

Example rounding_to_integers :
  Float64.round (Float64.decimal 25 10) = Float64.of_Z 3
  /\ Float64.round (Float64.of_Z 0 - Float64.decimal 25 10)%f64
     = Float64.of_Z (-2)
  /\ Float64.round (Float64.of_Z 0 - Float64.decimal 5 10)%f64
     = S754_zero true
  /\ Float64.round (S754_finite false 9007199254740991 (-54))
     = Float64.of_Z 0
  /\ Float64.ceil (Float64.decimal 21 10) = Float64.of_Z 3
  /\ Float64.ceil (Float64.of_Z 0 - Float64.decimal 21 10)%f64
     = Float64.of_Z (-2)
  /\ Float64.ceil (Float64.of_Z 0 - Float64.decimal 5 10)%f64
     = S754_zero true.
Proof. repeat split; vm_compute; reflexivity. Qed.

(** ** Unit economics: [results] *)

(** C1. When [sellingPrice > 0], [profitPerUnit] is the selling price minus
    cogs, fixed fees per unit, processing fees
    ([sellingPrice * (feesPercent / 100) + feesCents / 100]), tax cost,
    refund cost and other costs, each percentage taken of the selling price
    and every operation being the binary64 one, in this order.
    In the edition without a [refundPercent] field the refund cost is zero;
    in the edition with the field it is [sellingPrice * (refundPercent / 100)]. *)
Theorem profitPerUnit_formula :
  (forall c : Calculator64.CalcInputs,
      let sp := Calculator64.sellingPrice c in
      (sp >? Float64.of_Z 0)%f64 = true ->
      Calculator64.Result.profitPerUnit (Calculator64.results c)
      = (sp - Calculator64.cogs c - Calculator64.fixedFeesPerUnit c
         - (sp * (Calculator64.feesPercent c / Float64.of_Z 100)
            + Calculator64.feesCents c / Float64.of_Z 100)
         - sp * (Calculator64.taxPercent c / Float64.of_Z 100)
         - Float64.of_Z 0
         - sp * (Calculator64.otherCostsPercent c / Float64.of_Z 100))%f64)
  /\
  (forall c : CalculatorRefund64.CalcInputs,
      let sp := CalculatorRefund64.sellingPrice c in
      (sp >? Float64.of_Z 0)%f64 = true ->
      CalculatorRefund64.Result.profitPerUnit (CalculatorRefund64.results c)
      = (sp - CalculatorRefund64.cogs c - CalculatorRefund64.fixedFeesPerUnit c
         - (sp * (CalculatorRefund64.feesPercent c / Float64.of_Z 100)
            + CalculatorRefund64.feesCents c / Float64.of_Z 100)
         - sp * (CalculatorRefund64.taxPercent c / Float64.of_Z 100)
         - sp * (CalculatorRefund64.refundPercent c / Float64.of_Z 100)
         - sp * (CalculatorRefund64.otherCostsPercent c / Float64.of_Z 100))%f64).
Proof.
  split; intros c sp Hsp; subst sp.
  - unfold Calculator64.results. rewrite price_guard_gtb64, Hsp. cbn [negb].
    cbv zeta. cbn [Calculator64.Result.profitPerUnit].
    now rewrite sub_zero64.
  - unfold CalculatorRefund64.results. rewrite price_guard_gtb64, Hsp.
    reflexivity.
Qed.

Lemma profitPerUnit_formula_witness :
  ((Calculator64.sellingPrice default_inputs64 >? Float64.of_Z 0)%f64 = true
   /\ Calculator64.Result.profitPerUnit (Calculator64.results default_inputs64)
      = Float64.decimal 3825 100)
  /\
  ((CalculatorRefund64.sellingPrice default_inputs_refund64 >? Float64.of_Z 0)%f64
   = true
   /\ CalculatorRefund64.Result.profitPerUnit
        (CalculatorRefund64.results default_inputs_refund64)
      = Float64.decimal 3325 100).
Proof.
  split; (split; [reflexivity|]).
  - rewrite (proj1 profitPerUnit_formula default_inputs64 eq_refl).
    vm_compute. reflexivity.
  - rewrite (proj2 profitPerUnit_formula default_inputs_refund64 eq_refl).
    vm_compute. reflexivity.
Defined.

(** The first edition at a price of 30 and a unit cost of 28.83: exact
    arithmetic would give a profit per unit of zero, the code gives [2^-49]
    (printed [1.7763568394002505e-15]) and, from it, a breakeven ROAS of
    [30 * 2^49]. *)
Example thin_profit :
  Calculator64.results thin_inputs64
  = {| Calculator64.Result.hasSellingPrice := true;
       Calculator64.Result.breakevenRoas := S754_finite false 8444249301319680 1;
       Calculator64.Result.breakevenUnits := Float64.of_Z 0;
       Calculator64.Result.profitPerUnit := S754_finite false 4503599627370496 (-101);
       Calculator64.Result.hasAdSpend := false |}.
Proof. vm_compute. reflexivity. Qed.

(** The result of the first edition at a positive price, field by field. *)
Lemma results_with_price64 (c : Calculator64.CalcInputs) :
  let sp := Calculator64.sellingPrice c in
  let profitPerUnit :=
    (sp - Calculator64.cogs c - Calculator64.fixedFeesPerUnit c
     - (sp * (Calculator64.feesPercent c / Float64.of_Z 100)
        + Calculator64.feesCents c / Float64.of_Z 100)
     - sp * (Calculator64.taxPercent c / Float64.of_Z 100)
     - sp * (Calculator64.otherCostsPercent c / Float64.of_Z 100))%f64 in
  let fixedCosts :=
    (Calculator64.adSpend c + Calculator64.monthlyOverhead c)%f64 in
  (sp >? Float64.of_Z 0)%f64 = true ->
  Calculator64.results c
  = {| Calculator64.Result.hasSellingPrice := true;
       Calculator64.Result.breakevenRoas :=
         if (profitPerUnit >? Float64.of_Z 0)%f64
         then (sp / profitPerUnit)%f64 else Float64.of_Z 0;
       Calculator64.Result.breakevenUnits :=
         if (profitPerUnit >? Float64.of_Z 0)%f64
            && (fixedCosts >? Float64.of_Z 0)%f64
         then Float64.ceil (fixedCosts / profitPerUnit) else Float64.of_Z 0;
       Calculator64.Result.profitPerUnit := profitPerUnit;
       Calculator64.Result.hasAdSpend :=
         (Calculator64.adSpend c >? Float64.of_Z 0)%f64 |}.
Proof.
  intros sp ppu fc Hsp.
  unfold Calculator64.results. fold sp. rewrite price_guard_gtb64, Hsp.
  reflexivity.
Qed.

(** C2. When [sellingPrice > 0], with [profitPerUnit] the value computed
    from the inputs and [fixedCosts = adSpend + monthlyOverhead]: the result
    reports that [profitPerUnit]; [breakevenRoas] is
    [sellingPrice / profitPerUnit] if [profitPerUnit > 0] and [0] otherwise;
    [breakevenUnits] is [ceil (fixedCosts / profitPerUnit)] if
    [profitPerUnit > 0] and [fixedCosts > 0], and [0] otherwise.  In
    particular both are [0] when [profitPerUnit <= 0]. *)
Theorem breakeven_outputs (c : Calculator64.CalcInputs) :
  let sp := Calculator64.sellingPrice c in
  let profitPerUnit :=
    (sp - Calculator64.cogs c - Calculator64.fixedFeesPerUnit c
     - (sp * (Calculator64.feesPercent c / Float64.of_Z 100)
        + Calculator64.feesCents c / Float64.of_Z 100)
     - sp * (Calculator64.taxPercent c / Float64.of_Z 100)
     - sp * (Calculator64.otherCostsPercent c / Float64.of_Z 100))%f64 in
  let fixedCosts :=
    (Calculator64.adSpend c + Calculator64.monthlyOverhead c)%f64 in
  (sp >? Float64.of_Z 0)%f64 = true ->
  Calculator64.results c
  = {| Calculator64.Result.hasSellingPrice := true;
       Calculator64.Result.breakevenRoas :=
         if (profitPerUnit >? Float64.of_Z 0)%f64
         then (sp / profitPerUnit)%f64 else Float64.of_Z 0;
       Calculator64.Result.breakevenUnits :=
         if (profitPerUnit >? Float64.of_Z 0)%f64
            && (fixedCosts >? Float64.of_Z 0)%f64
         then Float64.ceil (fixedCosts / profitPerUnit) else Float64.of_Z 0;
       Calculator64.Result.profitPerUnit := profitPerUnit;
       Calculator64.Result.hasAdSpend :=
         (Calculator64.adSpend c >? Float64.of_Z 0)%f64 |}
  /\ ((profitPerUnit <=? Float64.of_Z 0)%f64 = true ->
        Calculator64.Result.breakevenRoas (Calculator64.results c)
        = Float64.of_Z 0
        /\ Calculator64.Result.breakevenUnits (Calculator64.results c)
           = Float64.of_Z 0).
Proof.
  intros sp ppu fc Hsp.
  pose proof (results_with_price64 c Hsp) as E. cbv zeta in E.
  fold sp in E. fold ppu in E. fold fc in E.
  split; [exact E|].
  intros Hle. rewrite E.
  cbn [Calculator64.Result.breakevenRoas Calculator64.Result.breakevenUnits].
  rewrite (leb_zero_not_gtb64 _ Hle). split; reflexivity.
Qed.

(** At the starting configuration with an advertising budget of 100 the
    profit per unit is 38.25 and 3 units cover the budget. *)
Lemma breakeven_outputs_witness :
  (Calculator64.sellingPrice default_inputs_ads64 >? Float64.of_Z 0)%f64 = true
  /\ Calculator64.Result.profitPerUnit (Calculator64.results default_inputs_ads64)
     = Float64.decimal 3825 100
  /\ Calculator64.Result.breakevenUnits (Calculator64.results default_inputs_ads64)
     = Float64.of_Z 3.
Proof.
  split; [reflexivity|].
  rewrite (proj1 (breakeven_outputs default_inputs_ads64 eq_refl)).
  split; vm_compute; reflexivity.
Defined.

(** The same outputs in the edition with [refundPercent]. *)
Lemma refund_breakeven_outputs (c : CalculatorRefund64.CalcInputs) :
  let sp := CalculatorRefund64.sellingPrice c in
  let profitPerUnit :=
    (sp - CalculatorRefund64.cogs c - CalculatorRefund64.fixedFeesPerUnit c
     - (sp * (CalculatorRefund64.feesPercent c / Float64.of_Z 100)
        + CalculatorRefund64.feesCents c / Float64.of_Z 100)
     - sp * (CalculatorRefund64.taxPercent c / Float64.of_Z 100)
     - sp * (CalculatorRefund64.refundPercent c / Float64.of_Z 100)
     - sp * (CalculatorRefund64.otherCostsPercent c / Float64.of_Z 100))%f64 in
  let fixedCosts :=
    (CalculatorRefund64.adSpend c + CalculatorRefund64.monthlyOverhead c)%f64 in
  (sp >? Float64.of_Z 0)%f64 = true ->
  CalculatorRefund64.results c
  = {| CalculatorRefund64.Result.hasSellingPrice := true;
       CalculatorRefund64.Result.breakevenRoas :=
         if (profitPerUnit >? Float64.of_Z 0)%f64
         then (sp / profitPerUnit)%f64 else Float64.of_Z 0;
       CalculatorRefund64.Result.breakevenUnits :=
         if (profitPerUnit >? Float64.of_Z 0)%f64
            && (fixedCosts >? Float64.of_Z 0)%f64
         then Float64.ceil (fixedCosts / profitPerUnit) else Float64.of_Z 0;
       CalculatorRefund64.Result.profitPerUnit := profitPerUnit;
       CalculatorRefund64.Result.hasAdSpend :=
         (CalculatorRefund64.adSpend c >? Float64.of_Z 0)%f64 |}.
Proof.
  intros sp ppu fc Hsp.
  unfold CalculatorRefund64.results. fold sp.
  rewrite price_guard_gtb64, Hsp. reflexivity.
Qed.

(** A price that is not positive (zero of either sign, negative, or [NaN])
    gives the invalid sentinel, in binary64 as in exact arithmetic. *)
Lemma sentinel_without_price64 (c : Calculator64.CalcInputs) :
  (Calculator64.sellingPrice c >? Float64.of_Z 0)%f64 = false ->
  Calculator64.results c
  = {| Calculator64.Result.hasSellingPrice := false;
       Calculator64.Result.breakevenRoas := Float64.of_Z 0;
       Calculator64.Result.breakevenUnits := Float64.of_Z 0;
       Calculator64.Result.profitPerUnit := Float64.of_Z 0;
       Calculator64.Result.hasAdSpend := false |}.
Proof.
  intros H. unfold Calculator64.results. now rewrite price_guard_gtb64, H.
Qed.

(** ** Bundle tiers: [bundleResults] *)

(** C8. With bundle mode on, the result at each position is computed from
    the tier at that position and the configuration alone:
    [totalCogs = cogsPerUnit * quantity];
    [profitPerOrder = price - totalCogs - price * (feesPercent / 100)
                      - price * (otherCostsPercent / 100)];
    [breakevenRoas = price / profitPerOrder] and
    [breakevenOrders = ceil (adSpend / profitPerOrder)] when
    [profitPerOrder > 0], both [0] otherwise; every operation is the
    binary64 one.  The same tier placed anywhere in any other list of tiers
    gets the same result. *)
Theorem bundleResults_per_tier (tiers : list BundleCalculator64.BundleTier)
    (inputs : BundleCalculator64.CalcInputs) (i : nat)
    (tier : BundleCalculator64.BundleTier) :
  let price := BundleCalculator64.price tier in
  let totalCogs :=
    (BundleCalculator64.cogsPerUnit tier * BundleCalculator64.quantity tier)%f64 in
  let profitPerOrder :=
    (price - totalCogs
     - price * (BundleCalculator64.feesPercent inputs / Float64.of_Z 100)
     - price * (BundleCalculator64.otherCostsPercent inputs / Float64.of_Z 100))%f64 in
  let r :=
    {| BundleCalculator64.BundleResults.quantity :=
         BundleCalculator64.quantity tier;
       BundleCalculator64.BundleResults.price := price;
       BundleCalculator64.BundleResults.totalCogs := totalCogs;
       BundleCalculator64.BundleResults.profitPerOrder := profitPerOrder;
       BundleCalculator64.BundleResults.breakevenRoas :=
         if (profitPerOrder >? Float64.of_Z 0)%f64
         then (price / profitPerOrder)%f64 else Float64.of_Z 0;
       BundleCalculator64.BundleResults.breakevenOrders :=
         if (profitPerOrder >? Float64.of_Z 0)%f64
         then Float64.ceil (BundleCalculator64.adSpend inputs / profitPerOrder)
         else Float64.of_Z 0 |} in
  nth_error tiers i = Some tier ->
  nth_error (BundleCalculator64.bundleResults true tiers inputs) i = Some r
  /\ (forall tiers' j, nth_error tiers' j = Some tier ->
        nth_error (BundleCalculator64.bundleResults true tiers' inputs) j
        = Some r)
  /\ length (BundleCalculator64.bundleResults true tiers inputs) = length tiers.
Proof.
  intros price totalCogs profitPerOrder r Hi.
  unfold BundleCalculator64.bundleResults. cbn [negb]. cbv zeta.
  split; [|split].
  - erewrite map_nth_error; [reflexivity|exact Hi].
  - intros tiers' j Hj. erewrite map_nth_error; [reflexivity|exact Hj].
  - apply length_map.
Qed.

(** Two units at 70 with a unit cost of 18 and 3% fees: the code reports a
    profit per order of [31.9] and 2 orders to recover a budget of 50. *)
Lemma bundleResults_per_tier_witness :
  exists r,
    nth_error
      (BundleCalculator64.bundleResults true bundle_default_tiers64
         bundle_default_inputs64) 1
    = Some r
    /\ BundleCalculator64.BundleResults.totalCogs r = Float64.of_Z 36
    /\ BundleCalculator64.BundleResults.profitPerOrder r = Float64.decimal 319 10
    /\ BundleCalculator64.BundleResults.breakevenOrders r = Float64.of_Z 2.
Proof.
  destruct (bundleResults_per_tier bundle_default_tiers64 bundle_default_inputs64 1
              {| BundleCalculator64.quantity := Float64.of_Z 2;
                 BundleCalculator64.price := Float64.of_Z 70;
                 BundleCalculator64.cogsPerUnit := Float64.of_Z 18 |} eq_refl)
    as (Hr & _).
  eexists. split; [exact Hr|].
  repeat split; vm_compute; reflexivity.
Defined.

(** One unit at 40 with a unit cost of 18, fees of 3% and other costs of 4%,
    against a budget of 134.4: the profit per order comes out just below
    19.2, so the code asks for 8 orders where exact arithmetic asks for 7. *)
Example bundle_orders_rounding :
  option_map BundleCalculator64.BundleResults.breakevenOrders
    (nth_error
       (BundleCalculator64.bundleResults true bundle_default_tiers64
          {| BundleCalculator64.sellingPrice := Float64.of_Z 40;
             BundleCalculator64.cogs := Float64.of_Z 18;
             BundleCalculator64.adSpend := Float64.decimal 1344 10;
             BundleCalculator64.feesPercent := Float64.of_Z 3;
             BundleCalculator64.otherCostsPercent := Float64.of_Z 4;
             BundleCalculator64.fixedFeesPerUnit := Float64.of_Z 0;
             BundleCalculator64.monthlyOverhead := Float64.of_Z 0;
             BundleCalculator64.unitsSold := Float64.of_Z 0 |}) 0)
  = Some (Float64.of_Z 8).
Proof. vm_compute. reflexivity. Qed.

Lemma bundleResults_off64 (tiers : list BundleCalculator64.BundleTier)
    (inputs : BundleCalculator64.CalcInputs) :
  BundleCalculator64.bundleResults false tiers inputs = [].
Proof. reflexivity. Qed.

(** ** The single-point calculation of the bundle edition *)

(** The claim as worded fails.  It reads: with [sellingPrice > 0], the
    breakeven ROAS is [0] when [profitPerUnit > 0] and [adSpend = 0], and the
    result is the invalid sentinel (not valid, every number zero) whenever
    [cogs >= sellingPrice] or [profitPerUnit <= 0].  At [loss_inputs64] the
    result is invalid but reports a profit per unit of [-1]. *)
Lemma loss_is_not_the_zero_sentinel :
  ~ (forall c : BundleCalculator64.CalcInputs,
        let sp := BundleCalculator64.sellingPrice c in
        let profitPerUnit :=
          (sp - BundleCalculator64.cogs c - BundleCalculator64.fixedFeesPerUnit c
           - sp * ((BundleCalculator64.feesPercent c
                    + BundleCalculator64.otherCostsPercent c)
                   / Float64.of_Z 100))%f64 in
        let r := BundleCalculator64.results c in
        (sp >? Float64.of_Z 0)%f64 = true ->
        ((profitPerUnit >? Float64.of_Z 0)%f64 = true ->
         strict_eqb64 (BundleCalculator64.adSpend c) (Float64.of_Z 0) = true ->
         strict_eqb64 (BundleCalculator64.Result.breakevenRoas r) (Float64.of_Z 0)
         = true)
        /\ ((BundleCalculator64.cogs c >=? sp)%f64 = true
            \/ (profitPerUnit <=? Float64.of_Z 0)%f64 = true ->
            BundleCalculator64.Result.isValid r = false
            /\ strict_eqb64 (BundleCalculator64.Result.breakevenRoas r)
                 (Float64.of_Z 0) = true
            /\ strict_eqb64 (BundleCalculator64.Result.breakevenUnits r)
                 (Float64.of_Z 0) = true
            /\ strict_eqb64 (BundleCalculator64.Result.profitPerUnit r)
                 (Float64.of_Z 0) = true)).
Proof.
  intros H.
  destruct (H loss_inputs64 eq_refl) as [_ Hs].
  destruct (Hs (or_intror eq_refl)) as (_ & _ & _ & Hp).
  vm_compute in Hp. discriminate Hp.
Qed.

Example loss_result :
  BundleCalculator64.results loss_inputs64
  = {| BundleCalculator64.Result.isValid := false;
       BundleCalculator64.Result.breakevenRoas := Float64.of_Z 0;
       BundleCalculator64.Result.breakevenUnits := Float64.of_Z 0;
       BundleCalculator64.Result.profitPerUnit := Float64.of_Z (-1) |}.
Proof. vm_compute. reflexivity. Qed.

(** C10, as the code has it.  With [sellingPrice > 0] and [profitPerUnit]
    the value computed from the inputs, the result is one of three records.
    When [cogs >= sellingPrice] it is the all-zero invalid sentinel.
    Otherwise, when [profitPerUnit <= 0] it is invalid with a breakeven ROAS
    and unit count of zero, and reports [profitPerUnit] as computed.
    Otherwise it is valid, reports [profitPerUnit], has
    [breakevenRoas = sellingPrice / profitPerUnit] if [adSpend > 0] and
    [profitPerUnit > 0], and [0] if not, and
    [breakevenUnits = ceil (fixedCosts / profitPerUnit)] if [fixedCosts > 0],
    and [0] if not.  So the breakeven ROAS is [0] whenever the advertising
    budget is not positive, and is positive only when both the profit per
    unit and the advertising budget are. *)
Theorem bundle_results_gates (c : BundleCalculator64.CalcInputs) :
  let sp := BundleCalculator64.sellingPrice c in
  let adSpend := BundleCalculator64.adSpend c in
  let profitPerUnit :=
    (sp - BundleCalculator64.cogs c - BundleCalculator64.fixedFeesPerUnit c
     - sp * ((BundleCalculator64.feesPercent c
              + BundleCalculator64.otherCostsPercent c)
             / Float64.of_Z 100))%f64 in
  let fixedCosts := (adSpend + BundleCalculator64.monthlyOverhead c)%f64 in
  let r := BundleCalculator64.results c in
  (sp >? Float64.of_Z 0)%f64 = true ->
  ((BundleCalculator64.cogs c >=? sp)%f64 = true ->
     r = {| BundleCalculator64.Result.isValid := false;
            BundleCalculator64.Result.breakevenRoas := Float64.of_Z 0;
            BundleCalculator64.Result.breakevenUnits := Float64.of_Z 0;
            BundleCalculator64.Result.profitPerUnit := Float64.of_Z 0 |})
  /\ ((BundleCalculator64.cogs c >=? sp)%f64 = false ->
      (profitPerUnit <=? Float64.of_Z 0)%f64 = true ->
        r = {| BundleCalculator64.Result.isValid := false;
               BundleCalculator64.Result.breakevenRoas := Float64.of_Z 0;
               BundleCalculator64.Result.breakevenUnits := Float64.of_Z 0;
               BundleCalculator64.Result.profitPerUnit := profitPerUnit |})
  /\ ((BundleCalculator64.cogs c >=? sp)%f64 = false ->
      (profitPerUnit <=? Float64.of_Z 0)%f64 = false ->
        r = {| BundleCalculator64.Result.isValid := true;
               BundleCalculator64.Result.breakevenRoas :=
                 if (adSpend >? Float64.of_Z 0)%f64
                    && (profitPerUnit >? Float64.of_Z 0)%f64
                 then (sp / profitPerUnit)%f64 else Float64.of_Z 0;
               BundleCalculator64.Result.breakevenUnits :=
                 if (fixedCosts >? Float64.of_Z 0)%f64
                 then Float64.ceil (fixedCosts / profitPerUnit)
                 else Float64.of_Z 0;
               BundleCalculator64.Result.profitPerUnit := profitPerUnit |})
  /\ ((adSpend >? Float64.of_Z 0)%f64 = false ->
        BundleCalculator64.Result.breakevenRoas r = Float64.of_Z 0)
  /\ ((BundleCalculator64.Result.breakevenRoas r >? Float64.of_Z 0)%f64 = true ->
        (profitPerUnit >? Float64.of_Z 0)%f64 = true
        /\ (adSpend >? Float64.of_Z 0)%f64 = true).
Proof.
  intros sp adSpend ppu fc r Hsp. subst r.
  unfold BundleCalculator64.results. cbv zeta.
  fold sp. fold adSpend. fold ppu. fold fc.
  rewrite (gtb_zero_not_leb64 _ Hsp). cbn [orb].
  destruct (BundleCalculator64.cogs c >=? sp)%f64 eqn:G1.
  - repeat split; try reflexivity; discriminate.
  - destruct (ppu <=? Float64.of_Z 0)%f64 eqn:G2.
    + repeat split; try reflexivity; discriminate.
    + cbn [BundleCalculator64.Result.breakevenRoas].
      split; [discriminate|]. split; [discriminate|].
      split; [reflexivity|]. split.
      * intros ->. reflexivity.
      * destruct (adSpend >? Float64.of_Z 0)%f64;
          destruct (ppu >? Float64.of_Z 0)%f64; cbn [andb];
          try discriminate. now split.
Qed.

(** Without an advertising budget the reported breakeven ROAS is 0 although
    the unit is profitable. *)
Lemma bundle_results_gates_witness :
  (BundleCalculator64.sellingPrice bundle_no_ads64 >? Float64.of_Z 0)%f64 = true
  /\ BundleCalculator64.Result.isValid (BundleCalculator64.results bundle_no_ads64)
     = true
  /\ (BundleCalculator64.Result.profitPerUnit
        (BundleCalculator64.results bundle_no_ads64) >? Float64.of_Z 0)%f64 = true
  /\ BundleCalculator64.Result.breakevenRoas
       (BundleCalculator64.results bundle_no_ads64)
     = Float64.of_Z 0.
Proof.
  split; [reflexivity|].
  destruct (bundle_results_gates bundle_no_ads64 eq_refl)
    as (_ & _ & Hv & Hz & _).
  split; [|split].
  - rewrite Hv; reflexivity.
  - rewrite Hv; reflexivity.
  - apply Hz. reflexivity.
Defined.

(** ** No division by zero *)

Lemma div_checked_pos64 (x y : Float64.number) :
  (y >? Float64.of_Z 0)%f64 = true ->
  Checked.div_checked x y = Some (x / y)%f64.
Proof. destruct y as [s|s| |s m e]; try destruct s; easy. Qed.

Lemma div_checked_cent64 (x y : Float64.number) :
  (y >? Float64.decimal 1 100)%f64 = true ->
  Checked.div_checked x y = Some (x / y)%f64.
Proof.
  destruct y as [s|s| |s m e]; try reflexivity.
  intros H. vm_compute in H. discriminate H.
Qed.

Lemma div_checked_100_64 (x : Float64.number) :
  Checked.div_checked x (Float64.of_Z 100) = Some (x / Float64.of_Z 100)%f64.
Proof. reflexivity. Qed.

Lemma mapM_map {A B : Type} (f : A -> option B) (g : A -> B) (l : list A) :
  (forall a, In a l -> f a = Some (g a)) ->
  Checked.mapM f l = Some (map g l).
Proof.
  induction l as [|a l IH]; intros H; [reflexivity|].
  cbn [Checked.mapM map]. rewrite (H a (or_introl eq_refl)).
  cbn [Checked.bind]. rewrite IH; [reflexivity|].
  intros b Hb. apply H. now right.
Qed.

Lemma results_checked_ok (c : Calculator64.CalcInputs) :
  Checked.results_checked c = Some (Calculator64.results c).
Proof.
  unfold Checked.results_checked, Calculator64.results.
  destruct (negb (Float64.truthy (Calculator64.sellingPrice c))
            || (Calculator64.sellingPrice c <=? Float64.of_Z 0)%f64);
    [reflexivity|].
  rewrite !div_checked_100_64. cbn [Checked.bind]. cbv zeta.
  set (ppu := (_ - _ - _ - _)%f64).
  destruct (ppu >? Float64.of_Z 0)%f64 eqn:Hp; cbn [andb].
  - rewrite !(div_checked_pos64 _ _ Hp).
    destruct (Calculator64.adSpend c + Calculator64.monthlyOverhead c
              >? Float64.of_Z 0)%f64; reflexivity.
  - reflexivity.
Qed.

Lemma marginScenarios_checked_ok (c : Calculator64.CalcInputs) :
  Checked.marginScenarios_checked c = Some (Calculator64.marginScenarios c).
Proof.
  unfold Checked.marginScenarios_checked, Calculator64.marginScenarios.
  apply mapM_map. intros m _. cbv zeta.
  destruct (_ >? Float64.decimal 1 100)%f64 eqn:Hc.
  - rewrite !(div_checked_cent64 _ _ Hc). cbn [Checked.bind].
    rewrite div_checked_100_64. cbn [Checked.bind].
    destruct (Float64.isFinite _);
      [rewrite div_checked_100_64|]; reflexivity.
  - cbn [Checked.bind]. rewrite div_checked_100_64. reflexivity.
Qed.

(** C7. [results] and [marginScenarios] never reach a division by zero: on
    every configuration the evaluation that fails on a zero divisor succeeds
    and returns what the plain evaluation returns.  Degenerate inputs give
    sentinels: a price that is not positive gives the invalid result; with a
    positive price, a profit per unit that is not positive gives a breakeven
    ROAS and unit count of zero; fixed costs that are not positive give a
    unit count of zero; and a target profit that is not above one cent, as
    the code computes it, gives infinite scenario figures. *)
Theorem engine_never_fails (c : Calculator64.CalcInputs) :
  let sp := Calculator64.sellingPrice c in
  let profitPerUnit :=
    (sp - Calculator64.cogs c - Calculator64.fixedFeesPerUnit c
     - (sp * (Calculator64.feesPercent c / Float64.of_Z 100)
        + Calculator64.feesCents c / Float64.of_Z 100)
     - sp * (Calculator64.taxPercent c / Float64.of_Z 100)
     - sp * (Calculator64.otherCostsPercent c / Float64.of_Z 100))%f64 in
  let fixedCosts :=
    (Calculator64.adSpend c + Calculator64.monthlyOverhead c)%f64 in
  Checked.results_checked c = Some (Calculator64.results c)
  /\ Checked.marginScenarios_checked c = Some (Calculator64.marginScenarios c)
  /\ ((sp >? Float64.of_Z 0)%f64 = false ->
        Calculator64.results c
        = {| Calculator64.Result.hasSellingPrice := false;
             Calculator64.Result.breakevenRoas := Float64.of_Z 0;
             Calculator64.Result.breakevenUnits := Float64.of_Z 0;
             Calculator64.Result.profitPerUnit := Float64.of_Z 0;
             Calculator64.Result.hasAdSpend := false |})
  /\ ((sp >? Float64.of_Z 0)%f64 = true ->
      (profitPerUnit >? Float64.of_Z 0)%f64 = false ->
        Calculator64.Result.profitPerUnit (Calculator64.results c) = profitPerUnit
        /\ Calculator64.Result.breakevenRoas (Calculator64.results c)
           = Float64.of_Z 0
        /\ Calculator64.Result.breakevenUnits (Calculator64.results c)
           = Float64.of_Z 0)
  /\ ((fixedCosts >? Float64.of_Z 0)%f64 = false ->
        Calculator64.Result.breakevenUnits (Calculator64.results c)
        = Float64.of_Z 0)
  /\ (forall m, In m Calculator64.TARGET_MARGINS ->
        (sp * m >? Float64.decimal 1 100)%f64 = false ->
        exists s, In s (Calculator64.marginScenarios c)
          /\ Calculator64.Scenario.margin s = m
          /\ Calculator64.Scenario.breakevenRoas s = Float64.infinity
          /\ Calculator64.Scenario.breakevenOrders s = Float64.infinity).
Proof.
  intros sp ppu fc.
  split; [apply results_checked_ok|].
  split; [apply marginScenarios_checked_ok|].
  split; [|split; [|split]].
  - apply sentinel_without_price64.
  - intros Hsp Hp. unfold Calculator64.results. fold sp.
    rewrite price_guard_gtb64, Hsp. cbn [negb]. cbv zeta.
    cbn [Calculator64.Result.profitPerUnit Calculator64.Result.breakevenRoas
         Calculator64.Result.breakevenUnits].
    fold ppu. rewrite Hp. repeat split.
  - intros H. unfold Calculator64.results. fold sp. rewrite price_guard_gtb64.
    destruct (sp >? Float64.of_Z 0)%f64; cbn [negb]; [|reflexivity].
    cbv zeta. cbn [Calculator64.Result.breakevenUnits].
    fold fc. rewrite H, andb_false_r. reflexivity.
  - intros m Hm Hc. eexists. split.
    + unfold Calculator64.marginScenarios. apply in_map. exact Hm.
    + cbv zeta. cbn [Calculator64.Scenario.margin
                     Calculator64.Scenario.breakevenRoas
                     Calculator64.Scenario.breakevenOrders].
      fold sp. rewrite Hc. repeat split.
Qed.

(** At a price of zero the result is the invalid sentinel; at the starting
    configuration, which has no fixed costs, no unit is needed; at a price of
    ten cents the scenario at margin 0 has infinite figures. *)
Lemma engine_never_fails_witness :
  (Calculator64.sellingPrice free_inputs64 >? Float64.of_Z 0)%f64 = false
  /\ Calculator64.Result.hasSellingPrice (Calculator64.results free_inputs64)
     = false
  /\ Calculator64.Result.breakevenUnits (Calculator64.results default_inputs64)
     = Float64.of_Z 0
  /\ exists s, In s (Calculator64.marginScenarios dime_inputs64)
       /\ Calculator64.Scenario.margin s = Float64.of_Z 0
       /\ Calculator64.Scenario.breakevenRoas s = Float64.infinity.
Proof.
  destruct (engine_never_fails free_inputs64) as (_ & _ & Hs & _).
  destruct (engine_never_fails default_inputs64) as (_ & _ & _ & _ & Hu & _).
  destruct (engine_never_fails dime_inputs64) as (_ & _ & _ & _ & _ & Hm).
  split; [reflexivity|]. split; [|split].
  - rewrite Hs; reflexivity.
  - apply Hu. reflexivity.
  - destruct (Hm (Float64.of_Z 0) (or_introl eq_refl) eq_refl)
      as (s & Hin & Hmg & Hr & _).
    exists s. repeat split; assumption.
Defined.

(** ** Margin scenarios: [marginScenarios] *)

(** Rounding a mantissa that is not negative gives a zero, a finite number
    or an infinity of the sign asked for, never [NaN]. *)
Lemma iter_pos_inv {A : Type} (P : A -> Prop) (f : A -> A) :
  (forall x, P x -> P (f x)) -> forall n x, P x -> P (iter_pos f n x).
Proof.
  intros Hf. induction n as [n IH|n IH|]; intros x Hx; cbn [iter_pos].
  - apply IH, IH, Hf, Hx.
  - apply IH, IH, Hx.
  - apply Hf, Hx.
Qed.

Lemma shr_1_nonneg (mrs : shr_record) :
  (0 <= shr_m mrs)%Z -> (0 <= shr_m (shr_1 mrs))%Z.
Proof.
  destruct mrs as [m r s]. destruct m as [|[p|p|]|[p|p|]]; cbn; lia.
Qed.

Lemma shr_fexp_nonneg (m e : Z) (l : location) :
  (0 <= m)%Z ->
  (0 <= shr_m (fst (shr_fexp Float64.prec Float64.emax m e l)))%Z.
Proof.
  intros Hm. unfold shr_fexp, shr.
  assert (H0 : (0 <= shr_m (shr_record_of_loc m l))%Z)
    by (destruct l as [|[ | | ]]; exact Hm).
  destruct (fexp Float64.prec Float64.emax (Zdigits2 m + e) - e)%Z;
    cbn [fst]; try exact H0.
  apply iter_pos_inv; [exact shr_1_nonneg|exact H0].
Qed.

Lemma round_nearest_even_nonneg (m : Z) (l : location) :
  (0 <= m)%Z -> (0 <= round_nearest_even m l)%Z.
Proof.
  intros Hm. destruct l as [|[ | | ]]; cbn [round_nearest_even];
    try destruct (Z.even m); lia.
Qed.

Lemma binary_round_aux_sign (s : bool) (m e : Z) (l : location) :
  (0 <= m)%Z ->
  let x := binary_round_aux Float64.prec Float64.emax s m e l in
  x = S754_zero s \/ (exists m' e', x = S754_finite s m' e')
  \/ x = S754_infinity s.
Proof.
  intros Hm x. subst x. unfold binary_round_aux.
  pose proof (shr_fexp_nonneg m e l Hm) as H1.
  destruct (shr_fexp Float64.prec Float64.emax m e l) as [mrs' e'].
  cbn [fst] in H1.
  pose proof (shr_fexp_nonneg
                (round_nearest_even (shr_m mrs') (loc_of_shr_record mrs'))
                e' loc_Exact
                (round_nearest_even_nonneg _ _ H1)) as H2.
  destruct (shr_fexp Float64.prec Float64.emax _ e' loc_Exact) as [mrs'' e''].
  cbn [fst] in H2.
  destruct (shr_m mrs'') as [|p|p].
  - now left.
  - right. destruct (e'' <=? Float64.emax - Float64.prec)%Z;
      [left; now exists p, e''|now right].
  - lia.
Qed.

(** A value that passes for finite or is [+Infinity]: the values the
    [isFinite] re-check of [marginScenarios] leaves as they are. *)
Lemma of_Z_nonneg (z : Z) :
  (0 <= z)%Z ->
  Float64.isFinite (Float64.of_Z z) = true \/ Float64.of_Z z = Float64.infinity.
Proof.
  intros Hz. unfold Float64.of_Z, binary_normalize.
  destruct z as [|p|p]; [now left| |lia].
  unfold binary_round.
  destruct (shl_align p 0 _) as [mz ez].
  destruct (binary_round_aux_sign false (Zpos mz) ez loc_Exact) as [E|[(m' & e' & E)|E]];
    [lia| | |]; rewrite E; auto.
Qed.

Lemma ceil_finite_or_inf (x : Float64.number) :
  (exists s, x = S754_zero s) \/ (exists m e, x = S754_finite false m e)
  \/ x = Float64.infinity ->
  Float64.isFinite (Float64.ceil x) = true
  \/ Float64.ceil x = Float64.infinity.
Proof.
  intros [(s & ->)|[(m & e & ->)| ->]]; [now left| |now right].
  cbn [Float64.ceil].
  destruct (0 <=? e)%Z eqn:He; [now left|].
  apply Z.leb_gt in He.
  assert (Hp : (0 < 2 ^ (- e))%Z) by (apply Z.pow_pos_nonneg; lia).
  assert (Hq : (0 <= Zpos m / 2 ^ (- e))%Z) by (apply Z.div_pos; lia).
  apply of_Z_nonneg. destruct (_ =? 0)%Z; lia.
Qed.

Lemma div_pos_pos (mx my : positive) (ex ey : Z) :
  let q := (S754_finite false mx ex / S754_finite false my ey)%f64 in
  q = S754_zero false \/ (exists m e, q = S754_finite false m e)
  \/ q = Float64.infinity.
Proof.
  intros q. subst q. unfold Float64.div, SFdiv.
  destruct (SFdiv_core_binary Float64.prec Float64.emax (Zpos mx) ex (Zpos my) ey)
    as [[mz ez] lz] eqn:E.
  apply binary_round_aux_sign.
  unfold SFdiv_core_binary in E.
  set (m' := match _ with Zpos _ => _ | Z0 => _ | Zneg _ => _ end) in E.
  assert (Hm' : (0 <= m')%Z).
  { subst m'. destruct (_ - _ - _)%Z; try lia.
    apply Z.shiftl_nonneg. lia. }
  assert (Hq : (0 <= fst (Z.div_eucl m' (Zpos my)))%Z).
  { change (fst (Z.div_eucl m' (Zpos my))) with (m' / Zpos my)%Z.
    apply Z.div_pos; lia. }
  destruct (Z.div_eucl m' (Zpos my)) as [q r]. cbn [fst] in Hq.
  injection E as <- _ _. exact Hq.
Qed.

Lemma gtb_cent_inv64 (x : Float64.number) :
  (x >? Float64.decimal 1 100)%f64 = true ->
  (exists m e, x = S754_finite false m e) \/ x = Float64.infinity.
Proof.
  intros H. destruct x as [s|[|]| |[|] m e];
    try (vm_compute in H; discriminate H).
  - now right.
  - left. now exists m, e.
Qed.

Lemma geb_zero_inv64 (x : Float64.number) :
  Float64.isFinite x = true -> (x >=? Float64.of_Z 0)%f64 = true ->
  (exists s, x = S754_zero s) \/ (exists m e, x = S754_finite false m e).
Proof.
  intros Hf H. destruct x as [s|s| |[|] m e]; try discriminate.
  - left. now exists s.
  - right. now exists m, e.
Qed.

Lemma TARGET_MARGINS_shape (m : Float64.number) :
  In m Calculator64.TARGET_MARGINS ->
  m = S754_zero false \/ exists mm em, m = S754_finite false mm em.
Proof.
  intros H. vm_compute in H.
  repeat (destruct H as [<-|H]; [eauto|]). contradiction.
Qed.

(** A target profit above one cent comes from a positive finite price, and
    is itself positive. *)
Lemma target_above_cent (sp m : Float64.number) :
  Float64.isFinite sp = true -> In m Calculator64.TARGET_MARGINS ->
  (sp * m >? Float64.decimal 1 100)%f64 = true ->
  (exists ms es, sp = S754_finite false ms es)
  /\ ((exists mt et, (sp * m)%f64 = S754_finite false mt et)
      \/ (sp * m)%f64 = Float64.infinity).
Proof.
  intros Hf Hm Hc. pose proof (gtb_cent_inv64 _ Hc) as Ht.
  split; [|exact Ht].
  destruct (TARGET_MARGINS_shape m Hm) as [-> |(mm & em & ->)];
    destruct sp as [s|s| |s ms es]; try discriminate Hf;
    try (destruct Ht as [(mt & et & Ht)|Ht]; discriminate Ht).
  destruct s; [|now exists ms, es].
  exfalso. unfold Float64.mul, SFmul in Ht.
  destruct (binary_round_aux_sign (xorb true false) (Zpos (ms * mm)) (es + em)
              loc_Exact) as [E|[(m' & e' & E)|E]]; [lia| | |];
    rewrite E in Ht; destruct Ht as [(mt & et & Ht)|Ht]; discriminate Ht.
Qed.

Lemma roas_quotient_finite_or_inf (sp m : Float64.number) :
  Float64.isFinite sp = true -> In m Calculator64.TARGET_MARGINS ->
  (sp * m >? Float64.decimal 1 100)%f64 = true ->
  Float64.isFinite (sp / (sp * m))%f64 = true
  \/ (sp / (sp * m))%f64 = Float64.infinity.
Proof.
  intros Hf Hm Hc.
  destruct (target_above_cent sp m Hf Hm Hc)
    as [(ms & es & ->) [(mt & et & ->)| ->]]; [|now left].
  destruct (div_pos_pos ms mt es et) as [E|[(m' & e' & E)|E]];
    rewrite E; auto.
Qed.

Lemma orders_finite_or_inf (sp ad m : Float64.number) :
  Float64.isFinite sp = true -> In m Calculator64.TARGET_MARGINS ->
  Float64.isFinite ad = true -> (ad >=? Float64.of_Z 0)%f64 = true ->
  (sp * m >? Float64.decimal 1 100)%f64 = true ->
  Float64.isFinite (Float64.ceil (ad / (sp * m))%f64) = true
  \/ Float64.ceil (ad / (sp * m))%f64 = Float64.infinity.
Proof.
  intros Hf Hm Ha Hn Hc. apply ceil_finite_or_inf.
  destruct (target_above_cent sp m Hf Hm Hc) as [_ Ht].
  destruct (geb_zero_inv64 ad Ha Hn) as [(s & ->)|(ma & ea & ->)];
    destruct Ht as [(mt & et & ->)| ->].
  - left. eexists. reflexivity.
  - left. eexists. reflexivity.
  - destruct (div_pos_pos ma mt ea et) as [E|[(m' & e' & E)|E]];
      rewrite E; eauto.
  - left. eexists. reflexivity.
Qed.



(** At a price of ten cents the code computes [0.1 * 0.1] above [0.01]: the
    10% row has a breakeven ROAS of 10 and, with a budget of 1, 100 orders. *)
Example dime_scenarios :
  map (fun s => (Calculator64.Scenario.breakevenRoas s,
                 Calculator64.Scenario.breakevenOrders s))
      (firstn 2 (Calculator64.marginScenarios dime_inputs64))
  = [(Float64.infinity, Float64.infinity);
     (Float64.of_Z 10, Float64.of_Z 100)].
Proof. vm_compute. reflexivity. Qed.

(** Why the advertising budget must not be negative: at a price of three
    cents and a budget of [-1e308] the quotient for the 50% row overflows to
    [-Infinity], which the [isFinite] re-check turns into [+Infinity]. *)
Example negative_budget_orders :
  let targetProfit :=
    (Calculator64.sellingPrice negative_budget64 * Float64.decimal 50 100)%f64 in
  (targetProfit >? Float64.decimal 1 100)%f64 = true
  /\ Float64.ceil (Calculator64.adSpend negative_budget64 / targetProfit)%f64
     = S754_infinity true
  /\ option_map Calculator64.Scenario.breakevenOrders
       (nth_error (Calculator64.marginScenarios negative_budget64) 5)
     = Some Float64.infinity.
Proof. repeat split; vm_compute; reflexivity. Qed.

(** The scenario table has six rows, one per target margin, in the order of
    [TARGET_MARGINS], in binary64 as in exact arithmetic. *)
Lemma marginScenarios_margins64 (c : Calculator64.CalcInputs) :
  map Calculator64.Scenario.margin (Calculator64.marginScenarios c)
  = Calculator64.TARGET_MARGINS
  /\ length (Calculator64.marginScenarios c) = 6%nat.
Proof.
  unfold Calculator64.marginScenarios. split.
  - rewrite map_map. cbn [Calculator64.Scenario.margin]. apply map_id.
  - rewrite length_map. reflexivity.
Qed.

(** * Order of binary64 results

    The subtraction of [Float64] is shown to be the rounding [NORM] of the
    exact difference; rounding is monotone, so subtraction preserves the
    order of its first argument and reverses that of its second.  The
    results of the four operations on proper numbers are proper numbers. *)

Section RoundingFacts.

Local Open Scope Z_scope.

(** ** Number of binary digits *)

Lemma digits2_pos_spec (p : positive) :
  2 ^ (Zpos (digits2_pos p) - 1) <= Zpos p < 2 ^ Zpos (digits2_pos p).
Proof.
  induction p as [p IH|p IH|]; cbn [digits2_pos].
  - rewrite Pos2Z.inj_succ.
    replace (Z.succ (Zpos (digits2_pos p)) - 1)
      with (Z.succ (Zpos (digits2_pos p) - 1)) by lia.
    rewrite !Z.pow_succ_r by lia. lia.
  - rewrite Pos2Z.inj_succ.
    replace (Z.succ (Zpos (digits2_pos p)) - 1)
      with (Z.succ (Zpos (digits2_pos p) - 1)) by lia.
    rewrite !Z.pow_succ_r by lia. lia.
  - cbn. lia.
Qed.

Lemma digits2_pos_unique (p : positive) (k : Z) :
  2 ^ (k - 1) <= Zpos p < 2 ^ k -> Zpos (digits2_pos p) = k.
Proof.
  intros [Hl Hu]. pose proof (digits2_pos_spec p) as [Dl Du].
  set (d := Zpos (digits2_pos p)) in *.
  assert (0 < k).
  { destruct (Z.lt_ge_cases 0 k) as [|Hk]; [assumption|].
    exfalso. destruct (Z.eq_dec k 0) as [->|].
    - cbn in Hu. lia.
    - rewrite Z.pow_neg_r in Hu by lia. lia. }
  destruct (Z.lt_trichotomy d k) as [Hlt|[Heq|Hgt]]; [|exact Heq|].
  - exfalso. assert (2 ^ d <= 2 ^ (k - 1)) by (apply Z.pow_le_mono_r; lia). lia.
  - exfalso. assert (2 ^ k <= 2 ^ (d - 1)) by (apply Z.pow_le_mono_r; lia). lia.
Qed.

(** ** Shifting a mantissa right, with round and sticky bits *)

Lemma shr_1_spec (m : Z) (r s : bool) :
  0 <= m ->
  shr_1 (Build_shr_record m r s) = Build_shr_record (Z.div2 m) (Z.odd m) (r || s).
Proof.
  intros Hm. destruct m as [|[p|p|]|p]; try reflexivity. lia.
Qed.

Lemma iter_pos_nat {A : Type} (f : A -> A) (p : positive) (x : A) :
  iter_pos f p x = Nat.iter (Pos.to_nat p) f x.
Proof.
  revert x. induction p as [p IH|p IH|]; intros x; cbn [iter_pos].
  - rewrite !IH, Pos2Nat.inj_xI.
    change (S (2 * Pos.to_nat p))%nat with (1 + 2 * Pos.to_nat p)%nat.
    replace (1 + 2 * Pos.to_nat p)%nat
      with (Pos.to_nat p + (Pos.to_nat p + 1))%nat by lia.
    rewrite !Nat.iter_add. reflexivity.
  - rewrite !IH, Pos2Nat.inj_xO.
    replace (2 * Pos.to_nat p)%nat with (Pos.to_nat p + Pos.to_nat p)%nat by lia.
    rewrite Nat.iter_add. reflexivity.
  - reflexivity.
Qed.

Lemma shr_iter (n : Z) (j : nat) :
  0 <= n ->
  let mrs := Nat.iter j shr_1 (Build_shr_record n false false) in
  shr_m mrs = n / 2 ^ Z.of_nat j
  /\ (shr_r mrs, shr_s mrs) = loc_bits (Z.of_nat j) (n mod 2 ^ Z.of_nat j).
Proof.
  intros Hn. induction j as [|j IH]; cbv zeta in *.
  - cbn [Nat.iter shr_m shr_r shr_s]. change (2 ^ Z.of_nat 0) with 1.
    rewrite Z.div_1_r, Z.mod_1_r. split; reflexivity.
  - rewrite Nat.iter_succ.
    destruct (Nat.iter j shr_1 (Build_shr_record n false false)) as [m r s].
    cbn [shr_m shr_r shr_s] in IH. destruct IH as [Hm Hrs].
    set (k := Z.of_nat j) in *.
    assert (HP : 0 < 2 ^ k) by (apply Z.pow_pos_nonneg; lia).
    assert (Hm0 : 0 <= m) by (subst m; apply Z.div_pos; lia).
    rewrite (shr_1_spec m r s Hm0). cbn [shr_m shr_r shr_s].
    replace (Z.of_nat (S j)) with (Z.succ k) by lia.
    rewrite Z.pow_succ_r by lia.
    replace (2 * 2 ^ k) with (2 ^ k * 2) by lia.
    split.
    + rewrite Z.div2_div, Hm. apply Z.div_div; lia.
    + rewrite Z.rem_mul_r by lia. rewrite <- Hm.
      pose proof (Z.mod_pos_bound n (2 ^ k) HP) as Hrem.
      set (rem := n mod 2 ^ k) in *.
      assert (Hs : r || s = negb (rem =? 0)).
      { unfold loc_bits in Hrs. destruct (rem =? 0).
        - now injection Hrs as -> ->.
        - destruct (2 * rem ?= 2 ^ k); injection Hrs as -> ->; reflexivity. }
      rewrite Hs. rewrite (Zmod_odd m). unfold loc_bits.
      destruct (Z.odd m).
      * destruct (rem =? 0) eqn:E0.
        -- apply Z.eqb_eq in E0.
           assert ((rem + 2 ^ k * 1 =? 0) = false) as ->
               by (apply Z.eqb_neq; lia).
           assert ((2 * (rem + 2 ^ k * 1) ?= 2 ^ Z.succ k) = Eq) as ->
               by (apply Z.compare_eq_iff; rewrite Z.pow_succ_r by lia; lia).
           reflexivity.
        -- apply Z.eqb_neq in E0.
           assert ((rem + 2 ^ k * 1 =? 0) = false) as ->
               by (apply Z.eqb_neq; lia).
           assert ((2 * (rem + 2 ^ k * 1) ?= 2 ^ Z.succ k) = Gt) as ->
               by (apply Z.compare_gt_iff; rewrite Z.pow_succ_r by lia; lia).
           reflexivity.
      * replace (rem + 2 ^ k * 0) with rem by lia.
        destruct (rem =? 0) eqn:E0; [reflexivity|].
        apply Z.eqb_neq in E0.
        assert ((2 * rem ?= 2 ^ Z.succ k) = Lt) as ->
            by (apply Z.compare_lt_iff; rewrite Z.pow_succ_r by lia; lia).
        reflexivity.
Qed.

Lemma round_shr (n : Z) (k : positive) :
  0 <= n ->
  let mrs := iter_pos shr_1 k (Build_shr_record n false false) in
  round_nearest_even (shr_m mrs) (loc_of_shr_record mrs) = RNE n (Zpos k).
Proof.
  intros Hn mrs. subst mrs. rewrite iter_pos_nat.
  pose proof (shr_iter n (Pos.to_nat k) Hn) as H. cbv zeta in H.
  rewrite positive_nat_Z in H.
  destruct (Nat.iter (Pos.to_nat k) shr_1 (Build_shr_record n false false))
    as [m r s].
  cbn [shr_m shr_r shr_s] in *. destruct H as [-> Hrs].
  assert (HP : 0 < 2 ^ Zpos k) by (apply Z.pow_pos_nonneg; lia).
  pose proof (Z.mod_pos_bound n (2 ^ Zpos k) HP) as Hrem.
  unfold RNE, loc_bits in *. cbv zeta.
  set (rem := n mod 2 ^ Zpos k) in *.
  destruct (rem =? 0) eqn:E0.
  - apply Z.eqb_eq in E0. injection Hrs as -> ->.
    cbn [loc_of_shr_record round_nearest_even].
    assert ((2 * rem <? 2 ^ Zpos k) = true) as -> by (apply Z.ltb_lt; lia).
    reflexivity.
  - destruct (2 * rem ?= 2 ^ Zpos k) eqn:C; injection Hrs as -> ->;
      cbn [loc_of_shr_record round_nearest_even].
    + apply Z.compare_eq_iff in C.
      assert ((2 * rem <? 2 ^ Zpos k) = false) as -> by (apply Z.ltb_ge; lia).
      assert ((2 * rem =? 2 ^ Zpos k) = true) as -> by (apply Z.eqb_eq; lia).
      reflexivity.
    + change (2 * rem < 2 ^ Zpos k) in C.
      assert ((2 * rem <? 2 ^ Zpos k) = true) as -> by (apply Z.ltb_lt; lia).
      reflexivity.
    + change (2 * rem > 2 ^ Zpos k) in C.
      assert ((2 * rem <? 2 ^ Zpos k) = false) as -> by (apply Z.ltb_ge; lia).
      assert ((2 * rem =? 2 ^ Zpos k) = false) as -> by (apply Z.eqb_neq; lia).
      reflexivity.
Qed.

(** ** Rounding to nearest, ties to even *)

Lemma fexp64 (x : Z) : fexp 53 1024 x = Z.max (x - 53) (-1074).
Proof. reflexivity. Qed.

Lemma RNE_shift (a k j : Z) :
  0 <= k -> 0 <= j -> RNE (a * 2 ^ j) (k + j) = RNE a k.
Proof.
  intros Hk Hj. unfold RNE. cbv zeta.
  assert (Pk : 0 < 2 ^ k) by (apply Z.pow_pos_nonneg; lia).
  assert (Pj : 0 < 2 ^ j) by (apply Z.pow_pos_nonneg; lia).
  rewrite Z.pow_add_r by lia.
  rewrite Z.div_mul_cancel_r by lia.
  rewrite Z.mul_mod_distr_r by lia.
  set (q := a / 2 ^ k). set (r := a mod 2 ^ k).
  assert (E1 : (2 * (r * 2 ^ j) <? 2 ^ k * 2 ^ j) = (2 * r <? 2 ^ k)).
  { destruct (2 * r <? 2 ^ k) eqn:E.
    - apply Z.ltb_lt in E. apply Z.ltb_lt. nia.
    - apply Z.ltb_ge in E. apply Z.ltb_ge. nia. }
  assert (E2 : (2 * (r * 2 ^ j) =? 2 ^ k * 2 ^ j) = (2 * r =? 2 ^ k)).
  { destruct (2 * r =? 2 ^ k) eqn:E.
    - apply Z.eqb_eq in E. apply Z.eqb_eq. nia.
    - apply Z.eqb_neq in E. apply Z.eqb_neq. nia. }
  now rewrite E1, E2.
Qed.

Lemma RNE_0 (a : Z) : RNE a 0 = a.
Proof.
  unfold RNE. cbv zeta. change (2 ^ 0) with 1.
  rewrite Z.div_1_r, Z.mod_1_r. reflexivity.
Qed.

Lemma RNE_exact (a j : Z) : 0 <= j -> RNE (a * 2 ^ j) j = a.
Proof.
  intros Hj. replace j with (0 + j) at 2 by lia.
  rewrite RNE_shift by lia. apply RNE_0.
Qed.

(** [RNE n k] is within the floor and the ceiling of [n / 2^k]. *)
Lemma RNE_floor (n k : Z) : 0 <= k -> n / 2 ^ k <= RNE n k <= n / 2 ^ k + 1.
Proof.
  intros Hk. unfold RNE. cbv zeta.
  destruct (_ <? _); [lia|]. destruct (_ =? _); [|lia].
  destruct (Z.even _); lia.
Qed.

Lemma RNE_mono (n1 n2 k : Z) :
  0 <= k -> n1 <= n2 -> RNE n1 k <= RNE n2 k.
Proof.
  intros Hk H.
  assert (P : 0 < 2 ^ k) by (apply Z.pow_pos_nonneg; lia).
  pose proof (Z.div_le_mono n1 n2 (2 ^ k) P H) as Hq.
  destruct (Z.eq_dec (n1 / 2 ^ k) (n2 / 2 ^ k)) as [E|NE].
  - pose proof (Z.div_mod n1 (2 ^ k) ltac:(lia)) as D1.
    pose proof (Z.div_mod n2 (2 ^ k) ltac:(lia)) as D2.
    assert (Hr : n1 mod 2 ^ k <= n2 mod 2 ^ k) by (rewrite E in D1; lia).
    unfold RNE. cbv zeta. rewrite E.
    set (q := n2 / 2 ^ k) in *.
    set (r1 := n1 mod 2 ^ k) in *. set (r2 := n2 mod 2 ^ k) in *.
    destruct (2 * r1 <? 2 ^ k) eqn:A1; destruct (2 * r2 <? 2 ^ k) eqn:A2;
      destruct (2 * r1 =? 2 ^ k) eqn:B1; destruct (2 * r2 =? 2 ^ k) eqn:B2;
      destruct (Z.even q); try lia;
      repeat match goal with
             | H : (_ <? _) = true |- _ => apply Z.ltb_lt in H
             | H : (_ <? _) = false |- _ => apply Z.ltb_ge in H
             | H : (_ =? _) = true |- _ => apply Z.eqb_eq in H
             | H : (_ =? _) = false |- _ => apply Z.eqb_neq in H
             end; lia.
  - pose proof (RNE_floor n1 k Hk). pose proof (RNE_floor n2 k Hk). lia.
Qed.

(** A number of [53 + k] bits rounds to a mantissa of 53 bits, or to
    [2^53]. *)
Lemma RNE_bounds (n k : Z) :
  0 <= k -> 2 ^ (52 + k) <= n < 2 ^ (53 + k) ->
  2 ^ 52 <= RNE n k <= 2 ^ 53.
Proof.
  intros Hk [Hl Hu].
  assert (P : 0 < 2 ^ k) by (apply Z.pow_pos_nonneg; lia).
  rewrite Z.pow_add_r in Hl, Hu by lia.
  pose proof (RNE_floor n k Hk) as [F1 F2].
  assert (2 ^ 52 <= n / 2 ^ k) by (apply Z.div_le_lower_bound; lia).
  assert (n / 2 ^ k < 2 ^ 53) by (apply Z.div_lt_upper_bound; lia).
  lia.
Qed.

Lemma Zpos_iter_xO (p d : positive) :
  Zpos (Pos.iter xO p d) = Zpos p * 2 ^ Zpos d.
Proof.
  revert p. induction d as [|d IH] using Pos.peano_ind; intros p.
  - cbn. lia.
  - rewrite Pos.iter_succ, Pos2Z.inj_succ, Z.pow_succ_r by lia.
    rewrite Pos2Z.inj_xO, IH. lia.
Qed.

Lemma Zdigits2_mul_pow2 (p : positive) (j : Z) :
  0 <= j ->
  Zdigits2 (Zpos p * 2 ^ j) = Zpos (digits2_pos p) + j.
Proof.
  intros Hj. pose proof (digits2_pos_spec p) as [Dl Du].
  assert (P : 0 < 2 ^ j) by (apply Z.pow_pos_nonneg; lia).
  destruct (Zpos p * 2 ^ j) as [|q|q] eqn:E; try lia.
  cbn [Zdigits2]. apply digits2_pos_unique. rewrite <- E.
  replace (Zpos (digits2_pos p) + j - 1) with (Zpos (digits2_pos p) - 1 + j) by lia.
  rewrite !Z.pow_add_r by lia. nia.
Qed.

(** ** What [binary_round] computes *)

Lemma shr_fexp_canonical (m e : Z) :
  fexp 53 1024 (Zdigits2 m + e) = e ->
  shr_fexp 53 1024 m e loc_Exact = (Build_shr_record m false false, e).
Proof.
  intros H. unfold shr_fexp. rewrite H, Z.sub_diag. reflexivity.
Qed.

Lemma binary_round_aux_canonical (s : bool) (m : positive) (e : Z) :
  fexp 53 1024 (Zpos (digits2_pos m) + e) = e ->
  binary_round_aux 53 1024 s (Zpos m) e loc_Exact
  = if e <=? 971 then S754_finite s m e else S754_infinity s.
Proof.
  intros H. unfold binary_round_aux.
  rewrite (shr_fexp_canonical (Zpos m) e H).
  cbn [shr_m loc_of_shr_record round_nearest_even].
  rewrite (shr_fexp_canonical (Zpos m) e H).
  reflexivity.
Qed.

Lemma ROUND_small (s : bool) (m : positive) (K : Z) :
  0 <= K -> Zpos (digits2_pos m) <= 53 ->
  (K = 0 \/ Zpos (digits2_pos m) = 53) ->
  ROUND s (Zpos m * 2 ^ K)
  = if -1074 + K <=? 971 then S754_finite s m (-1074 + K)
    else S754_infinity s.
Proof.
  intros HK Hd Hc. pose proof (digits2_pos_spec m) as [Dl Du].
  assert (Hm : Zpos m < 2 ^ 53).
  { assert (2 ^ Zpos (digits2_pos m) <= 2 ^ 53)
      by (apply Z.pow_le_mono_r; lia). lia. }
  assert (Hs : rnd_shift (Zpos m * 2 ^ K) = K).
  { unfold rnd_shift. rewrite Zdigits2_mul_pow2 by lia. lia. }
  assert (Hr : RNE (Zpos m * 2 ^ K) (rnd_shift (Zpos m * 2 ^ K)) = Zpos m)
    by (rewrite Hs; apply RNE_exact; lia).
  assert (Hcar : rnd_carry (Zpos m * 2 ^ K) = false).
  { unfold rnd_carry. rewrite Hr. apply Z.eqb_neq. lia. }
  unfold ROUND, rnd_man, rnd_exp. rewrite Hcar, Hr, Hs.
  replace (-1074 + K + 0) with (-1074 + K) by lia. reflexivity.
Qed.

(** Rounding a mantissa at an exponent not below [-1074] depends on the
    value only, counted in units of [2^-1074]. *)
Lemma binary_round_char (s : bool) (p : positive) (e : Z) :
  -1074 <= e ->
  binary_round 53 1024 s p e = ROUND s (Zpos p * 2 ^ (e + 1074)).
Proof.
  intros He. unfold binary_round. rewrite fexp64.
  pose proof (digits2_pos_spec p) as [Dl Du].
  set (d := Zpos (digits2_pos p)) in *.
  set (ec := Z.max (d + e - 53) (-1074)).
  unfold shl_align.
  destruct (ec - e) as [|sh|dl] eqn:E.
  - (* already aligned *)
    assert (Hec : ec = e) by lia.
    rewrite binary_round_aux_canonical by (rewrite fexp64; fold d; lia).
    replace (Zpos p * 2 ^ (e + 1074)) with (Zpos p * 2 ^ (e + 1074)) by reflexivity.
    rewrite (ROUND_small s p (e + 1074)); fold d; try lia.
    replace (-1074 + (e + 1074)) with e by lia. reflexivity.
  - (* too many bits: shift right and round *)
    assert (Hec : ec = d + e - 53) by lia.
    assert (Hsh : Zpos sh = d - 53) by lia.
    unfold binary_round_aux.
    unfold shr_fexp at 1. cbn [Zdigits2]. rewrite fexp64. fold d. fold ec.
    rewrite E. cbn [shr shr_record_of_loc].
    rewrite round_shr by lia.
    set (m1 := RNE (Zpos p) (Zpos sh)).
    assert (Hm1 : 2 ^ 52 <= m1 <= 2 ^ 53).
    { apply RNE_bounds; [lia|].
      replace (52 + Zpos sh) with (d - 1) by lia.
      replace (53 + Zpos sh) with d by lia. split; assumption. }
    replace (e + Zpos sh) with ec by lia.
    assert (HK : rnd_shift (Zpos p * 2 ^ (e + 1074)) = Zpos sh + (e + 1074)).
    { unfold rnd_shift. rewrite Zdigits2_mul_pow2 by lia. fold d. lia. }
    assert (HR : RNE (Zpos p * 2 ^ (e + 1074))
                     (rnd_shift (Zpos p * 2 ^ (e + 1074))) = m1).
    { rewrite HK. apply RNE_shift; lia. }
    unfold ROUND, rnd_man, rnd_exp, rnd_carry. rewrite HR, HK.
    destruct (m1 =? 2 ^ 53) eqn:C.
    + apply Z.eqb_eq in C. rewrite C.
      unfold shr_fexp. change (Zdigits2 (2 ^ 53)) with 54. rewrite fexp64.
      replace (Z.max (54 + ec - 53) (-1074) - ec) with 1 by lia.
      cbn [shr iter_pos]. change (shr_1 (shr_record_of_loc (2 ^ 53) loc_Exact))
        with (Build_shr_record (2 ^ 52) false false).
      cbn [shr_m]. change (1024 - 53) with 971.
      replace (-1074 + (Zpos sh + (e + 1074)) + 1) with (ec + 1) by lia.
      reflexivity.
    + apply Z.eqb_neq in C.
      destruct m1 as [|m1'|m1'] eqn:Em1; try lia.
      assert (Hd1 : Zpos (digits2_pos m1') = 53)
        by (apply digits2_pos_unique; change (53 - 1) with 52; lia).
      rewrite shr_fexp_canonical
        by (cbn [Zdigits2]; rewrite Hd1, fexp64; lia).
      cbn [shr_m]. change (1024 - 53) with 971.
      replace (-1074 + (Zpos sh + (e + 1074)) + 0) with ec by lia.
      reflexivity.
  - (* too few bits: shift left *)
    assert (Hdl : Zpos dl = e - ec) by lia.
    assert (Hz : Zpos (Pos.iter xO p dl) = Zpos p * 2 ^ Zpos dl)
      by apply Zpos_iter_xO.
    assert (Hdz : Zpos (digits2_pos (Pos.iter xO p dl)) = d + Zpos dl).
    { pose proof (Zdigits2_mul_pow2 p (Zpos dl) ltac:(lia)) as H.
      rewrite <- Hz in H. exact H. }
    rewrite binary_round_aux_canonical by (rewrite fexp64, Hdz; lia).
    replace (Zpos p * 2 ^ (e + 1074))
      with (Zpos (Pos.iter xO p dl) * 2 ^ (ec + 1074)).
    2:{ rewrite Hz, <- Z.mul_assoc, <- Z.pow_add_r by lia.
        f_equal. f_equal. lia. }
    rewrite ROUND_small; rewrite ?Hdz; try lia.
    replace (-1074 + (ec + 1074)) with ec by lia. reflexivity.
Qed.

(** ** Rounding is monotone *)

Lemma Zdigits2_mono (a b : positive) :
  Zpos a <= Zpos b -> Zpos (digits2_pos a) <= Zpos (digits2_pos b).
Proof.
  intros H. pose proof (digits2_pos_spec a) as [Al Au].
  pose proof (digits2_pos_spec b) as [Bl Bu].
  destruct (Z.le_gt_cases (Zpos (digits2_pos a)) (Zpos (digits2_pos b)))
    as [|Hgt]; [assumption|].
  exfalso.
  assert (2 ^ Zpos (digits2_pos b) <= 2 ^ (Zpos (digits2_pos a) - 1))
    by (apply Z.pow_le_mono_r; lia).
  lia.
Qed.

(** What [RNE] at the shift of [ROUND] returns. *)
Lemma rnd_facts (n : positive) :
  let K := rnd_shift (Zpos n) in
  let m := RNE (Zpos n) K in
  0 <= K /\ K = Z.max (Zpos (digits2_pos n) - 53) 0
  /\ 1 <= m <= 2 ^ 53
  /\ (0 < K -> 2 ^ 52 <= m)
  /\ (K = 0 -> m = Zpos n /\ m < 2 ^ 53).
Proof.
  cbv zeta. unfold rnd_shift. cbn [Zdigits2].
  pose proof (digits2_pos_spec n) as [Dl Du].
  set (d := Zpos (digits2_pos n)) in *.
  destruct (Z.le_gt_cases d 53) as [Hd|Hd].
  - replace (Z.max (d - 53) 0) with 0 by lia. rewrite RNE_0.
    assert (2 ^ d <= 2 ^ 53) by (apply Z.pow_le_mono_r; lia).
    repeat split; try lia.
  - replace (Z.max (d - 53) 0) with (d - 53) by lia.
    assert (B : 2 ^ 52 <= RNE (Zpos n) (d - 53) <= 2 ^ 53).
    { apply RNE_bounds; [lia|].
      replace (52 + (d - 53)) with (d - 1) by lia.
      replace (53 + (d - 53)) with d by lia. split; assumption. }
    repeat split; try lia.
Qed.

Lemma rnd_man_pos (n : positive) : 1 <= rnd_man (Zpos n) <= 2 ^ 53 - 1.
Proof.
  pose proof (rnd_facts n) as (_ & _ & Hm & _). cbv zeta in Hm.
  unfold rnd_man, rnd_carry.
  destruct (_ =? _) eqn:C; [lia|]. apply Z.eqb_neq in C. lia.
Qed.

(** Rounding is monotone: a larger number gets a larger exponent, or the
    same exponent and a mantissa that is not smaller. *)
Lemma rnd_mono (n1 n2 : positive) :
  Zpos n1 <= Zpos n2 ->
  rnd_exp (Zpos n1) < rnd_exp (Zpos n2)
  \/ (rnd_exp (Zpos n1) = rnd_exp (Zpos n2)
      /\ rnd_man (Zpos n1) <= rnd_man (Zpos n2)).
Proof.
  intros H.
  pose proof (rnd_facts n1) as (K1 & E1 & M1 & L1 & Z1).
  pose proof (rnd_facts n2) as (K2 & E2 & M2 & L2 & Z2).
  cbv zeta in *.
  pose proof (Zdigits2_mono n1 n2 H) as Hd.
  unfold rnd_exp, rnd_man, rnd_carry.
  remember (rnd_shift (Zpos n1)) as k1 eqn:Hk1 in *.
  remember (rnd_shift (Zpos n2)) as k2 eqn:Hk2 in *.
  clear Hk1 Hk2.
  destruct (Z.eq_dec k1 k2) as [Ek|Nk].
  - rewrite <- Ek in *.
    pose proof (RNE_mono (Zpos n1) (Zpos n2) k1 K1 H) as Hm.
    remember (RNE (Zpos n1) k1) as a1 eqn:Ha1 in *.
    remember (RNE (Zpos n2) k1) as a2 eqn:Ha2 in *.
    clear Ha1 Ha2.
    destruct (a1 =? 2 ^ 53) eqn:C1; destruct (a2 =? 2 ^ 53) eqn:C2;
      repeat match goal with
             | C : (_ =? _) = true |- _ => apply Z.eqb_eq in C
             | C : (_ =? _) = false |- _ => apply Z.eqb_neq in C
             end; lia.
  - assert (k1 < k2) by lia.
    remember (RNE (Zpos n1) k1) as a1 eqn:Ha1 in *.
    remember (RNE (Zpos n2) k2) as a2 eqn:Ha2 in *.
    clear Ha1 Ha2.
    assert (2 ^ 52 <= a2) by (apply L2; lia).
    destruct (a1 =? 2 ^ 53) eqn:C1; destruct (a2 =? 2 ^ 53) eqn:C2;
      repeat match goal with
             | C : (_ =? _) = true |- _ => apply Z.eqb_eq in C
             | C : (_ =? _) = false |- _ => apply Z.eqb_neq in C
             end; lia.
Qed.

Lemma ROUND_shape (s : bool) (n : positive) :
  (exists m, Zpos m = rnd_man (Zpos n)
             /\ rnd_exp (Zpos n) <= 971
             /\ ROUND s (Zpos n) = S754_finite s m (rnd_exp (Zpos n)))
  \/ (971 < rnd_exp (Zpos n) /\ ROUND s (Zpos n) = S754_infinity s).
Proof.
  pose proof (rnd_man_pos n) as Hm. unfold ROUND.
  destruct (rnd_man (Zpos n)) as [|m|m]; try lia.
  destruct (rnd_exp (Zpos n) <=? 971) eqn:E.
  - left. exists m. apply Z.leb_le in E. auto.
  - right. apply Z.leb_gt in E. auto.
Qed.

Lemma ROUND_mono_pos (n1 n2 : positive) :
  Zpos n1 <= Zpos n2 ->
  SFleb (ROUND false (Zpos n1)) (ROUND false (Zpos n2)) = true.
Proof.
  intros H. pose proof (rnd_mono n1 n2 H) as Hm.
  destruct (ROUND_shape false n1) as [(m1 & Em1 & B1 & ->)|[B1 ->]];
    destruct (ROUND_shape false n2) as [(m2 & Em2 & B2 & ->)|[B2 ->]];
    try reflexivity; [|exfalso; lia].
  unfold SFleb, SFcompare.
  destruct (rnd_exp (Zpos n1) ?= rnd_exp (Zpos n2)) eqn:C.
  - apply Z.compare_eq_iff in C.
    change (Pos.compare_cont Eq m1 m2) with (m1 ?= m2)%positive.
    destruct (m1 ?= m2)%positive eqn:Cm; try reflexivity.
    assert (m1 > m2)%positive by exact Cm. lia.
  - reflexivity.
  - change (rnd_exp (Zpos n1) > rnd_exp (Zpos n2)) in C. lia.
Qed.

Lemma ROUND_mono_neg (n1 n2 : positive) :
  Zpos n1 <= Zpos n2 ->
  SFleb (ROUND true (Zpos n2)) (ROUND true (Zpos n1)) = true.
Proof.
  intros H. pose proof (rnd_mono n1 n2 H) as Hm.
  destruct (ROUND_shape true n1) as [(m1 & Em1 & B1 & ->)|[B1 ->]];
    destruct (ROUND_shape true n2) as [(m2 & Em2 & B2 & ->)|[B2 ->]];
    try reflexivity; [|exfalso; lia].
  unfold SFleb, SFcompare.
  destruct (rnd_exp (Zpos n2) ?= rnd_exp (Zpos n1)) eqn:C.
  - apply Z.compare_eq_iff in C.
    change (Pos.compare_cont Eq m2 m1) with (m2 ?= m1)%positive.
    destruct (m2 ?= m1)%positive eqn:Cm; try reflexivity.
    assert (m2 < m1)%positive by exact Cm. lia.
  - change (rnd_exp (Zpos n2) < rnd_exp (Zpos n1)) in C. lia.
  - reflexivity.
Qed.

Lemma NORM_mono (z1 z2 : Z) :
  z1 <= z2 -> SFleb (NORM z1) (NORM z2) = true.
Proof.
  intros H. destruct z1 as [|p1|p1], z2 as [|p2|p2]; try lia; unfold NORM.
  - reflexivity.
  - destruct (ROUND_shape false p2) as [(m2 & _ & _ & ->)|[_ ->]]; reflexivity.
  - apply ROUND_mono_pos. lia.
  - destruct (ROUND_shape true p1) as [(m1 & _ & _ & ->)|[_ ->]]; reflexivity.
  - destruct (ROUND_shape true p1) as [(m1 & _ & _ & ->)|[_ ->]];
      destruct (ROUND_shape false p2) as [(m2 & _ & _ & ->)|[_ ->]];
      reflexivity.
  - apply ROUND_mono_neg. lia.
Qed.

(** ** Proper numbers and their values *)

(** Proper finite numbers have a canonical mantissa and exponent. *)
Lemma valid_finite_inv (s : bool) (m : positive) (e : Z) :
  valid_binary 53 1024 (S754_finite s m e) = true ->
  fexp 53 1024 (Zpos (digits2_pos m) + e) = e /\ e <= 971.
Proof.
  cbn [valid_binary]. unfold bounded, canonical_mantissa.
  intros H. apply andb_true_iff in H. destruct H as [H1 H2].
  apply Z.eqb_eq in H1. apply Z.leb_le in H2. split; [exact H1|exact H2].
Qed.

Lemma valid_finite_intro (s : bool) (m : positive) (e : Z) :
  fexp 53 1024 (Zpos (digits2_pos m) + e) = e -> e <= 971 ->
  valid_binary 53 1024 (S754_finite s m e) = true.
Proof.
  intros H1 H2. cbn [valid_binary]. unfold bounded, canonical_mantissa.
  apply andb_true_iff. split; [now apply Z.eqb_eq|now apply Z.leb_le].
Qed.

Lemma ROUND_valid (s : bool) (n : positive) :
  valid_binary 53 1024 (ROUND s (Zpos n)) = true.
Proof.
  destruct (ROUND_shape s n) as [(m & Em & B & ->)|[_ ->]]; [|reflexivity].
  apply valid_finite_intro; [|exact B].
  rewrite fexp64.
  pose proof (rnd_facts n) as (K & _ & M & L & Z0). cbv zeta in *.
  unfold rnd_man, rnd_exp, rnd_carry in *.
  remember (rnd_shift (Zpos n)) as k eqn:Hk in *. clear Hk.
  remember (RNE (Zpos n) k) as a eqn:Ha in *. clear Ha.
  destruct (a =? 2 ^ 53) eqn:C.
  - assert (Hd : Zpos (digits2_pos m) = 53)
      by (apply digits2_pos_unique; rewrite Em; change (53 - 1) with 52; lia).
    rewrite Hd. lia.
  - apply Z.eqb_neq in C.
    destruct (Z.eq_dec k 0) as [->|Nk].
    + destruct (Z0 eq_refl) as [_ Hlt].
      pose proof (digits2_pos_spec m) as [Dl Du]. rewrite Em in Dl, Du.
      assert (Zpos (digits2_pos m) <= 53).
      { destruct (Z.le_gt_cases (Zpos (digits2_pos m)) 53); [assumption|].
        exfalso.
        assert (2 ^ 53 <= 2 ^ (Zpos (digits2_pos m) - 1))
          by (apply Z.pow_le_mono_r; lia). lia. }
      lia.
    + assert (Hd : Zpos (digits2_pos m) = 53).
      { apply digits2_pos_unique. rewrite Em. change (53 - 1) with 52.
        assert (2 ^ 52 <= a) by (apply L; lia). lia. }
      rewrite Hd. lia.
Qed.

Lemma NORM_valid (z : Z) : valid_binary 53 1024 (NORM z) = true.
Proof. destruct z; [reflexivity|apply ROUND_valid|apply ROUND_valid]. Qed.

(** A proper finite number is the rounding of its own value. *)
Lemma NORM_exact_value (s : bool) (m : positive) (e : Z) :
  valid_binary 53 1024 (S754_finite s m e) = true ->
  NORM (exact_value (S754_finite s m e)) = S754_finite s m e.
Proof.
  intros H. destruct (valid_finite_inv s m e H) as [Hc He].
  rewrite fexp64 in Hc.
  assert (P : 0 < 2 ^ (e + 1074)) by (apply Z.pow_pos_nonneg; lia).
  assert (R : ROUND s (Zpos m * 2 ^ (e + 1074)) = S754_finite s m e).
  { rewrite ROUND_small by lia.
    replace (-1074 + (e + 1074)) with e by lia.
    apply Z.leb_le in He. now rewrite He. }
  cbn [exact_value]. destruct (Zpos m * 2 ^ (e + 1074)) as [|q|q] eqn:E;
    try lia.
  destruct s; cbn [cond_Zopp Z.opp NORM]; exact R.
Qed.

Lemma binary_normalize_char (D e : Z) :
  -1074 <= e ->
  binary_normalize 53 1024 D e false = NORM (D * 2 ^ (e + 1074)).
Proof.
  intros He.
  assert (P : 0 < 2 ^ (e + 1074)) by (apply Z.pow_pos_nonneg; lia).
  destruct D as [|p|p]; cbn [binary_normalize].
  - reflexivity.
  - rewrite binary_round_char by exact He.
    destruct (Zpos p * 2 ^ (e + 1074)) as [|q|q] eqn:E; try lia. reflexivity.
  - rewrite binary_round_char by exact He.
    change (Zneg p) with (- Zpos p). rewrite Z.mul_opp_l.
    destruct (Zpos p * 2 ^ (e + 1074)) as [|q|q] eqn:E; try lia. reflexivity.
Qed.

Lemma shl_align_value (m : positive) (e ez : Z) :
  ez <= e -> Zpos (fst (shl_align m e ez)) = Zpos m * 2 ^ (e - ez).
Proof.
  intros H. unfold shl_align.
  destruct (ez - e) as [|d|d] eqn:E; try lia; cbn [fst].
  - replace (e - ez) with 0 by lia. cbn. lia.
  - rewrite Zpos_iter_xO. f_equal. f_equal. lia.
Qed.

(** A difference of two finite numbers is the rounding of the exact
    difference. *)
Lemma SFsub_finite (sx sy : bool) (mx my : positive) (ex ey : Z) :
  -1074 <= ex -> -1074 <= ey ->
  SFsub 53 1024 (S754_finite sx mx ex) (S754_finite sy my ey)
  = NORM (exact_value (S754_finite sx mx ex)
          - exact_value (S754_finite sy my ey)).
Proof.
  intros Hx Hy. cbn [SFsub exact_value]. cbv zeta.
  set (ez := Z.min ex ey).
  rewrite binary_normalize_char by lia.
  rewrite !shl_align_value by lia.
  f_equal.
  assert (Ex : Zpos mx * 2 ^ (ex + 1074)
               = Zpos mx * 2 ^ (ex - ez) * 2 ^ (ez + 1074)).
  { rewrite <- Z.mul_assoc, <- Z.pow_add_r by lia. f_equal. f_equal. lia. }
  assert (Ey : Zpos my * 2 ^ (ey + 1074)
               = Zpos my * 2 ^ (ey - ez) * 2 ^ (ez + 1074)).
  { rewrite <- Z.mul_assoc, <- Z.pow_add_r by lia. f_equal. f_equal. lia. }
  rewrite Ex, Ey.
  destruct sx, sy; cbn [cond_Zopp]; lia.
Qed.

(** ** Order *)

Lemma SFcompare_antisym (x y : spec_float) :
  SFcompare y x = option_map CompOpp (SFcompare x y).
Proof.
  destruct x as [sx|sx| |sx mx ex], y as [sy|sy| |sy my ey];
    try destruct sx; try destruct sy; try reflexivity;
    cbn [SFcompare option_map]; rewrite (Z.compare_antisym ex ey);
    destruct (ex ?= ey); cbn [CompOpp]; try reflexivity;
    rewrite (Pos.compare_cont_antisym mx my Eq); cbn [CompOpp];
    try rewrite CompOpp_involutive; reflexivity.
Qed.

Lemma SFleb_not_ltb (x y : spec_float) :
  SFleb x y = true -> SFltb y x = false.
Proof.
  unfold SFleb, SFltb. rewrite (SFcompare_antisym x y).
  destruct (SFcompare x y) as [[ | | ]|]; cbn; congruence.
Qed.

Lemma SFltb_not_ltb (x y : spec_float) :
  SFltb x y = true -> SFltb y x = false.
Proof.
  unfold SFltb. rewrite (SFcompare_antisym x y).
  destruct (SFcompare x y) as [[ | | ]|]; cbn; congruence.
Qed.

Lemma SFcompare_Eq_finite (s1 s2 : bool) (m1 m2 : positive) (e1 e2 : Z) :
  SFcompare (S754_finite s1 m1 e1) (S754_finite s2 m2 e2) = Some Eq ->
  S754_finite s1 m1 e1 = S754_finite s2 m2 e2.
Proof.
  cbn [SFcompare]. destruct s1, s2; try discriminate;
    destruct (e1 ?= e2) eqn:Ce; try discriminate;
    apply Z.compare_eq_iff in Ce; subst e2; intros H;
    injection H as H.
  - assert ((m1 ?= m2)%positive = Eq).
    { change (Pos.compare_cont Eq m1 m2) with (m1 ?= m2)%positive in H.
      destruct (m1 ?= m2)%positive; cbn in H; congruence. }
    apply Pos.compare_eq_iff in H0. now subst.
  - change (Pos.compare_cont Eq m1 m2) with (m1 ?= m2)%positive in H.
    apply Pos.compare_eq_iff in H. now subst.
Qed.

Lemma exact_value_sign (s : bool) (m : positive) (e : Z) :
  -1074 <= e ->
  if s then exact_value (S754_finite s m e) < 0
  else 0 < exact_value (S754_finite s m e).
Proof.
  intros He. assert (P : 0 < 2 ^ (e + 1074)) by (apply Z.pow_pos_nonneg; lia).
  cbn [exact_value]. destruct s; cbn [cond_Zopp]; nia.
Qed.

(** On proper finite numbers the order of the language is the order of the
    values. *)
Lemma SFltb_of_value (x y : spec_float) :
  valid_binary 53 1024 x = true -> valid_binary 53 1024 y = true ->
  finite_or_zero x = true -> finite_or_zero y = true ->
  exact_value x < exact_value y -> SFltb x y = true.
Proof.
  intros Vx Vy Fx Fy H.
  destruct x as [sx|sx| |sx mx ex], y as [sy|sy| |sy my ey];
    try discriminate.
  - destruct (valid_finite_inv _ _ _ Vy) as [Cy _]. rewrite fexp64 in Cy.
    pose proof (exact_value_sign sy my ey ltac:(lia)) as S.
    cbn [exact_value] in H, S.
    destruct sy; [lia|reflexivity].
  - destruct (valid_finite_inv _ _ _ Vx) as [Cx _]. rewrite fexp64 in Cx.
    pose proof (exact_value_sign sx mx ex ltac:(lia)) as S.
    cbn [exact_value] in H, S.
    destruct sx; [reflexivity|lia].
  - pose proof (NORM_mono _ _ (Z.lt_le_incl _ _ H)) as L.
    rewrite !NORM_exact_value in L by assumption.
    unfold SFleb in L. unfold SFltb.
    destruct (SFcompare (S754_finite sx mx ex) (S754_finite sy my ey))
      as [[ | | ]|] eqn:C; try discriminate; [|reflexivity].
    apply SFcompare_Eq_finite in C. rewrite C in H. lia.
Qed.

Lemma value_of_not_ltb (x y : spec_float) :
  valid_binary 53 1024 x = true -> valid_binary 53 1024 y = true ->
  finite_or_zero x = true -> finite_or_zero y = true ->
  SFltb x y = false -> exact_value y <= exact_value x.
Proof.
  intros Vx Vy Fx Fy H.
  destruct (Z.le_gt_cases (exact_value y) (exact_value x)) as [|Hlt];
    [assumption|].
  rewrite (SFltb_of_value x y Vx Vy Fx Fy Hlt) in H. discriminate H.
Qed.

(** ** Subtraction and order *)

Lemma SFltb_same_number (x x' y y' : spec_float) :
  same_number x x' -> same_number y y' -> SFltb x y = SFltb x' y'.
Proof.
  intros [->|(s1 & s1' & -> & ->)] [->|(s2 & s2' & -> & ->)];
    try reflexivity;
    try (destruct x' as [s|s| |s m e]; reflexivity);
    try (destruct y' as [s|s| |s m e]; reflexivity).
Qed.

(** On proper finite-or-zero numbers, a difference is the rounding of the
    exact difference, up to the sign of a zero. *)
Lemma SFsub_value (x y : spec_float) :
  valid_binary 53 1024 x = true -> valid_binary 53 1024 y = true ->
  finite_or_zero x = true -> finite_or_zero y = true ->
  same_number (SFsub 53 1024 x y) (NORM (exact_value x - exact_value y)).
Proof.
  intros Vx Vy Fx Fy.
  destruct x as [sx|sx| |sx mx ex], y as [sy|sy| |sy my ey];
    try discriminate.
  - right. destruct sx, sy; cbn; eauto.
  - left. cbn [SFsub].
    assert (V' : valid_binary 53 1024 (S754_finite (negb sy) my ey) = true)
      by exact Vy.
    rewrite <- (NORM_exact_value _ _ _ V'). f_equal.
    cbn [exact_value]. destruct sy; cbn [negb cond_Zopp]; lia.
  - left. cbn [SFsub].
    rewrite <- (NORM_exact_value _ _ _ Vx) at 1. f_equal.
    cbn [exact_value]. lia.
  - left. destruct (valid_finite_inv _ _ _ Vx) as [Cx _].
    destruct (valid_finite_inv _ _ _ Vy) as [Cy _].
    rewrite fexp64 in Cx, Cy. apply SFsub_finite; lia.
Qed.

(** A difference of proper numbers is a proper number. *)
Lemma SFsub_valid (x y : spec_float) :
  valid_binary 53 1024 x = true -> valid_binary 53 1024 y = true ->
  valid_binary 53 1024 (SFsub 53 1024 x y) = true.
Proof.
  intros Vx Vy.
  destruct x as [sx|sx| |sx mx ex], y as [sy|sy| |sy my ey];
    try destruct sx; try destruct sy; try reflexivity; try assumption.
  all: destruct (valid_finite_inv _ _ _ Vx) as [Cx _];
    destruct (valid_finite_inv _ _ _ Vy) as [Cy _];
    rewrite fexp64 in Cx, Cy;
    rewrite SFsub_finite by lia; apply NORM_valid.
Qed.

(** Subtracting the same finite number keeps the order. *)
Lemma sub_mono_finite (u v b : spec_float) :
  valid_binary 53 1024 u = true -> valid_binary 53 1024 v = true ->
  valid_binary 53 1024 b = true ->
  finite_or_zero u = true -> finite_or_zero v = true ->
  finite_or_zero b = true ->
  SFltb u v = false ->
  SFltb (SFsub 53 1024 u b) (SFsub 53 1024 v b) = false.
Proof.
  intros Vu Vv Vb Fu Fv Fb H.
  pose proof (value_of_not_ltb u v Vu Vv Fu Fv H) as Hv.
  rewrite (SFltb_same_number _ _ _ _ (SFsub_value u b Vu Vb Fu Fb)
             (SFsub_value v b Vv Vb Fv Fb)).
  apply SFleb_not_ltb, NORM_mono. lia.
Qed.

(** Subtracting a larger finite number gives a result that is not
    larger. *)
Lemma sub_anti_finite (x y1 y2 : spec_float) :
  valid_binary 53 1024 x = true -> valid_binary 53 1024 y1 = true ->
  valid_binary 53 1024 y2 = true ->
  finite_or_zero x = true -> finite_or_zero y1 = true ->
  finite_or_zero y2 = true ->
  SFltb y1 y2 = true ->
  SFltb (SFsub 53 1024 x y1) (SFsub 53 1024 x y2) = false.
Proof.
  intros Vx V1 V2 Fx F1 F2 H.
  pose proof (value_of_not_ltb y2 y1 V2 V1 F2 F1 (SFltb_not_ltb _ _ H)) as Hv.
  rewrite (SFltb_same_number _ _ _ _ (SFsub_value x y1 Vx V1 Fx F1)
             (SFsub_value x y2 Vx V2 Fx F2)).
  apply SFleb_not_ltb, NORM_mono. lia.
Qed.

Lemma SFltb_pinf_l (x : spec_float) : SFltb (S754_infinity false) x = false.
Proof. destruct x as [s|[|]| |s m e]; reflexivity. Qed.

Lemma SFltb_ninf_r (x : spec_float) : SFltb x (S754_infinity true) = false.
Proof. destruct x as [s|[|]| |s m e]; reflexivity. Qed.

Lemma SFltb_nan_r (x : spec_float) : SFltb x S754_nan = false.
Proof. destruct x as [s|[|]| |s m e]; reflexivity. Qed.

(** Subtracting the same number, whatever it is, from two proper numbers
    never reverses their order: if [u < v] fails, [u - b < v - b] fails. *)
Lemma sub_mono (u v b : spec_float) :
  valid_binary 53 1024 u = true -> valid_binary 53 1024 v = true ->
  valid_binary 53 1024 b = true ->
  SFltb u v = false ->
  SFltb (SFsub 53 1024 u b) (SFsub 53 1024 v b) = false.
Proof.
  intros Vu Vv Vb H.
  destruct (finite_or_zero u) eqn:Fu; destruct (finite_or_zero v) eqn:Fv;
    destruct (finite_or_zero b) eqn:Fb;
    try (now apply sub_mono_finite).
  all: destruct u as [su|su| |su mu eu]; try discriminate Fu;
    destruct v as [sv|sv| |sv mv ev]; try discriminate Fv;
    destruct b as [sb|sb| |sb mb eb]; try discriminate Fb;
    try destruct su; try destruct sv; try destruct sb;
    try reflexivity; try discriminate H;
    cbn [SFsub negb];
    try apply SFltb_pinf_l; try apply SFltb_ninf_r; try apply SFltb_nan_r;
    try reflexivity.
Qed.

Lemma sub_anti (x y1 y2 : spec_float) :
  valid_binary 53 1024 x = true -> valid_binary 53 1024 y1 = true ->
  valid_binary 53 1024 y2 = true ->
  SFltb y1 y2 = true ->
  SFltb (SFsub 53 1024 x y1) (SFsub 53 1024 x y2) = false.
Proof.
  intros Vx V1 V2 H.
  destruct (finite_or_zero x) eqn:Fx; destruct (finite_or_zero y1) eqn:F1;
    destruct (finite_or_zero y2) eqn:F2;
    try (now apply sub_anti_finite).
  all: destruct x as [sx|sx| |sx mx ex]; try discriminate Fx;
    destruct y1 as [s1|s1| |s1 m1 e1]; try discriminate F1;
    destruct y2 as [s2|s2| |s2 m2 e2]; try discriminate F2;
    try destruct sx; try destruct s1; try destruct s2;
    try reflexivity; try discriminate H;
    cbn [SFsub negb];
    try apply SFltb_pinf_l; try apply SFltb_ninf_r; try apply SFltb_nan_r;
    try reflexivity.
Qed.

(** ** Results of the operations are proper numbers *)

Lemma Zdigits2_spec (m : Z) :
  0 < m -> 2 ^ (Zdigits2 m - 1) <= m < 2 ^ Zdigits2 m.
Proof.
  intros H. destruct m as [|p|p]; try lia. apply digits2_pos_spec.
Qed.

Lemma Zdigits2_unique (m k : Z) :
  2 ^ (k - 1) <= m < 2 ^ k -> 0 < m -> Zdigits2 m = k.
Proof.
  intros H Hm. destruct m as [|p|p]; try lia.
  now apply digits2_pos_unique.
Qed.

Lemma Zdigits2_le (m k : Z) : 0 <= k -> 0 <= m < 2 ^ k -> Zdigits2 m <= k.
Proof.
  intros Hk [H0 Hm]. destruct (Z.eq_dec m 0) as [->|N]; [cbn; lia|].
  pose proof (Zdigits2_spec m ltac:(lia)) as [Dl Du].
  destruct (Z.le_gt_cases (Zdigits2 m) k); [assumption|].
  exfalso. assert (2 ^ k <= 2 ^ (Zdigits2 m - 1))
    by (apply Z.pow_le_mono_r; lia). lia.
Qed.

Lemma Zdigits2_ge (m k : Z) : 0 <= k -> 2 ^ k <= m -> k + 1 <= Zdigits2 m.
Proof.
  intros Hk Hm.
  assert (0 < 2 ^ k) by (apply Z.pow_pos_nonneg; lia).
  pose proof (Zdigits2_spec m ltac:(lia)) as [Dl Du].
  destruct (Z.le_gt_cases (k + 1) (Zdigits2 m)); [assumption|].
  exfalso. assert (2 ^ Zdigits2 m <= 2 ^ k)
    by (apply Z.pow_le_mono_r; lia). lia.
Qed.

Lemma shr_m_iter (mrs : shr_record) (j : nat) :
  0 <= shr_m mrs ->
  shr_m (Nat.iter j shr_1 mrs) = shr_m mrs / 2 ^ Z.of_nat j.
Proof.
  intros H0. induction j as [|j IH].
  - cbn [Nat.iter]. change (2 ^ Z.of_nat 0) with 1. now rewrite Z.div_1_r.
  - rewrite Nat.iter_succ.
    destruct (Nat.iter j shr_1 mrs) as [m r s]. cbn [shr_m] in IH.
    assert (P : 0 < 2 ^ Z.of_nat j) by (apply Z.pow_pos_nonneg; lia).
    assert (0 <= m) by (rewrite IH; apply Z.div_pos; lia).
    rewrite shr_1_spec by assumption. cbn [shr_m].
    rewrite Z.div2_div, IH.
    replace (Z.of_nat (S j)) with (Z.succ (Z.of_nat j)) by lia.
    rewrite Z.pow_succ_r by lia.
    replace (2 * 2 ^ Z.of_nat j) with (2 ^ Z.of_nat j * 2) by lia.
    apply Z.div_div; lia.
Qed.

Lemma shr_fexp_m (m e : Z) (l : location) :
  0 <= m ->
  let n := Z.max (fexp 53 1024 (Zdigits2 m + e) - e) 0 in
  shr_m (fst (shr_fexp 53 1024 m e l)) = m / 2 ^ n
  /\ snd (shr_fexp 53 1024 m e l) = e + n.
Proof.
  intros Hm n. subst n. unfold shr_fexp, shr.
  assert (H0 : shr_m (shr_record_of_loc m l) = m)
    by (destruct l as [|[ | | ]]; reflexivity).
  destruct (fexp 53 1024 (Zdigits2 m + e) - e) as [|p|p]; cbn [fst snd].
  - change (Z.max 0 0) with 0. change (2 ^ 0) with 1.
    rewrite Z.div_1_r. split; [exact H0|lia].
  - replace (Z.max (Zpos p) 0) with (Zpos p) by lia.
    rewrite iter_pos_nat, shr_m_iter by (rewrite H0; exact Hm).
    rewrite positive_nat_Z, H0. split; reflexivity.
  - replace (Z.max (Zneg p) 0) with 0 by lia. change (2 ^ 0) with 1.
    rewrite Z.div_1_r. split; [exact H0|lia].
Qed.

Lemma round_nearest_even_bounds (m : Z) (l : location) :
  m <= round_nearest_even m l <= m + 1.
Proof.
  destruct l as [|[ | | ]]; cbn [round_nearest_even];
    try destruct (Z.even m); lia.
Qed.

(** Rounding a mantissa that has at least the digits of its format gives a
    proper number. *)
Lemma binary_round_aux_valid (s : bool) (m e : Z) (l : location) :
  0 <= m -> e <= fexp 53 1024 (Zdigits2 m + e) ->
  valid_binary 53 1024 (binary_round_aux 53 1024 s m e l) = true.
Proof.
  intros Hm Hpre. unfold binary_round_aux.
  pose proof (shr_fexp_m m e l Hm) as [S1m S1e]. cbv zeta in *.
  destruct (shr_fexp 53 1024 m e l) as [mrs' e']. cbn [fst snd] in *.
  set (d := Zdigits2 m) in *.
  rewrite fexp64 in *.
  set (n1 := Z.max (Z.max (d + e - 53) (-1074) - e) 0) in *.
  assert (Hn1 : n1 = Z.max (d + e - 53) (-1074) - e) by lia.
  assert (He' : e' = Z.max (d + e - 53) (-1074)) by lia.
  assert (P1 : 0 < 2 ^ n1) by (apply Z.pow_pos_nonneg; lia).
  pose proof (round_nearest_even_bounds (shr_m mrs') (loc_of_shr_record mrs'))
    as Hr.
  set (m1 := round_nearest_even (shr_m mrs') (loc_of_shr_record mrs')) in *.
  rewrite S1m in Hr.
  assert (H0 : 0 <= m / 2 ^ n1) by (apply Z.div_pos; lia).
  assert (Hm1 : 0 <= m1) by lia.
  pose proof (shr_fexp_m m1 e' loc_Exact Hm1) as [S2m S2e]. cbv zeta in *.
  destruct (shr_fexp 53 1024 m1 e' loc_Exact) as [mrs'' e'']. cbn [fst snd] in *.
  rewrite fexp64 in *.
  destruct (Z.le_gt_cases (-1074) (d + e - 53)) as [Hnorm|Hsub].
  - (* normal range *)
    assert (Hmpos : 0 < m).
    { destruct (Z.eq_dec m 0) as [->|]; [|lia]. cbn in d. lia. }
    pose proof (Zdigits2_spec m Hmpos) as [Dl Du]. fold d in Dl, Du.
    assert (Hn1' : n1 = d - 53) by lia.
    assert (Hd : 53 <= d) by lia.
    assert (B0 : 2 ^ 52 <= m / 2 ^ n1 < 2 ^ 53).
    { split.
      - apply Z.div_le_lower_bound; [lia|].
        rewrite <- Z.pow_add_r by lia.
        replace (n1 + 52) with (d - 1) by lia. exact Dl.
      - apply Z.div_lt_upper_bound; [lia|].
        rewrite <- Z.pow_add_r by lia.
        replace (n1 + 53) with d by lia. exact Du. }
    destruct (Z.eq_dec m1 (2 ^ 53)) as [E53|N53].
    + rewrite E53 in *. change (Zdigits2 (2 ^ 53)) with 54 in *.
      replace (Z.max (Z.max (54 + e' - 53) (-1074) - e') 0) with 1 in * by lia.
      change (2 ^ 53 / 2 ^ 1) with (2 ^ 52) in S2m.
      rewrite S2m. change (2 ^ 52) with (Zpos (2 ^ 52)%positive).
      destruct (e'' <=? 1024 - 53) eqn:Eb; [|reflexivity].
      apply Z.leb_le in Eb.
      apply valid_finite_intro; [|exact Eb].
      rewrite fexp64.
      change (Zpos (digits2_pos (2 ^ 52)%positive)) with 53. lia.
    + assert (Hd1 : Zdigits2 m1 = 53)
        by (apply Zdigits2_unique; [change (53 - 1) with 52|]; lia).
      rewrite Hd1 in *.
      replace (Z.max (Z.max (53 + e' - 53) (-1074) - e') 0) with 0 in * by lia.
      change (2 ^ 0) with 1 in S2m. rewrite Z.div_1_r in S2m.
      rewrite S2m. destruct m1 as [|p1|p1] eqn:Em1; try lia.
      destruct (e'' <=? 1024 - 53) eqn:Eb; [|reflexivity].
      apply Z.leb_le in Eb.
      apply valid_finite_intro; [|exact Eb].
      rewrite fexp64. cbn [Zdigits2] in Hd1. rewrite Hd1. lia.
  - (* subnormal range *)
    assert (He'' : e' = -1074) by lia.
    assert (Hn1' : n1 = -1074 - e) by lia.
    assert (B0 : m / 2 ^ n1 < 2 ^ 52).
    { apply Z.div_lt_upper_bound; [lia|].
      rewrite <- Z.pow_add_r by lia.
      destruct (Z.eq_dec m 0) as [->|Nm].
      - apply Z.pow_pos_nonneg; lia.
      - pose proof (Zdigits2_spec m ltac:(lia)) as [Dl Du]. fold d in Dl, Du.
        assert (2 ^ d <= 2 ^ (n1 + 52)) by (apply Z.pow_le_mono_r; lia).
        lia. }
    assert (Hd1 : Zdigits2 m1 <= 53).
    { apply Zdigits2_le; [lia|].
      change (2 ^ 53) with (2 * 2 ^ 52). lia. }
    replace (Z.max (Z.max (Zdigits2 m1 + e' - 53) (-1074) - e') 0) with 0 in *
      by lia.
    change (2 ^ 0) with 1 in S2m. rewrite Z.div_1_r in S2m.
    rewrite S2m. destruct m1 as [|p1|p1] eqn:Em1; try lia; [reflexivity|].
    destruct (e'' <=? 1024 - 53) eqn:Eb; [|reflexivity].
    apply Z.leb_le in Eb.
    apply valid_finite_intro; [|exact Eb].
    rewrite fexp64. cbn [Zdigits2] in Hd1. lia.
Qed.

Lemma valid_digits (s : bool) (m : positive) (e : Z) :
  valid_binary 53 1024 (S754_finite s m e) = true ->
  -1074 <= e <= 971 /\ Zpos (digits2_pos m) <= 53
  /\ (e = -1074 \/ Zpos (digits2_pos m) = 53).
Proof.
  intros H. destruct (valid_finite_inv s m e H) as [Hc He].
  rewrite fexp64 in Hc. lia.
Qed.

(** Products, sums and quotients of proper numbers are proper numbers. *)
Lemma SFmul_valid (x y : spec_float) :
  valid_binary 53 1024 x = true -> valid_binary 53 1024 y = true ->
  valid_binary 53 1024 (SFmul 53 1024 x y) = true.
Proof.
  intros Vx Vy.
  destruct x as [sx|sx| |sx mx ex], y as [sy|sy| |sy my ey];
    try reflexivity.
  cbn [SFmul].
  destruct (valid_digits _ _ _ Vx) as (Ex & Dx & Cx).
  destruct (valid_digits _ _ _ Vy) as (Ey & Dy & Cy).
  apply binary_round_aux_valid; [lia|].
  rewrite fexp64.
  pose proof (digits2_pos_spec mx) as [Lx Ux].
  pose proof (digits2_pos_spec my) as [Ly Uy].
  set (dx := Zpos (digits2_pos mx)) in *.
  set (dy := Zpos (digits2_pos my)) in *.
  assert (1 <= dx) by (subst dx; lia). assert (1 <= dy) by (subst dy; lia).
  assert (Hd : dx + dy - 1 <= Zdigits2 (Zpos (mx * my))).
  { replace (dx + dy - 1) with (dx + dy - 2 + 1) by lia.
    apply Zdigits2_ge; [lia|].
    replace (dx + dy - 2) with ((dx - 1) + (dy - 1)) by lia.
    rewrite Z.pow_add_r by lia. rewrite Pos2Z.inj_mul.
    apply Z.mul_le_mono_nonneg; try lia;
      apply Z.lt_le_incl, Z.pow_pos_nonneg; lia. }
  lia.
Qed.

Lemma SFadd_valid (x y : spec_float) :
  valid_binary 53 1024 x = true -> valid_binary 53 1024 y = true ->
  valid_binary 53 1024 (SFadd 53 1024 x y) = true.
Proof.
  intros Vx Vy.
  destruct x as [sx|sx| |sx mx ex], y as [sy|sy| |sy my ey];
    try destruct sx; try destruct sy; try reflexivity; try assumption.
  all: destruct (valid_digits _ _ _ Vx) as (Ex & _);
    destruct (valid_digits _ _ _ Vy) as (Ey & _);
    cbn [SFadd]; cbv zeta;
    rewrite binary_normalize_char by lia; apply NORM_valid.
Qed.

Lemma SFdiv_valid (x y : spec_float) :
  valid_binary 53 1024 x = true -> valid_binary 53 1024 y = true ->
  valid_binary 53 1024 (SFdiv 53 1024 x y) = true.
Proof.
  intros Vx Vy.
  destruct x as [sx|sx| |sx mx ex], y as [sy|sy| |sy my ey];
    try reflexivity.
  cbn [SFdiv].
  destruct (valid_digits _ _ _ Vx) as (Ex & Dx & Cx).
  destruct (valid_digits _ _ _ Vy) as (Ey & Dy & Cy).
  pose proof (digits2_pos_spec mx) as [Lx Ux].
  pose proof (digits2_pos_spec my) as [Ly Uy].
  unfold SFdiv_core_binary. cbn [Zdigits2]. rewrite fexp64.
  set (dx := Zpos (digits2_pos mx)) in *.
  set (dy := Zpos (digits2_pos my)) in *.
  assert (1 <= dx) by (subst dx; lia). assert (1 <= dy) by (subst dy; lia).
  set (e' := Z.min (Z.max (dx + ex - (dy + ey) - 53) (-1074)) (ex - ey)).
  remember (ex - ey - e') as sh eqn:Esh.
  assert (Hsh : 0 <= sh) by lia.
  assert (Hm' : match sh with
                | Z0 => Zpos mx
                | Zpos _ => Z.shiftl (Zpos mx) sh
                | Zneg _ => 0
                end = Zpos mx * 2 ^ sh).
  { destruct sh as [|p|p]; try lia. apply Z.shiftl_mul_pow2. lia. }
  remember (match sh with
            | Z0 => Zpos mx
            | Zpos _ => Z.shiftl (Zpos mx) sh
            | Zneg _ => 0
            end) as m' eqn:Em'.
  clear Em'.
  assert (P : 0 < 2 ^ sh) by (apply Z.pow_pos_nonneg; lia).
  assert (Hq : 0 <= m' / Zpos my) by (apply Z.div_pos; nia).
  assert (Eq' : Z.div_eucl m' (Zpos my) = (m' / Zpos my, m' mod Zpos my)).
  { unfold Z.div, Z.modulo. destruct (Z.div_eucl m' (Zpos my)); reflexivity. }
  rewrite Eq'.
  apply binary_round_aux_valid; [exact Hq|].
  rewrite fexp64.
  destruct (Z.le_gt_cases e' (-1074)) as [Hlow|Hhigh]; [lia|].
  assert (He' : e' = dx + ex - (dy + ey) - 53) by lia.
  assert (Hs' : sh = 53 - dx + dy) by lia.
  assert (H52 : 2 ^ 52 <= m' / Zpos my).
  { apply Z.div_le_lower_bound; [lia|].
    rewrite Hm'.
    assert (2 ^ (52 + dy) <= Zpos mx * 2 ^ sh).
    { replace (52 + dy) with ((dx - 1) + sh) by lia.
      rewrite Z.pow_add_r by lia.
      apply Z.mul_le_mono_nonneg_r; lia. }
    assert (Zpos my * 2 ^ 52 <= 2 ^ (52 + dy)).
    { rewrite Z.pow_add_r by lia. nia. }
    lia. }
  pose proof (Zdigits2_ge (m' / Zpos my) 52 ltac:(lia) H52). lia.
Qed.

End RoundingFacts.

(** ** Monotonicity in the cost of goods *)

Section CostOfGoods.

Local Open Scope Z_scope.

Lemma SFleb_of_not_ltb (x y : spec_float) :
  x <> S754_nan -> y <> S754_nan -> SFltb x y = false -> SFleb y x = true.
Proof.
  intros Hx Hy. unfold SFleb, SFltb. rewrite (SFcompare_antisym x y).
  destruct (SFcompare x y) as [[ | | ]|] eqn:C; cbn; try congruence.
  exfalso.
  destruct x as [sx|sx| |sx mx ex], y as [sy|sy| |sy my ey];
    try contradiction; cbn in C; try discriminate C;
    destruct sx, sy; discriminate C.
Qed.

Lemma NORM_shape (z : Z) :
  finite_or_zero (NORM z) = true
  \/ (exists s, NORM z = S754_infinity s).
Proof.
  destruct z as [|p|p]; cbn [NORM]; [now left| |].
  - destruct (ROUND_shape false p) as [(m & _ & _ & ->)|[_ ->]];
      [now left|right; now exists false].
  - destruct (ROUND_shape true p) as [(m & _ & _ & ->)|[_ ->]];
      [now left|right; now exists true].
Qed.

Lemma nonneg_value (x : spec_float) :
  valid_binary 53 1024 x = true -> nonneg x = true -> 0 <= exact_value x.
Proof.
  intros V N. destruct x as [s|s| |[|] m e]; try discriminate;
    cbn [exact_value]; try lia.
  destruct (valid_digits _ _ _ V) as (E & _).
  pose proof (exact_value_sign false m e ltac:(lia)) as S.
  cbn [exact_value] in S. lia.
Qed.

(** Subtracting a number that is not negative from a finite number, or from
    [-Infinity], gives a finite number or [-Infinity]: neither [NaN] nor
    [+Infinity]. *)
Lemma sub_nonneg_bounded (u b : spec_float) :
  valid_binary 53 1024 u = true -> valid_binary 53 1024 b = true ->
  finite_or_zero u = true \/ u = S754_infinity true ->
  nonneg b = true ->
  finite_or_zero (SFsub 53 1024 u b) = true
  \/ SFsub 53 1024 u b = S754_infinity true.
Proof.
  intros Vu Vb [Fu| ->] Nb.
  - destruct (finite_or_zero b) eqn:Fb.
    + pose proof (nonneg_value b Vb Nb) as Hb.
      assert (L : SFleb (NORM (exact_value u - exact_value b))
                        (NORM (exact_value u)) = true)
        by (apply NORM_mono; lia).
      assert (Su : same_number u (NORM (exact_value u))).
      { destruct u as [s|s| |s m e]; try discriminate.
        - right. exists s, false. now split.
        - left. symmetry. now apply NORM_exact_value. }
      assert (Hn : finite_or_zero (NORM (exact_value u - exact_value b)) = true
                   \/ NORM (exact_value u - exact_value b) = S754_infinity true).
      { destruct (NORM_shape (exact_value u - exact_value b)) as [F|(s & E)];
          [now left|]. destruct s; [now right|].
        exfalso. rewrite E in L.
        assert (F' : finite_or_zero (NORM (exact_value u)) = true).
        { destruct Su as [<-|(s & s' & _ & ->)]; [exact Fu|reflexivity]. }
        destruct (NORM (exact_value u)) as [s|s| |s m e];
          try discriminate F'; discriminate L. }
      destruct (SFsub_value u b Vu Vb Fu Fb) as [->|(s & s' & -> & _)];
        [exact Hn|now left].
    + right. destruct b as [s|[|]| |s m e]; try discriminate.
      destruct u as [s|s| |s m e]; try discriminate; reflexivity.
  - right. destruct b as [s|[|]| |[|] m e]; try discriminate; reflexivity.
Qed.

Lemma bounded_not_nan (x : spec_float) :
  finite_or_zero x = true \/ x = S754_infinity true -> x <> S754_nan.
Proof. intros [F| ->]; [destruct x; discriminate|discriminate]. Qed.

(** Fee and tax terms that are not negative. *)
Lemma div_100_nonneg (x : spec_float) :
  nonneg x = true -> nonneg (x / Float64.of_Z 100)%f64 = true.
Proof.
  intros N. destruct x as [s|[|]| |[|] m e]; try discriminate; try reflexivity.
  change (Float64.of_Z 100) with (S754_finite false 7036874417766400 (-46)).
  destruct (div_pos_pos m 7036874417766400 e (-46)) as [E|[(m' & e' & E)|E]];
    cbv zeta in E; rewrite E; reflexivity.
Qed.

Lemma mul_pos_nonneg (m : positive) (e : Z) (y : spec_float) :
  nonneg y = true -> nonneg (S754_finite false m e * y)%f64 = true.
Proof.
  intros N. destruct y as [s|[|]| |[|] my ey]; try discriminate;
    try reflexivity.
  unfold Float64.mul, SFmul.
  destruct (binary_round_aux_sign (xorb false false) (Zpos (m * my)) (e + ey)
              loc_Exact ltac:(lia)) as [E|[(m' & e' & E)|E]];
    cbv zeta in E; rewrite E; reflexivity.
Qed.

Lemma add_nonneg (x y : spec_float) :
  nonneg x = true -> nonneg y = true -> nonneg (x + y)%f64 = true.
Proof.
  intros Nx Ny.
  destruct x as [sx|[|]| |[|] mx ex]; try discriminate;
    destruct y as [sy|[|]| |[|] my ey]; try discriminate;
    try destruct sx; try destruct sy; try reflexivity.
  unfold Float64.add, SFadd. cbv zeta. cbn [cond_Zopp].
  set (a := fst (shl_align mx ex (Z.min ex ey))).
  set (b := fst (shl_align my ey (Z.min ex ey))).
  change (Zpos a + Zpos b) with (Zpos (a + b)).
  cbn [binary_normalize]. unfold binary_round.
  destruct (shl_align (a + b) (Z.min ex ey) _) as [mz ez].
  destruct (binary_round_aux_sign false (Zpos mz) ez loc_Exact ltac:(lia))
    as [E|[(m' & e' & E)|E]];
    cbv zeta in E; rewrite E; reflexivity.
Qed.

Lemma nonneg_of_finite_geb (x : spec_float) :
  Float64.isFinite x && (x >=? Float64.of_Z 0)%f64 = true -> nonneg x = true.
Proof.
  intros H. apply andb_true_iff in H. destruct H as [F G].
  destruct (geb_zero_inv64 x F G) as [(s & ->)|(m & e & ->)]; reflexivity.
Qed.

Lemma proper_fields (sp cg tx ad fp fc oc ff mo : Float64.number) :
  proper_inputs64 (Calculator64.Build_CalcInputs sp cg tx ad fp fc oc ff mo)
  = true ->
  Float64.valid sp = true /\ Float64.valid cg = true
  /\ Float64.valid tx = true /\ Float64.valid fp = true
  /\ Float64.valid fc = true /\ Float64.valid oc = true
  /\ Float64.valid ff = true.
Proof.
  unfold proper_inputs64, fields64. cbn [forallb Calculator64.sellingPrice
    Calculator64.cogs Calculator64.taxPercent Calculator64.adSpend
    Calculator64.feesPercent Calculator64.feesCents
    Calculator64.otherCostsPercent Calculator64.fixedFeesPerUnit
    Calculator64.monthlyOverhead].
  intros H. repeat (apply andb_true_iff in H; destruct H as [? H]).
  repeat split; assumption.
Qed.

Lemma nonnegative_fields (sp cg tx ad fp fc oc ff mo : Float64.number) :
  nonnegative_inputs64
    (Calculator64.Build_CalcInputs sp cg tx ad fp fc oc ff mo) = true ->
  Float64.isFinite sp = true /\ nonneg cg = true
  /\ nonneg tx = true /\ nonneg fp = true
  /\ nonneg fc = true /\ nonneg oc = true
  /\ nonneg ff = true.
Proof.
  unfold nonnegative_inputs64, fields64. cbn [forallb Calculator64.sellingPrice
    Calculator64.cogs Calculator64.taxPercent Calculator64.adSpend
    Calculator64.feesPercent Calculator64.feesCents
    Calculator64.otherCostsPercent Calculator64.fixedFeesPerUnit
    Calculator64.monthlyOverhead].
  intros H. repeat (apply andb_true_iff in H; destruct H as [? H]).
  repeat split; try (now apply nonneg_of_finite_geb).
  match goal with
  | F : Float64.isFinite sp && _ = true |- _ =>
      apply andb_true_iff in F; exact (proj1 F)
  end.
Qed.

(** The profit per unit of the first edition, as a chain of subtractions
    from [sellingPrice - cogs]. *)
Lemma profitPerUnit_chain (sp cg tx ad fp fc oc ff mo : Float64.number) :
  (sp >? Float64.of_Z 0)%f64 = true ->
  Calculator64.Result.profitPerUnit
    (Calculator64.results
       (Calculator64.Build_CalcInputs sp cg tx ad fp fc oc ff mo))
  = (sp - cg - ff
     - (sp * (fp / Float64.of_Z 100) + fc / Float64.of_Z 100)
     - sp * (tx / Float64.of_Z 100)
     - sp * (oc / Float64.of_Z 100))%f64.
Proof.
  intros Hsp. unfold Calculator64.results.
  cbn [Calculator64.sellingPrice Calculator64.cogs Calculator64.taxPercent
       Calculator64.adSpend Calculator64.feesPercent Calculator64.feesCents
       Calculator64.otherCostsPercent Calculator64.fixedFeesPerUnit
       Calculator64.monthlyOverhead].
  rewrite price_guard_gtb64, Hsp. reflexivity.
Qed.

End CostOfGoods.

(** The claim as worded fails.  It reads: of two configurations that agree
    on every field but [cogs] and have [sellingPrice > 0], the one with the
    strictly larger [cogs] has the strictly smaller [profitPerUnit].  At the
    starting configuration, raising [cogs] from 10 to the next number,
    [10.000000000000002], leaves [profitPerUnit] at 38.25: the difference is
    lost when [sellingPrice - cogs] is rounded. *)
Lemma profit_not_strictly_decreasing :
  ~ (forall c1 c2 : Calculator64.CalcInputs,
        proper_inputs64 c1 = true -> proper_inputs64 c2 = true ->
        nonnegative_inputs64 c1 = true -> nonnegative_inputs64 c2 = true ->
        c2 = with_cogs64 c1 (Calculator64.cogs c2) ->
        (Calculator64.sellingPrice c1 >? Float64.of_Z 0)%f64 = true ->
        (Calculator64.cogs c1 <? Calculator64.cogs c2)%f64 = true ->
        (Calculator64.Result.profitPerUnit (Calculator64.results c2)
         <? Calculator64.Result.profitPerUnit (Calculator64.results c1))%f64
        = true).
Proof.
  intros H.
  specialize (H default_inputs64 costlier_inputs64).
  assert (E : (Calculator64.Result.profitPerUnit
                 (Calculator64.results costlier_inputs64)
               <? Calculator64.Result.profitPerUnit
                    (Calculator64.results default_inputs64))%f64 = true).
  { apply H; vm_compute; reflexivity. }
  vm_compute in E. discriminate E.
Qed.

Example costlier_profit :
  (Calculator64.cogs default_inputs64
   <? Calculator64.cogs costlier_inputs64)%f64 = true
  /\ Calculator64.Result.profitPerUnit (Calculator64.results default_inputs64)
     = Float64.decimal 3825 100
  /\ Calculator64.Result.profitPerUnit (Calculator64.results costlier_inputs64)
     = Float64.decimal 3825 100.
Proof. repeat split; vm_compute; reflexivity. Qed.

(** C6, as the code has it.  Of two configurations of proper binary64
    numbers that agree on every field but [cogs] and have
    [sellingPrice > 0], the one with the strictly larger [cogs] never has the
    larger [profitPerUnit].  When moreover the fields are finite and not
    negative, both profits are numbers and the profit at the larger [cogs]
    is less than or equal to the other. *)
Theorem profit_nonincreasing_in_cogs (c1 c2 : Calculator64.CalcInputs) :
  proper_inputs64 c1 = true -> proper_inputs64 c2 = true ->
  c2 = with_cogs64 c1 (Calculator64.cogs c2) ->
  (Calculator64.sellingPrice c1 >? Float64.of_Z 0)%f64 = true ->
  (Calculator64.cogs c1 <? Calculator64.cogs c2)%f64 = true ->
  (Calculator64.Result.profitPerUnit (Calculator64.results c2)
   >? Calculator64.Result.profitPerUnit (Calculator64.results c1))%f64 = false
  /\ (nonnegative_inputs64 c1 = true -> nonnegative_inputs64 c2 = true ->
      (Calculator64.Result.profitPerUnit (Calculator64.results c2)
       <=? Calculator64.Result.profitPerUnit (Calculator64.results c1))%f64
      = true).
Proof.
  intros P1 P2 Heq Hsp Hlt.
  destruct c1 as [sp cg tx ad fp fc oc ff mo].
  destruct c2 as [sp2 cg2 tx2 ad2 fp2 fc2 oc2 ff2 mo2].
  unfold with_cogs64 in Heq.
  cbn [Calculator64.sellingPrice Calculator64.cogs Calculator64.taxPercent
       Calculator64.adSpend Calculator64.feesPercent Calculator64.feesCents
       Calculator64.otherCostsPercent Calculator64.fixedFeesPerUnit
       Calculator64.monthlyOverhead] in Heq, Hsp, Hlt.
  injection Heq as -> -> -> -> -> -> -> ->.
  destruct (proper_fields _ _ _ _ _ _ _ _ _ P1)
    as (Vsp & Vcg & Vtx & Vfp & Vfc & Voc & Vff).
  destruct (proper_fields _ _ _ _ _ _ _ _ _ P2) as (_ & Vcg2 & _).
  rewrite !profitPerUnit_chain by exact Hsp.
  set (hundred := Float64.of_Z 100).
  assert (Vh : Float64.valid hundred = true) by reflexivity.
  set (pf := (sp * (fp / hundred) + fc / hundred)%f64).
  set (tc := (sp * (tx / hundred))%f64).
  set (ot := (sp * (oc / hundred))%f64).
  assert (Vpf : Float64.valid pf = true)
    by (apply SFadd_valid; [apply SFmul_valid; [|apply SFdiv_valid]
                           |apply SFdiv_valid]; assumption).
  assert (Vtc : Float64.valid tc = true)
    by (apply SFmul_valid; [|apply SFdiv_valid]; assumption).
  assert (Vot : Float64.valid ot = true)
    by (apply SFmul_valid; [|apply SFdiv_valid]; assumption).
  assert (V0 : Float64.valid (sp - cg)%f64 = true) by now apply SFsub_valid.
  assert (V0' : Float64.valid (sp - cg2)%f64 = true) by now apply SFsub_valid.
  assert (V1 : Float64.valid (sp - cg - ff)%f64 = true) by now apply SFsub_valid.
  assert (V1' : Float64.valid (sp - cg2 - ff)%f64 = true)
    by now apply SFsub_valid.
  assert (V2 : Float64.valid (sp - cg - ff - pf)%f64 = true)
    by now apply SFsub_valid.
  assert (V2' : Float64.valid (sp - cg2 - ff - pf)%f64 = true)
    by now apply SFsub_valid.
  assert (V3 : Float64.valid (sp - cg - ff - pf - tc)%f64 = true)
    by now apply SFsub_valid.
  assert (V3' : Float64.valid (sp - cg2 - ff - pf - tc)%f64 = true)
    by now apply SFsub_valid.
  assert (L : (sp - cg - ff - pf - tc - ot <? sp - cg2 - ff - pf - tc - ot)%f64
              = false).
  { apply sub_mono; try assumption.
    apply sub_mono; try assumption.
    apply sub_mono; try assumption.
    apply sub_mono; try assumption.
    apply sub_anti; assumption. }
  split; [exact L|].
  intros N1 N2.
  destruct (nonnegative_fields _ _ _ _ _ _ _ _ _ N1)
    as (Fsp & Ncg & Ntx & Nfp & Nfc & Noc & Nff).
  destruct (nonnegative_fields _ _ _ _ _ _ _ _ _ N2) as (_ & Ncg2 & _).
  assert (Ssp : exists m e, sp = S754_finite false m e).
  { destruct sp as [s|s| |[|] m e]; try discriminate; eauto. }
  destruct Ssp as (msp & esp & Esp).
  assert (Npf : nonneg pf = true).
  { subst pf. rewrite Esp.
    apply add_nonneg; [apply mul_pos_nonneg|]; now apply div_100_nonneg. }
  assert (Ntc : nonneg tc = true)
    by (subst tc; rewrite Esp; apply mul_pos_nonneg; now apply div_100_nonneg).
  assert (Not : nonneg ot = true)
    by (subst ot; rewrite Esp; apply mul_pos_nonneg; now apply div_100_nonneg).
  assert (Bsp : finite_or_zero sp = true \/ sp = S754_infinity true)
    by (left; rewrite Esp; reflexivity).
  apply SFleb_of_not_ltb; [| |exact L]; apply bounded_not_nan.
  - repeat (apply sub_nonneg_bounded; try assumption).
  - repeat (apply sub_nonneg_bounded; try assumption).
Qed.

(** At the starting configuration a unit cost of 12 instead of 10 lowers the
    profit per unit, from 38.25 to 36.25. *)
Lemma profit_nonincreasing_in_cogs_witness :
  (Calculator64.cogs default_inputs64 <? Float64.of_Z 12)%f64 = true
  /\ (Calculator64.Result.profitPerUnit
        (Calculator64.results (with_cogs64 default_inputs64 (Float64.of_Z 12)))
      <=? Calculator64.Result.profitPerUnit (Calculator64.results default_inputs64))%f64
     = true
  /\ Calculator64.Result.profitPerUnit
       (Calculator64.results (with_cogs64 default_inputs64 (Float64.of_Z 12)))
     = Float64.decimal 3625 100.
Proof.
  split; [reflexivity|]. split.
  - apply (profit_nonincreasing_in_cogs default_inputs64
             (with_cogs64 default_inputs64 (Float64.of_Z 12)));
      reflexivity.
  - vm_compute. reflexivity.
Defined.

(** ** What binary64 makes of extreme inputs *)

(** At a price of 1.15 the 50% row reports a profit of 0.57: the product
    [1.15 * 0.5 * 100] is [57.49999999999999] in binary64. *)
Example cent_rounding :
  option_map Calculator64.Scenario.profit
    (nth_error
       (Calculator64.marginScenarios
          (with_sellingPrice64 default_inputs64 (Float64.decimal 115 100))) 5)
  = Some (Float64.decimal 57 100).
Proof. vm_compute. reflexivity. Qed.

(** At a price of [1e308] with fees of 1000% the fee overflows and the
    profit per unit is [-Infinity]. *)
Example overflow_profit :
  Calculator64.Result.profitPerUnit (Calculator64.results huge_inputs64)
  = S754_infinity true.
Proof. vm_compute. reflexivity. Qed.

(** After an offer priced 22.5 the added offer is priced 31: the product
    [22.5 * 1.4] is [31.499999999999996] in binary64, below the half that
    the exact product 31.5 reaches.  After the default last offer of 70 it
    is priced 98. *)
Example added_tier_price :
  addedTierPrice64 (Float64.decimal 225 10) = Float64.of_Z 31
  /\ addedTierPrice64 (Float64.of_Z 70) = Float64.of_Z 98.
Proof. split; vm_compute; reflexivity. Qed.

Section NoNaN.

Local Open Scope Z_scope.

Lemma of_Z_nonneg_sign (z : Z) : 0 <= z -> nonneg (Float64.of_Z z) = true.
Proof.
  intros Hz. unfold Float64.of_Z, binary_normalize.
  destruct z as [|p|p]; [reflexivity| |lia].
  unfold binary_round. destruct (shl_align p 0 _) as [mz ez].
  destruct (binary_round_aux_sign false (Zpos mz) ez loc_Exact ltac:(lia))
    as [E|[(m' & e' & E)|E]]; cbv zeta in E; rewrite E; reflexivity.
Qed.

Lemma ceil_nonneg (x : spec_float) :
  nonneg x = true -> nonneg (Float64.ceil x) = true.
Proof.
  intros N. destruct x as [s|[|]| |[|] m e]; try discriminate; try reflexivity.
  cbn [Float64.ceil]. destruct (0 <=? e) eqn:He; [reflexivity|].
  apply Z.leb_gt in He.
  assert (Hp : 0 < 2 ^ (- e)) by (apply Z.pow_pos_nonneg; lia).
  assert (Hq : 0 <= Zpos m / 2 ^ (- e)) by (apply Z.div_pos; lia).
  apply of_Z_nonneg_sign. destruct (_ =? 0); lia.
Qed.

Lemma div_nonneg_pos (x : spec_float) (m : positive) (e : Z) :
  nonneg x = true -> nonneg (x / S754_finite false m e)%f64 = true.
Proof.
  intros N. destruct x as [s|[|]| |[|] mx ex]; try discriminate;
    try reflexivity.
  destruct (div_pos_pos mx m ex e) as [E|[(m' & e' & E)|E]];
    cbv zeta in E; rewrite E; reflexivity.
Qed.

Lemma positive_bounded (x : spec_float) :
  finite_or_zero x = true \/ x = S754_infinity true ->
  (x >? Float64.of_Z 0)%f64 = true ->
  exists m e, x = S754_finite false m e.
Proof.
  intros [F| ->] H; [|discriminate H].
  destruct x as [s|s| |[|] m e]; try discriminate; eauto.
Qed.

End NoNaN.

(** X28. On a configuration of proper binary64 numbers that are finite and
    not negative, [results] never reports [NaN]: the profit per unit is a
    finite number or [-Infinity], and the breakeven ROAS and unit count are
    zero, positive and finite, or [+Infinity]. *)
Theorem results_never_NaN (c : Calculator64.CalcInputs) :
  proper_inputs64 c = true -> nonnegative_inputs64 c = true ->
  let r := Calculator64.results c in
  (finite_or_zero (Calculator64.Result.profitPerUnit r) = true
   \/ Calculator64.Result.profitPerUnit r = S754_infinity true)
  /\ nonneg (Calculator64.Result.breakevenRoas r) = true
  /\ nonneg (Calculator64.Result.breakevenUnits r) = true.
Proof.
  intros P N r. subst r.
  destruct (Calculator64.sellingPrice c >? Float64.of_Z 0)%f64 eqn:Hsp;
    [|rewrite (sentinel_without_price64 c Hsp); repeat split; now left].
  rewrite (results_with_price64 c Hsp).
  cbn [Calculator64.Result.profitPerUnit Calculator64.Result.breakevenRoas
       Calculator64.Result.breakevenUnits].
  destruct c as [sp cg tx ad fp fc oc ff mo].
  cbn [Calculator64.sellingPrice Calculator64.cogs Calculator64.taxPercent
       Calculator64.adSpend Calculator64.feesPercent Calculator64.feesCents
       Calculator64.otherCostsPercent Calculator64.fixedFeesPerUnit
       Calculator64.monthlyOverhead] in *.
  destruct (proper_fields _ _ _ _ _ _ _ _ _ P)
    as (Vsp & Vcg & Vtx & Vfp & Vfc & Voc & Vff).
  destruct (nonnegative_fields _ _ _ _ _ _ _ _ _ N)
    as (Fsp & Ncg & Ntx & Nfp & Nfc & Noc & Nff).
  assert (Nad : nonneg ad = true /\ nonneg mo = true).
  { unfold nonnegative_inputs64, fields64 in N.
    cbn [forallb Calculator64.sellingPrice Calculator64.cogs
         Calculator64.taxPercent Calculator64.adSpend
         Calculator64.feesPercent Calculator64.feesCents
         Calculator64.otherCostsPercent Calculator64.fixedFeesPerUnit
         Calculator64.monthlyOverhead] in N.
    repeat (apply andb_true_iff in N; destruct N as [? N]).
    split; now apply nonneg_of_finite_geb. }
  destruct Nad as [Nad Nmo].
  assert (Ssp : exists m e, sp = S754_finite false m e).
  { destruct sp as [s|s| |[|] m e]; try discriminate; eauto. }
  destruct Ssp as (msp & esp & Esp).
  set (hundred := Float64.of_Z 100).
  assert (Vh : Float64.valid hundred = true) by reflexivity.
  set (pf := (sp * (fp / hundred) + fc / hundred)%f64).
  set (tc := (sp * (tx / hundred))%f64).
  set (ot := (sp * (oc / hundred))%f64).
  assert (Vpf : Float64.valid pf = true)
    by (apply SFadd_valid; [apply SFmul_valid; [|apply SFdiv_valid]
                           |apply SFdiv_valid]; assumption).
  assert (Vtc : Float64.valid tc = true)
    by (apply SFmul_valid; [|apply SFdiv_valid]; assumption).
  assert (Vot : Float64.valid ot = true)
    by (apply SFmul_valid; [|apply SFdiv_valid]; assumption).
  assert (Npf : nonneg pf = true).
  { subst pf. rewrite Esp.
    apply add_nonneg; [apply mul_pos_nonneg|]; now apply div_100_nonneg. }
  assert (Ntc : nonneg tc = true)
    by (subst tc; rewrite Esp; apply mul_pos_nonneg; now apply div_100_nonneg).
  assert (Not : nonneg ot = true)
    by (subst ot; rewrite Esp; apply mul_pos_nonneg; now apply div_100_nonneg).
  assert (B : finite_or_zero (sp - cg - ff - pf - tc - ot)%f64 = true
              \/ (sp - cg - ff - pf - tc - ot)%f64 = S754_infinity true).
  { assert (Bsp : finite_or_zero sp = true \/ sp = S754_infinity true)
      by (left; rewrite Esp; reflexivity).
    assert (V0 : Float64.valid (sp - cg)%f64 = true) by now apply SFsub_valid.
    assert (V1 : Float64.valid (sp - cg - ff)%f64 = true)
      by now apply SFsub_valid.
    assert (V2 : Float64.valid (sp - cg - ff - pf)%f64 = true)
      by now apply SFsub_valid.
    assert (V3 : Float64.valid (sp - cg - ff - pf - tc)%f64 = true)
      by now apply SFsub_valid.
    repeat (apply sub_nonneg_bounded; try assumption). }
  split; [exact B|].
  set (ppu := (sp - cg - ff - pf - tc - ot)%f64) in *.
  destruct (ppu >? Float64.of_Z 0)%f64 eqn:Hp; [|split; reflexivity].
  destruct (positive_bounded ppu B Hp) as (mp & ep & Ep).
  split.
  - rewrite Ep. apply div_nonneg_pos. rewrite Esp. reflexivity.
  - cbn [andb].
    destruct (ad + mo >? Float64.of_Z 0)%f64; [|reflexivity].
    apply ceil_nonneg. rewrite Ep. apply div_nonneg_pos.
    now apply add_nonneg.
Qed.

Lemma results_never_NaN_witness :
  let r := Calculator64.results huge_inputs64 in
  Calculator64.Result.profitPerUnit r = S754_infinity true
  /\ nonneg (Calculator64.Result.breakevenRoas r) = true.
Proof.
  split; [vm_compute; reflexivity|].
  apply (results_never_NaN huge_inputs64); vm_compute; reflexivity.
Defined.

(** X29. Whatever the configuration, the first row of the scenario table,
    the one for a margin of 0, has an infinite breakeven ROAS and an
    infinite number of orders: [sellingPrice * 0] is a zero or [NaN], never
    above one cent. *)
Theorem first_scenario_infinite (c : Calculator64.CalcInputs) :
  exists s rest,
    Calculator64.marginScenarios c = s :: rest
    /\ Calculator64.Scenario.margin s = Float64.of_Z 0
    /\ Calculator64.Scenario.price s = Calculator64.sellingPrice c
    /\ Calculator64.Scenario.breakevenRoas s = Float64.infinity
    /\ Calculator64.Scenario.breakevenOrders s = Float64.infinity.
Proof.
  unfold Calculator64.marginScenarios, Calculator64.TARGET_MARGINS.
  cbn [map]. eexists. eexists. split; [reflexivity|].
  cbn [Calculator64.Scenario.margin Calculator64.Scenario.price
       Calculator64.Scenario.breakevenRoas
       Calculator64.Scenario.breakevenOrders].
  assert (H : (Calculator64.sellingPrice c * Float64.of_Z 0
               >? Float64.decimal 1 100)%f64 = false).
  { destruct (Calculator64.sellingPrice c) as [s|s| |s m e];
      try destruct s; vm_compute; reflexivity. }
  rewrite H. repeat split.
Qed.
